(** * ai-intro-server: quiz engine, profile aggregator and chat history

    A shallow embedding of the route handlers of the server
    ([routes/quiz.ts], [routes/auth.ts], [routes/chat.ts]) over an explicit
    relational store, and the properties of the quiz-attempt lifecycle,
    the profile aggregate and the chat history that follow from the code.

    Conventions of the embedding:
    - a table is the list of its rows in insertion order; identifiers and
      text columns are [string], [int] columns and JavaScript numbers are
      [Z], a [Date] is its number of milliseconds since the epoch ([Z]),
      a nullable column is an [option];
    - a handler is a function from the request's inputs and the store to a
      response and the store it leaves behind;
    - what the runtime draws from outside ([randomUUIDv7()], [generateId],
      [new Date()], the column default [now()], the completion provider,
      the session issuer) is an explicit argument of the handler;
    - the store enforces what the schema declares: primary keys, the
      unique user name and the foreign keys; a statement that violates one
      of them throws, and a transaction whose body throws leaves the store
      as it was.  Column widths, integer ranges and collations are the
      engine's business and are not modelled: strings compare exactly. *)

From Stdlib Require Import String List ZArith Bool Lia Permutation DecimalString.
Import ListNotations.
Open Scope string_scope.
Open Scope Z_scope.

(** ** JSON values, as sent by [c.json] *)

#[local] Set Warnings "-register-all".

Inductive JSON : Type :=
| JNull
| JBool (b : bool)
| JNum (n : Z)
| JStr (s : string)
| JDate (ms : Z)
| JArr (items : list JSON)
| JObj (fields : list (string * JSON)).

(** The value of property [k] of an object; [None] when the property is
    absent (JavaScript's [undefined]) or the value is not an object. *)
Definition property (k : string) (v : JSON) : option JSON :=
  match v with
  | JObj fields =>
      match find (fun kv => String.eqb (fst kv) k) fields with
      | Some kv => Some (snd kv)
      | None => None
      end
  | _ => None
  end.

Definition has_property (k : string) (v : JSON) : bool :=
  match property k v with Some _ => true | None => false end.

Definition JOptStr (o : option string) : JSON :=
  match o with Some s => JStr s | None => JNull end.

Definition JOptDate (o : option Z) : JSON :=
  match o with Some d => JDate d | None => JNull end.

(** ** The schema *)

Module User.
Record row : Type := mk
  { id : string; username : string; password_hash : string }.
End User.

(** The object a handler gives to [insert(userTable).values]: a value for
    each column the object names.  The columns are named [id],
    [username] and [password_hash]; a property of the object under any
    other name is not a value of the row, and a column the object does
    not name has no value ([None]). *)
Module UserValues.
Record t : Type := mk
  { id : string; username : string; password_hash : option string }.
End UserValues.

Module UserProfile.
Record row : Type := mk
  { id : string;
    userId : string;
    createdAt : Z;
    updatedAt : Z;
    totalQuizzesTaken : Z;
    highestScore : Z }.
End UserProfile.

Module QuestionSet.
Record row : Type := mk
  { id : string;
    name : string;
    level : Z;
    description : option string;
    createdAt : Z;
    updatedAt : Z }.
End QuestionSet.

Module Question.
Record row : Type := mk
  { id : string;
    questionSetId : string;
    type : string;
    content : string;
    options : JSON;
    correctAnswer : string;
    createdAt : Z }.
End Question.

Module QuizAttempt.
Record row : Type := mk
  { id : string;
    userId : string;
    questionSetId : string;
    score : Z;
    totalQuestions : Z;
    startedAt : Z;
    completedAt : option Z }.
End QuizAttempt.

Module QuizAnswer.
Record row : Type := mk
  { id : string;
    quizAttemptId : string;
    questionId : string;
    userAnswer : string;
    isCorrect : bool;
    answeredAt : Z }.
End QuizAnswer.

Module ChatSession.
Record row : Type := mk
  { id : string; userId : string; createdAt : Z }.
End ChatSession.

Module ChatMessage.
Record row : Type := mk
  { id : string;
    chatSessionId : string;
    role : string;
    content : string;
    createdAt : Z }.
End ChatMessage.

(** The authenticated user of a request, [c.get('user')!]. *)
Module AuthUser.
Record t : Type := mk { id : string; username : string }.
End AuthUser.

Record Store : Type := mkStore
  { userTable : list User.row;
    userProfileTable : list UserProfile.row;
    questionSetTable : list QuestionSet.row;
    questionTable : list Question.row;
    quizAttemptTable : list QuizAttempt.row;
    quizAnswerTable : list QuizAnswer.row;
    chatSessionTable : list ChatSession.row;
    chatMessageTable : list ChatMessage.row }.

Definition emptyStore : Store := mkStore [] [] [] [] [] [] [] [].

Definition with_userTable (t : list User.row) (db : Store) : Store :=
  mkStore t (userProfileTable db) (questionSetTable db) (questionTable db)
    (quizAttemptTable db) (quizAnswerTable db) (chatSessionTable db)
    (chatMessageTable db).

Definition with_userProfileTable (t : list UserProfile.row) (db : Store) : Store :=
  mkStore (userTable db) t (questionSetTable db) (questionTable db)
    (quizAttemptTable db) (quizAnswerTable db) (chatSessionTable db)
    (chatMessageTable db).

Definition with_quizAttemptTable (t : list QuizAttempt.row) (db : Store) : Store :=
  mkStore (userTable db) (userProfileTable db) (questionSetTable db)
    (questionTable db) t (quizAnswerTable db) (chatSessionTable db)
    (chatMessageTable db).

Definition with_quizAnswerTable (t : list QuizAnswer.row) (db : Store) : Store :=
  mkStore (userTable db) (userProfileTable db) (questionSetTable db)
    (questionTable db) (quizAttemptTable db) t (chatSessionTable db)
    (chatMessageTable db).

Definition with_chatSessionTable (t : list ChatSession.row) (db : Store) : Store :=
  mkStore (userTable db) (userProfileTable db) (questionSetTable db)
    (questionTable db) (quizAttemptTable db) (quizAnswerTable db) t
    (chatMessageTable db).

Definition with_chatMessageTable (t : list ChatMessage.row) (db : Store) : Store :=
  mkStore (userTable db) (userProfileTable db) (questionSetTable db)
    (questionTable db) (quizAttemptTable db) (quizAnswerTable db)
    (chatSessionTable db) t.

(** ** Statements

    A statement runs on the store and either throws ([None]) or returns a
    value and the store after it. *)

Definition Stmt (A : Type) : Type := Store -> option (A * Store).

Definition ret {A : Type} (a : A) : Stmt A := fun db => Some (a, db).

Definition bind {A B : Type} (m : Stmt A) (k : A -> Stmt B) : Stmt B :=
  fun db => match m db with
            | Some (a, db') => k a db'
            | None => None
            end.

Notation "x <- m ;; k" := (bind m (fun x => k))
  (at level 61, m at next level, right associativity).
Notation "m ;;; k" := (bind m (fun _ => k))
  (at level 61, right associativity).

(** [db.transaction(body)]: all of the body's writes, or none of them. *)
Definition transaction {A : Type} (body : Stmt A) (db : Store) : option A * Store :=
  match body db with
  | Some (a, db') => (Some a, db')
  | None => (None, db)
  end.

Definition mem (k : string) (keys : list string) : bool :=
  existsb (String.eqb k) keys.

(** [insert] on each table: the primary key must be new, unique columns
    must stay unique, and every reference must point at a row. *)

(** [password_hash] is declared [notNull()] and has no default: values
    that bring nothing for it are refused. *)
Definition insert_user (v : UserValues.t) : Stmt unit := fun db =>
  match UserValues.password_hash v with
  | None => None
  | Some hash =>
      if mem (UserValues.id v) (map User.id (userTable db)) then None
      else if mem (UserValues.username v) (map User.username (userTable db)) then None
      else Some (tt, with_userTable
                       (userTable db ++
                        [User.mk (UserValues.id v) (UserValues.username v) hash]) db)
  end.

Definition insert_userProfile (r : UserProfile.row) : Stmt unit := fun db =>
  if mem (UserProfile.id r) (map UserProfile.id (userProfileTable db)) then None
  else if negb (mem (UserProfile.userId r) (map User.id (userTable db))) then None
  else Some (tt, with_userProfileTable (userProfileTable db ++ [r]) db).

Definition insert_quizAttempt (r : QuizAttempt.row) : Stmt unit := fun db =>
  if mem (QuizAttempt.id r) (map QuizAttempt.id (quizAttemptTable db)) then None
  else if negb (mem (QuizAttempt.userId r) (map User.id (userTable db))) then None
  else if negb (mem (QuizAttempt.questionSetId r)
                  (map QuestionSet.id (questionSetTable db))) then None
  else Some (tt, with_quizAttemptTable (quizAttemptTable db ++ [r]) db).

Definition insert_quizAnswer (r : QuizAnswer.row) : Stmt unit := fun db =>
  if mem (QuizAnswer.id r) (map QuizAnswer.id (quizAnswerTable db)) then None
  else if negb (mem (QuizAnswer.quizAttemptId r)
                  (map QuizAttempt.id (quizAttemptTable db))) then None
  else if negb (mem (QuizAnswer.questionId r)
                  (map Question.id (questionTable db))) then None
  else Some (tt, with_quizAnswerTable (quizAnswerTable db ++ [r]) db).

Definition insert_chatSession (r : ChatSession.row) : Stmt unit := fun db =>
  if mem (ChatSession.id r) (map ChatSession.id (chatSessionTable db)) then None
  else if negb (mem (ChatSession.userId r) (map User.id (userTable db))) then None
  else Some (tt, with_chatSessionTable (chatSessionTable db ++ [r]) db).

Definition insert_chatMessage (r : ChatMessage.row) : Stmt unit := fun db =>
  if mem (ChatMessage.id r) (map ChatMessage.id (chatMessageTable db)) then None
  else if negb (mem (ChatMessage.chatSessionId r)
                  (map ChatSession.id (chatSessionTable db))) then None
  else Some (tt, with_chatMessageTable (chatMessageTable db ++ [r]) db).

Definition attempt_with_score (newScore : Z) (a : QuizAttempt.row) : QuizAttempt.row :=
  QuizAttempt.mk (QuizAttempt.id a) (QuizAttempt.userId a)
    (QuizAttempt.questionSetId a) newScore (QuizAttempt.totalQuestions a)
    (QuizAttempt.startedAt a) (QuizAttempt.completedAt a).

Definition attempt_with_completedAt (date : Z) (a : QuizAttempt.row) : QuizAttempt.row :=
  QuizAttempt.mk (QuizAttempt.id a) (QuizAttempt.userId a)
    (QuizAttempt.questionSetId a) (QuizAttempt.score a)
    (QuizAttempt.totalQuestions a) (QuizAttempt.startedAt a) (Some date).

(** [update(quizAttemptTable).set({ score }).where(eq(id, attemptId))] *)
Definition update_attempt_score (attemptId : string) (newScore : Z) : Stmt unit :=
  fun db =>
    Some (tt, with_quizAttemptTable
                (map (fun a =>
                        if String.eqb (QuizAttempt.id a) attemptId
                        then attempt_with_score newScore a
                        else a)
                     (quizAttemptTable db)) db).

(** [update(quizAttemptTable).set({ completedAt }).where(eq(id, attemptId))] *)
Definition update_attempt_completedAt (attemptId : string) (date : Z) : Stmt unit :=
  fun db =>
    Some (tt, with_quizAttemptTable
                (map (fun a =>
                        if String.eqb (QuizAttempt.id a) attemptId
                        then attempt_with_completedAt date a
                        else a)
                     (quizAttemptTable db)) db).

(** [update(userProfileTable).set({ totalQuizzesTaken, highestScore })
      .where(eq(userId, uid))] *)
Definition set_profile_totals (taken highest : Z) (p : UserProfile.row) : UserProfile.row :=
  UserProfile.mk (UserProfile.id p) (UserProfile.userId p)
    (UserProfile.createdAt p) (UserProfile.updatedAt p) taken highest.

Definition update_profile_totals (uid : string) (taken highest : Z) : Stmt unit :=
  fun db =>
    Some (tt, with_userProfileTable
                (map (fun p =>
                        if String.eqb (UserProfile.userId p) uid
                        then set_profile_totals taken highest p
                        else p)
                     (userProfileTable db)) db).

(** The [select ... where ... limit(1)] queries of the handlers: the first
    matching row, if any. *)

Definition select_questionSet (questionSetId : string) (db : Store)
  : option QuestionSet.row :=
  find (fun qs => String.eqb (QuestionSet.id qs) questionSetId) (questionSetTable db).

Definition select_questions_of_set (questionSetId : string) (db : Store)
  : list Question.row :=
  filter (fun q => String.eqb (Question.questionSetId q) questionSetId)
         (questionTable db).

Definition select_attempt (attemptId uid : string) (db : Store)
  : option QuizAttempt.row :=
  find (fun a => String.eqb (QuizAttempt.id a) attemptId
                 && String.eqb (QuizAttempt.userId a) uid)
       (quizAttemptTable db).

Definition select_question (questionId : string) (db : Store)
  : option Question.row :=
  find (fun q => String.eqb (Question.id q) questionId) (questionTable db).

Definition select_profile (uid : string) (db : Store) : option UserProfile.row :=
  find (fun p => String.eqb (UserProfile.userId p) uid) (userProfileTable db).

(** ** Responses *)

Inductive Response (A : Type) : Type :=
| Json (status : Z) (message : string) (data : A)
    (* c.json({ success: true, message, data }, status) *)
| HTTPException (status : Z) (message : string)
    (* throw new HTTPException(status, { message }) *)
| Uncaught.
    (* any other error leaving the handler; onError answers 500 *)

Arguments Json {A} status message data.
Arguments HTTPException {A} status message.
Arguments Uncaught {A}.

Definition http_status {A : Type} (r : Response A) : Z :=
  match r with
  | Json status _ _ => status
  | HTTPException status _ => status
  | Uncaught => 500
  end.

(** JavaScript's [n || 0] on a number. *)
Definition or0 (n : Z) : Z := if n =? 0 then 0 else n.

(** ** Quiz engine, [routes/quiz.ts] *)

Module StartData.
Record t : Type := mk { attemptId : string; totalQuestions : Z }.
End StartData.

(** [POST /quiz/:questionSetId/start].  [attemptId] is the identifier
    [randomUUIDv7()] returns, [now] the value of [new Date()]. *)
Definition startAttempt (user : AuthUser.t) (questionSetId : string)
    (attemptId : string) (now : Z) (db : Store) : Response StartData.t * Store :=
  match select_questionSet questionSetId db with
  | None => (HTTPException 404 "Question set not found", db)
  | Some _ =>
      let questions := select_questions_of_set questionSetId db in
      let totalQuestions := 10 in
      if (length questions =? 0)%nat
      then (HTTPException 404 "No questions found for this question set", db)
      else
        let newAttempt :=
          QuizAttempt.mk attemptId (AuthUser.id user) questionSetId 0
            totalQuestions now None in
        match insert_quizAttempt newAttempt db with
        | None => (Uncaught, db)
        | Some (_, db') =>
            (Json 200 "Quiz started successfully"
               (StartData.mk attemptId totalQuestions), db')
        end
  end.

Module AnswerData.
Record t : Type := mk { wasCorrect : bool; correctAnswer : string }.
End AnswerData.

(** The gate [question.type === 'single_selection' ||
    question.type === 'true_false']. *)
Definition scorable (type : string) : bool :=
  String.eqb type "single_selection" || String.eqb type "true_false".

(** [POST /quiz/attempt/:attemptId/answer].  [answerId] is the identifier
    [randomUUIDv7()] returns, [now] the value of [new Date()]. *)
Definition submitAnswer (user : AuthUser.t) (attemptId questionId userAnswer : string)
    (answerId : string) (now : Z) (db : Store) : Response AnswerData.t * Store :=
  match select_attempt attemptId (AuthUser.id user) db with
  | None =>
      (HTTPException 404 "Quiz attempt not found or does not belong to user", db)
  | Some quizAttempt =>
      match QuizAttempt.completedAt quizAttempt with
      | Some _ =>
          (HTTPException 403 "Quiz attempt has already been completed", db)
      | None =>
          match select_question questionId db with
          | None => (HTTPException 404 "Question not found", db)
          | Some question =>
              if negb (String.eqb (Question.questionSetId question)
                                  (QuizAttempt.questionSetId quizAttempt))
              then (HTTPException 403 "Question does not belong to this quiz set", db)
              else
                let isCorrect :=
                  if scorable (Question.type question)
                  then String.eqb userAnswer (Question.correctAnswer question)
                  else false in
                let newAnswer :=
                  QuizAnswer.mk answerId attemptId questionId userAnswer
                    isCorrect now in
                match transaction
                        (insert_quizAnswer newAnswer ;;;
                         if isCorrect
                         then update_attempt_score attemptId
                                (or0 (QuizAttempt.score quizAttempt) + 1)
                         else ret tt) db with
                | (None, db') => (Uncaught, db')
                | (Some _, db') =>
                    (Json 200 "Answer submitted successfully"
                       (AnswerData.mk isCorrect (Question.correctAnswer question)),
                     db')
                end
          end
      end
  end.

Module CompleteData.
Record t : Type := mk
  { attemptId : string;
    score : Z;
    totalQuestions : Z;
    startedAt : Z;
    completedAt : Z }.
End CompleteData.

(** The body of the transaction of [completeAttempt]: the write of
    [completedAt], then the profile aggregate.  [profileId] is the
    [randomUUIDv7()] of the insert branch, [dbNow] the column default
    [now()] of the row it inserts. *)
Definition recordCompletion (uid attemptId : string) (attemptScore : Z)
    (profileId : string) (now dbNow : Z) : Stmt Z :=
  update_attempt_completedAt attemptId now ;;;
  (fun db =>
     match select_profile uid db with
     | Some userProfile =>
         let newTotalQuizzesTaken :=
           or0 (UserProfile.totalQuizzesTaken userProfile) + 1 in
         let newHighestScore :=
           Z.max (or0 (UserProfile.highestScore userProfile)) (or0 attemptScore) in
         update_profile_totals uid newTotalQuizzesTaken newHighestScore db
     | None =>
         insert_userProfile
           (UserProfile.mk profileId uid dbNow dbNow 1 (or0 attemptScore)) db
     end) ;;;
  ret now.

(** [POST /quiz/attempt/:attemptId/complete]. *)
Definition completeAttempt (user : AuthUser.t) (attemptId : string)
    (profileId : string) (now dbNow : Z) (db : Store)
  : Response CompleteData.t * Store :=
  match select_attempt attemptId (AuthUser.id user) db with
  | None =>
      (HTTPException 404 "Quiz attempt not found or does not belong to user", db)
  | Some quizAttempt =>
      match QuizAttempt.completedAt quizAttempt with
      | Some _ =>
          (HTTPException 403 "Quiz attempt has already been completed", db)
      | None =>
          match transaction
                  (recordCompletion (AuthUser.id user) attemptId
                     (QuizAttempt.score quizAttempt) profileId now dbNow) db with
          | (None, db') => (Uncaught, db')
          | (Some completedAt, db') =>
              (Json 200 "Quiz completed successfully"
                 (CompleteData.mk (QuizAttempt.id quizAttempt)
                    (QuizAttempt.score quizAttempt)
                    (QuizAttempt.totalQuestions quizAttempt)
                    (QuizAttempt.startedAt quizAttempt) completedAt), db')
          end
      end
  end.

(** ** Quiz query service, [routes/quiz.ts] *)

(** [from(l).leftJoin(r, on)]: every row of [l] with each row of [r] it
    matches, or with nothing when it matches none. *)
Definition leftJoin {A B : Type} (on : A -> B -> bool) (l : list A) (r : list B)
  : list (A * option B) :=
  flat_map (fun a =>
              match filter (on a) r with
              | [] => [(a, None)]
              | matches => map (fun b => (a, Some b)) matches
              end) l.

(** [orderBy(key)], ascending; rows with equal keys keep their order. *)
Fixpoint insert_by {A : Type} (key : A -> Z) (x : A) (l : list A) : list A :=
  match l with
  | [] => [x]
  | y :: l' => if key x <=? key y then x :: l else y :: insert_by key x l'
  end.

Definition orderBy {A : Type} (key : A -> Z) (l : list A) : list A :=
  fold_right (insert_by key) [] l.

(** A JavaScript array is truthy, also when it is empty. *)
Definition truthy_array {A : Type} (l : list A) : bool := true.

Definition questionSet_summary (qs : QuestionSet.row) : JSON :=
  JObj [("id", JStr (QuestionSet.id qs));
        ("name", JStr (QuestionSet.name qs));
        ("level", JNum (QuestionSet.level qs));
        ("description", JOptStr (QuestionSet.description qs));
        ("createdAt", JDate (QuestionSet.createdAt qs))].

(** [GET /quiz/sets] *)
Definition listQuestionSets (db : Store) : Response JSON :=
  Json 200 "Successfully fetched question sets"
    (JArr (map questionSet_summary (questionSetTable db))).

(** A whole [question_set] row, as [select()] returns it. *)
Definition questionSet_row (qs : QuestionSet.row) : JSON :=
  JObj [("id", JStr (QuestionSet.id qs));
        ("name", JStr (QuestionSet.name qs));
        ("level", JNum (QuestionSet.level qs));
        ("description", JOptStr (QuestionSet.description qs));
        ("createdAt", JDate (QuestionSet.createdAt qs));
        ("updatedAt", JDate (QuestionSet.updatedAt qs))].

(** The columns [GET /quiz/sets/:questionSetId] selects of a question. *)
Definition question_columns (q : Question.row) : JSON :=
  JObj [("id", JStr (Question.id q));
        ("questionSetId", JStr (Question.questionSetId q));
        ("type", JStr (Question.type q));
        ("content", JStr (Question.content q));
        ("options", Question.options q);
        ("createdAt", JDate (Question.createdAt q))].

(** [GET /quiz/sets/:questionSetId] *)
Definition getQuestionSetDetail (questionSetId : string) (db : Store) : Response JSON :=
  match select_questionSet questionSetId db with
  | None => HTTPException 404 "Question set not found"
  | Some questionSet =>
      let questions :=
        map question_columns (select_questions_of_set questionSetId db) in
      Json 200 "Successfully fetched question set details"
        (JObj [("questionSet", questionSet_row questionSet);
               ("questions", JArr questions)])
  end.

Definition joined_set_name (qs : option QuestionSet.row) : JSON :=
  match qs with Some s => JStr (QuestionSet.name s) | None => JNull end.



Definition attempt_detail_columns (r : QuizAttempt.row * option QuestionSet.row) : JSON :=
  let (a, qs) := r in
  JObj [("id", JStr (QuizAttempt.id a));
        ("userId", JStr (QuizAttempt.userId a));
        ("questionSetId", JStr (QuizAttempt.questionSetId a));
        ("questionSetName", joined_set_name qs);
        ("score", JNum (QuizAttempt.score a));
        ("totalQuestions", JNum (QuizAttempt.totalQuestions a));
        ("startedAt", JDate (QuizAttempt.startedAt a));
        ("completedAt", JOptDate (QuizAttempt.completedAt a))].

(** The columns [GET /quiz/attempts/:attemptId] selects of an answer and
    the question joined to it; the question's columns are [null] when the
    join found none. *)
Definition answer_columns (r : QuizAnswer.row * option Question.row) : JSON :=
  let (ans, q) := r in
  JObj [("questionId", JStr (QuizAnswer.questionId ans));
        ("questionContent",
          match q with Some q => JStr (Question.content q) | None => JNull end);
        ("questionType",
          match q with Some q => JStr (Question.type q) | None => JNull end);
        ("questionOptions",
          match q with Some q => Question.options q | None => JNull end);
        ("userAnswer", JStr (QuizAnswer.userAnswer ans));
        ("isCorrect", JBool (QuizAnswer.isCorrect ans));
        ("correctAnswer",
          match q with Some q => JStr (Question.correctAnswer q) | None => JNull end);
        ("answeredAt", JDate (QuizAnswer.answeredAt ans))].

(** The answers of an attempt joined with their questions. *)
Definition select_answers_of_attempt (attemptId : string) (db : Store)
  : list (QuizAnswer.row * option Question.row) :=
  filter (fun r => String.eqb (QuizAnswer.quizAttemptId (fst r)) attemptId)
         (leftJoin (fun ans q => String.eqb (QuizAnswer.questionId ans) (Question.id q))
                   (quizAnswerTable db) (questionTable db)).

(** The properties an array spread into an object literal contributes:
    its elements under their indices. *)
Fixpoint spread_array_from (i : nat) (items : list JSON) : list (string * JSON) :=
  match items with
  | [] => []
  | x :: rest =>
      (NilEmpty.string_of_uint (Nat.to_uint i), x) :: spread_array_from (S i) rest
  end.

(** [GET /quiz/attempts/:attemptId].  The handler keeps the array the
    query returns ([const quizAttempt = await db.select(...)....limit(1)],
    without destructuring), tests that array, and spreads it into the
    response. *)
Definition getAttemptDetail (user : AuthUser.t) (attemptId : string) (db : Store)
  : Response JSON :=
  let quizAttempt :=
    firstn 1
      (filter (fun r => String.eqb (QuizAttempt.id (fst r)) attemptId
                        && String.eqb (QuizAttempt.userId (fst r)) (AuthUser.id user))
              (leftJoin (fun a qs => String.eqb (QuizAttempt.questionSetId a)
                                                (QuestionSet.id qs))
                        (quizAttemptTable db) (questionSetTable db))) in
  if negb (truthy_array quizAttempt)
  then HTTPException 404 "Quiz attempt not found or access denied"
  else
    let answers := map answer_columns (select_answers_of_attempt attemptId db) in
    Json 200 "Successfully fetched quiz attempt details"
      (JObj (spread_array_from 0 (map attempt_detail_columns quizAttempt)
             ++ [("answers", JArr answers)])).

(** ** Accounts, [routes/auth.ts] *)

(** [POST /auth/signup].  [passwordHash] is what [Bun.password.hash]
    returned, [userId] and [profileId] the two [generateId(15)],
    [dbNow] the column default [now()] of the profile row, and [session]
    the session [lucia.createSession] issued ([None] when it throws).
    The handler inserts [{ id: userId, username, passwordHash }]: the
    hash travels under a name that is not a column of [userTable], so
    the values carry nothing for [password_hash]. *)
Definition signup (username passwordHash : string) (userId profileId : string)
    (dbNow : Z) (session : option string) (db : Store) : Response unit * Store :=
  match transaction
          (insert_user (UserValues.mk userId username None) ;;;
           insert_userProfile (UserProfile.mk profileId userId dbNow dbNow 0 0))
          db with
  | (None, db') => (HTTPException 500 "Failed to create user", db')
  | (Some _, db') =>
      match session with
      | None => (HTTPException 500 "Failed to create user", db')
      | Some _ => (Json 201 "User created" tt, db')
      end
  end.

(** [GET /auth/user] *)
Definition getUser (user : AuthUser.t) (db : Store) : Response JSON :=
  match select_profile (AuthUser.id user) db with
  | None => HTTPException 404 "User not found"
  | Some p =>
      Json 200 "User fetched"
        (JObj [("username", JStr (AuthUser.username user));
               ("profile",
                 JObj [("createdAt", JDate (UserProfile.createdAt p));
                       ("updatedAt", JDate (UserProfile.updatedAt p));
                       ("totalQuizzesTaken", JNum (UserProfile.totalQuizzesTaken p));
                       ("highestScore", JNum (UserProfile.highestScore p))])])
  end.

(** ** Chat history service, [routes/chat.ts] *)

(** The provider's answer, [OpenAiChatCompletions]: the fields the
    handler reads. *)
Module ChatChoice.
Record t : Type := mk
  { index : Z; message_role : string; message_content : JSON;
    finish_reason : string }.
End ChatChoice.

Module OpenAiChatCompletions.
Record t : Type := mk
  { id : string; created : Z; model : string; choices : list ChatChoice.t }.
End OpenAiChatCompletions.

(** The validated form of [POST /chat/completions], [chatMessageSchema]. *)
Module ChatMessageForm.
Record t : Type := mk { role : string; content : string }.
End ChatMessageForm.

(** [Array.prototype.join()] on an array of objects: each element is
    converted with [toString], which is ["[object Object]"] for a plain
    object, and the pieces are separated by commas. *)
Definition join_messages (choices : list ChatChoice.t) : string :=
  String.concat "," (map (fun _ : ChatChoice.t => "[object Object]") choices).

(** [POST /chat/completions].  [serverReceivedTimestamp] is the
    [new Date()] taken on entry, [res] what
    [requestOpenAiChatCompletionsApi] resolved to ([None] when it
    throws), [userMessageId] and [llmMessageId] the two
    [randomUUIDv7()]. *)
Definition postCompletion (user : AuthUser.t) (message : ChatMessageForm.t)
    (serverReceivedTimestamp : Z) (res : option OpenAiChatCompletions.t)
    (userMessageId llmMessageId : string) (db : Store)
  : Response ChatMessageForm.t * Store :=
  let failed : Response ChatMessageForm.t :=
    HTTPException 500
      "An unexpected error occurred while processing your request." in
  match res with
  | None => (failed, db)
  | Some res =>
      let chatSession :=
        ChatSession.mk (OpenAiChatCompletions.id res) (AuthUser.id user)
          (OpenAiChatCompletions.created res * 1000) in
      let chatMessageFromUser :=
        ChatMessage.mk userMessageId (OpenAiChatCompletions.id res)
          (ChatMessageForm.role message) (ChatMessageForm.content message)
          serverReceivedTimestamp in
      let completions := join_messages (OpenAiChatCompletions.choices res) in
      let chatMessageFromLlm :=
        ChatMessage.mk llmMessageId (OpenAiChatCompletions.id res)
          "assistant" completions (OpenAiChatCompletions.created res * 1000) in
      match transaction
              (insert_chatSession chatSession ;;;
               insert_chatMessage chatMessageFromUser ;;;
               insert_chatMessage chatMessageFromLlm) db with
      | (None, db') => (failed, db')
      | (Some _, db') =>
          (Json 200 "Successfully generate chat completions"
             (ChatMessageForm.mk "assistant" completions), db')
      end
  end.

Module ChatHistory.
Record t : Type := mk
  { id : string; role : string; content : string; createdAt : Z }.
End ChatHistory.

Definition history_item (item : ChatMessage.row) : ChatHistory.t :=
  ChatHistory.mk (ChatMessage.chatSessionId item) (ChatMessage.role item)
    (ChatMessage.content item) (ChatMessage.createdAt item).

(** The messages of the user's sessions, ordered by creation time. *)
Definition select_messages_of (sessionIds : list string) (db : Store)
  : list ChatMessage.row :=
  orderBy ChatMessage.createdAt
    (filter (fun m => mem (ChatMessage.chatSessionId m) sessionIds)
            (chatMessageTable db)).

(** [GET /chat/history] *)
Definition getHistory (user : AuthUser.t) (db : Store) : Response (list ChatHistory.t) :=
  let sessionIds :=
    filter (fun s => String.eqb (ChatSession.userId s) (AuthUser.id user))
           (chatSessionTable db) in
  if (length sessionIds =? 0)%nat
  then Json 200 "Successfully fetch chat history" []
  else
    let uniqueSessionIds := map ChatSession.id sessionIds in
    let messages := select_messages_of uniqueSessionIds db in
    Json 200 "Successfully fetch chat history" (map history_item messages).

(** ** Requests

    The requests the server answers on the modelled tables, each with the
    values the runtime draws for it, and the store a request leaves
    behind.  The four [GET] routes of the quiz, [GET /auth/user] and
    [GET /chat/history] only read. *)

Inductive Request : Type :=
| Signup (username passwordHash userId profileId : string) (dbNow : Z)
    (session : option string)
| GetUser (user : AuthUser.t)
| StartAttempt (user : AuthUser.t) (questionSetId attemptId : string) (now : Z)
| SubmitAnswer (user : AuthUser.t) (attemptId questionId userAnswer answerId : string)
    (now : Z)
| CompleteAttempt (user : AuthUser.t) (attemptId profileId : string) (now dbNow : Z)
| ListQuestionSets
| GetQuestionSetDetail (questionSetId : string)
| ListMyAttempts (user : AuthUser.t)
| GetAttemptDetail (user : AuthUser.t) (attemptId : string)
| PostCompletion (user : AuthUser.t) (message : ChatMessageForm.t)
    (serverReceivedTimestamp : Z) (res : option OpenAiChatCompletions.t)
    (userMessageId llmMessageId : string)
| GetHistory (user : AuthUser.t).

Definition serve (req : Request) (db : Store) : Store :=
  match req with
  | Signup username passwordHash userId profileId dbNow session =>
      snd (signup username passwordHash userId profileId dbNow session db)
  | StartAttempt user questionSetId attemptId now =>
      snd (startAttempt user questionSetId attemptId now db)
  | SubmitAnswer user attemptId questionId userAnswer answerId now =>
      snd (submitAnswer user attemptId questionId userAnswer answerId now db)
  | CompleteAttempt user attemptId profileId now dbNow =>
      snd (completeAttempt user attemptId profileId now dbNow db)
  | PostCompletion user message ts res userMessageId llmMessageId =>
      snd (postCompletion user message ts res userMessageId llmMessageId db)
  | GetUser _ | ListQuestionSets | GetQuestionSetDetail _ | ListMyAttempts _
  | GetAttemptDetail _ _ | GetHistory _ => db
  end.

Fixpoint run (reqs : list Request) (db : Store) : Store :=
  match reqs with
  | [] => db
  | req :: rest => run rest (serve req db)
  end.


(** The score a request reports when it is a successful completion by
    user [uid]. *)
Definition completion_score (uid : string) (req : Request) (db : Store) : option Z :=
  match req with
  | CompleteAttempt user attemptId profileId now dbNow =>
      if String.eqb (AuthUser.id user) uid
      then match fst (completeAttempt user attemptId profileId now dbNow db) with
           | Json _ _ data => Some (CompleteData.score data)
           | _ => None
           end
      else None
  | _ => None
  end.

(** The scores of the attempts user [uid] completes along a run, in the
    order of completion. *)
Fixpoint completed_scores (uid : string) (reqs : list Request) (db : Store) : list Z :=
  match reqs with
  | [] => []
  | req :: rest =>
      match completion_score uid req db with
      | Some s => s :: completed_scores uid rest (serve req db)
      | None => completed_scores uid rest (serve req db)
      end
  end.

(** The largest element of a list that is not empty. *)
Definition maximum (l : list Z) : Z :=
  match l with
  | [] => 0
  | x :: rest => fold_left Z.max rest x
  end.

(** Submitting the same answer to the same question once per drawn
    identifier and date. *)
Fixpoint submitAnswers (user : AuthUser.t) (attemptId questionId userAnswer : string)
    (draws : list (string * Z)) (db : Store)
  : list (Response AnswerData.t) * Store :=
  match draws with
  | [] => ([], db)
  | (answerId, now) :: rest =>
      let (r, db1) := submitAnswer user attemptId questionId userAnswer answerId now db in
      let (rs, db2) := submitAnswers user attemptId questionId userAnswer rest db1 in
      (r :: rs, db2)
  end.

(** The verdict of the handler on an answer to a question. *)
Definition verdict (q : Question.row) (userAnswer : string) : bool :=
  scorable (Question.type q) && String.eqb userAnswer (Question.correctAnswer q).

(** The row an accepted submission inserts, and the store it leaves
    behind, for an attempt whose score was [score]. *)
Definition answer_row (q : Question.row) (attemptId questionId userAnswer answerId : string)
    (now : Z) : QuizAnswer.row :=
  QuizAnswer.mk answerId attemptId questionId userAnswer (verdict q userAnswer) now.

Definition after_submission (q : Question.row) (score : Z)
    (attemptId questionId userAnswer answerId : string) (now : Z) (db : Store) : Store :=
  let recorded :=
    with_quizAnswerTable
      (quizAnswerTable db ++ [answer_row q attemptId questionId userAnswer answerId now])
      db in
  if verdict q userAnswer
  then with_quizAttemptTable
         (map (fun r => if String.eqb (QuizAttempt.id r) attemptId
                        then attempt_with_score (score + 1) r
                        else r)
              (quizAttemptTable db)) recorded
  else recorded.

(** ** The preconditions of [submitAnswer], as the specification orders them

    The four ways the specification lets a submission fail, the response
    it gives to each, and when each applies: every precondition is
    examined only once the ones before it hold. *)

Inductive Rejection : Type :=
| AttemptNotFound
| AttemptCompleted
| QuestionNotFound
| QuestionOfOtherSet.

Definition rejection_status (r : Rejection) : Z :=
  match r with
  | AttemptNotFound => 404
  | AttemptCompleted => 403
  | QuestionNotFound => 404
  | QuestionOfOtherSet => 403
  end.

Definition rejection_message (r : Rejection) : string :=
  match r with
  | AttemptNotFound => "Quiz attempt not found or does not belong to user"
  | AttemptCompleted => "Quiz attempt has already been completed"
  | QuestionNotFound => "Question not found"
  | QuestionOfOtherSet => "Question does not belong to this quiz set"
  end.

Inductive rejected (uid attemptId questionId : string) (db : Store)
  : Rejection -> Prop :=
| rejected_attempt :
    (forall a, In a (quizAttemptTable db) ->
               QuizAttempt.id a = attemptId -> QuizAttempt.userId a <> uid) ->
    rejected uid attemptId questionId db AttemptNotFound
| rejected_completed (a : QuizAttempt.row) (date : Z) :
    select_attempt attemptId uid db = Some a ->
    QuizAttempt.completedAt a = Some date ->
    rejected uid attemptId questionId db AttemptCompleted
| rejected_question (a : QuizAttempt.row) :
    select_attempt attemptId uid db = Some a ->
    QuizAttempt.completedAt a = None ->
    (forall q, In q (questionTable db) -> Question.id q <> questionId) ->
    rejected uid attemptId questionId db QuestionNotFound
| rejected_set (a : QuizAttempt.row) (q : Question.row) :
    select_attempt attemptId uid db = Some a ->
    QuizAttempt.completedAt a = None ->
    select_question questionId db = Some q ->
    Question.questionSetId q <> QuizAttempt.questionSetId a ->
    rejected uid attemptId questionId db QuestionOfOtherSet.

(** Whether a response is a success envelope. *)
Definition succeeded {A : Type} (r : Response A) : bool :=
  match r with Json _ _ _ => true | _ => false end.

(** ** The effect of a completion, table by table *)

(** The attempts after [completedAt] is written on attempt [attemptId]. *)
Definition completed_attempts (attemptId : string) (now : Z) (db : Store) : Store :=
  with_quizAttemptTable
    (map (fun r => if String.eqb (QuizAttempt.id r) attemptId
                   then attempt_with_completedAt now r
                   else r)
         (quizAttemptTable db)) db.

(** The profiles after the rows of user [uid] receive the totals
    computed from row [p] and score [score]. *)
Definition aggregated_profiles (uid : string) (p : UserProfile.row) (score : Z)
    (rows : list UserProfile.row) : list UserProfile.row :=
  map (fun r => if String.eqb (UserProfile.userId r) uid
                then set_profile_totals (UserProfile.totalQuizzesTaken p + 1)
                       (Z.max (UserProfile.highestScore p) score) r
                else r) rows.

(** The two aggregates of the profile of user [uid], when there is one. *)
Definition profile_totals (uid : string) (db : Store) : option (Z * Z) :=
  match select_profile uid db with
  | Some p => Some (UserProfile.totalQuizzesTaken p, UserProfile.highestScore p)
  | None => None
  end.

(** No attempt has a negative score. *)
Definition scores_nonneg (db : Store) : Prop :=
  Forall (fun a => 0 <= QuizAttempt.score a) (quizAttemptTable db).

(** Identifiers no row uses yet: a string longer than every one of
    [used], and [n] such strings, pairwise distinct. *)
Definition fresh_id (used : list string) : string :=
  fold_right String.append "x" used.

Fixpoint fresh_ids (n : nat) (used : list string) : list string :=
  match n with
  | O => []
  | S n' => let i := fresh_id used in i :: fresh_ids n' (i :: used)
  end.

(** ** Logging in, [routes/auth.ts] *)

Definition select_user_by_name (username : string) (db : Store) : option User.row :=
  find (fun u => String.eqb (User.username u) username) (userTable db).

(** The property [passwordHash] of a row read from [userTable]: the rows
    carry their hash under [password_hash], so this property is
    [undefined]. *)
Definition row_passwordHash (existingUser : User.row) : option string := None.

(** [Bun.password.verify(password, hash)] with [check] the comparison it
    makes on two strings: it throws ([None]) when [hash] is not a
    string. *)
Definition password_verify (check : string -> string -> bool) (password : string)
    (hash : option string) : option bool :=
  match hash with
  | None => None
  | Some h => Some (check password h)
  end.

(** [POST /auth/login].  [check] is the comparison of
    [Bun.password.verify] and [createSession] is [lucia.createSession]
    on a user identifier ([None] when it throws).  The handler has no
    [catch]: what throws leaves it uncaught.  The answer comes with the
    session the [Set-Cookie] header carries, if any. *)
Definition login (username password : string) (check : string -> string -> bool)
    (createSession : string -> option string) (db : Store)
  : Response unit * option string :=
  match select_user_by_name username db with
  | None => (HTTPException 401 "Invalid username or password", None)
  | Some existingUser =>
      match password_verify check password (row_passwordHash existingUser) with
      | None => (Uncaught, None)
      | Some validPassword =>
          if negb validPassword
          then (HTTPException 401 "Invalid username or password", None)
          else
            match createSession (User.id existingUser) with
            | None => (Uncaught, None)
            | Some session => (Json 200 "Logged in" tt, Some session)
            end
      end
  end.

(** ** The earlier revision of [getHistory]

    The earlier revision of [routes/chat.ts] reads the messages session
    by session and flattens the result, without ordering it. *)
Definition earlier_getHistory (user : AuthUser.t) (db : Store)
  : Response (list ChatHistory.t) :=
  let sessionIdList :=
    filter (fun s => String.eqb (ChatSession.userId s) (AuthUser.id user))
           (chatSessionTable db) in
  let history :=
    map (fun s =>
           filter (fun m => String.eqb (ChatMessage.chatSessionId m) (ChatSession.id s))
                  (chatMessageTable db))
        sessionIdList in
  Json 200 "Successfully fetch chat history" (map history_item (concat history)).

(** ** What the schema declares, as predicates on a store *)

(** Primary keys and the unique user name. *)
Definition keys_unique (db : Store) : Prop :=
  NoDup (map User.id (userTable db)) /\
  NoDup (map User.username (userTable db)) /\
  NoDup (map UserProfile.id (userProfileTable db)) /\
  NoDup (map QuestionSet.id (questionSetTable db)) /\
  NoDup (map Question.id (questionTable db)) /\
  NoDup (map QuizAttempt.id (quizAttemptTable db)) /\
  NoDup (map QuizAnswer.id (quizAnswerTable db)) /\
  NoDup (map ChatSession.id (chatSessionTable db)) /\
  NoDup (map ChatMessage.id (chatMessageTable db)).

(** The [references] of the schema. *)
Definition references_hold (db : Store) : Prop :=
  incl (map UserProfile.userId (userProfileTable db)) (map User.id (userTable db)) /\
  incl (map Question.questionSetId (questionTable db))
       (map QuestionSet.id (questionSetTable db)) /\
  incl (map QuizAttempt.userId (quizAttemptTable db)) (map User.id (userTable db)) /\
  incl (map QuizAttempt.questionSetId (quizAttemptTable db))
       (map QuestionSet.id (questionSetTable db)) /\
  incl (map QuizAnswer.quizAttemptId (quizAnswerTable db))
       (map QuizAttempt.id (quizAttemptTable db)) /\
  incl (map QuizAnswer.questionId (quizAnswerTable db))
       (map Question.id (questionTable db)) /\
  incl (map ChatSession.userId (chatSessionTable db)) (map User.id (userTable db)) /\
  incl (map ChatMessage.chatSessionId (chatMessageTable db))
       (map ChatSession.id (chatSessionTable db)).

Definition store_ok (db : Store) : Prop := keys_unique db /\ references_hold db.

(** No user has two profile rows. *)
Definition one_profile_per_user (db : Store) : Prop :=
  NoDup (map UserProfile.userId (userProfileTable db)).

(** The number of answer rows of attempt [attemptId] marked correct. *)
Definition count_correct (attemptId : string) (answers : list QuizAnswer.row) : Z :=
  Z.of_nat
    (length (filter (fun r => String.eqb (QuizAnswer.quizAttemptId r) attemptId
                              && QuizAnswer.isCorrect r) answers)).

(** Every attempt's score is the number of its answers marked correct. *)
Definition scores_count_correct (db : Store) : Prop :=
  Forall (fun a => QuizAttempt.score a =
                   count_correct (QuizAttempt.id a) (quizAnswerTable db))
         (quizAttemptTable db).

(** Every answer row is an answer, within some attempt, to a question of
    that attempt's set, and carries the verdict on its text. *)
Definition answer_in_set (db : Store) (r : QuizAnswer.row) : Prop :=
  exists a q,
    In a (quizAttemptTable db) /\ In q (questionTable db) /\
    QuizAttempt.id a = QuizAnswer.quizAttemptId r /\
    Question.id q = QuizAnswer.questionId r /\
    Question.questionSetId q = QuizAttempt.questionSetId a /\
    QuizAnswer.isCorrect r = verdict q (QuizAnswer.userAnswer r).

Definition answers_within_sets (db : Store) : Prop :=
  Forall (answer_in_set db) (quizAnswerTable db).

(** How a request may change an attempt row: nothing but a higher score
    and the completion date, and nothing at all once it is completed. *)
Definition attempt_evolves (a a' : QuizAttempt.row) : Prop :=
  QuizAttempt.id a' = QuizAttempt.id a /\
  QuizAttempt.userId a' = QuizAttempt.userId a /\
  QuizAttempt.questionSetId a' = QuizAttempt.questionSetId a /\
  QuizAttempt.totalQuestions a' = QuizAttempt.totalQuestions a /\
  QuizAttempt.startedAt a' = QuizAttempt.startedAt a /\
  QuizAttempt.score a <= QuizAttempt.score a' /\
  (QuizAttempt.completedAt a <> None -> a' = a).

(** [l'] is [l] followed by at most [n] further rows. *)
Definition grows_by_at_most {A : Type} (n : nat) (l l' : list A) : Prop :=
  exists added, l' = (l ++ added)%list /\ (length added <= n)%nat.

(** The items of a response body, [[]] for an error. *)
Definition items_of {A : Type} (r : Response (list A)) : list A :=
  match r with
  | Json _ _ data => data
  | _ => []
  end.

(** The elements of a JSON array, [[]] for any other value. *)
Definition elements (v : JSON) : list JSON :=
  match v with
  | JArr items => items
  | _ => []
  end.

(** The body of a JSON response, [JNull] for an error. *)
Definition body_of (r : Response JSON) : JSON :=
  match r with
  | Json _ _ data => data
  | _ => JNull
  end.

(** Ascending order of a list of dates. *)
Fixpoint ascending (l : list Z) : Prop :=
  match l with
  | [] => True
  | x :: rest => Forall (fun y => x <= y) rest /\ ascending rest
  end.

(** ** Sequences of submissions, and rows seen through their columns *)

(** Submissions to one question of one attempt, one after the other,
    each with its text, the identifier drawn for it and its date. *)
Fixpoint submitSequence (user : AuthUser.t) (attemptId questionId : string)
    (submissions : list (string * string * Z)) (db : Store)
  : list (Response AnswerData.t) * Store :=
  match submissions with
  | [] => ([], db)
  | (userAnswer, answerId, now) :: rest =>
      let (r, db1) := submitAnswer user attemptId questionId userAnswer answerId now db in
      let (rs, db2) := submitSequence user attemptId questionId rest db1 in
      (r :: rs, db2)
  end.

(** Attempt [attemptId] of user [uid] stands in [db'] as row [a] with the
    completion date [now] and nothing else changed. *)
Definition completed_in (uid attemptId : string) (now : Z) (a : QuizAttempt.row)
    (db' : Store) : Prop :=
  exists a',
    select_attempt attemptId uid db' = Some a' /\
    QuizAttempt.completedAt a' = Some now /\
    QuizAttempt.score a' = QuizAttempt.score a /\
    QuizAttempt.id a' = QuizAttempt.id a /\
    QuizAttempt.userId a' = QuizAttempt.userId a /\
    QuizAttempt.questionSetId a' = QuizAttempt.questionSetId a /\
    QuizAttempt.totalQuestions a' = QuizAttempt.totalQuestions a /\
    QuizAttempt.startedAt a' = QuizAttempt.startedAt a.


(** ** A seeded store

    The fixture of the repository's tests: two users, the set
    "Math Basics" with its two questions, and a second set with one
    question. *)
Module Fixture.

Definition quizuser : AuthUser.t := AuthUser.mk "u1" "quizuser".
Definition otheruser : AuthUser.t := AuthUser.mk "u2" "otheruser".

Definition question1 : Question.row :=
  Question.mk "q1" "set1" "true_false" "2 + 2 = 4?" JNull "true" 10.
Definition question2 : Question.row :=
  Question.mk "q2" "set1" "single_selection" "What is 10 / 2?"
    (JArr [JStr "2"; JStr "5"; JStr "8"; JStr "10"]) "5" 11.
Definition question3 : Question.row :=
  Question.mk "q3" "set2" "true_false" "1 + 1 = 3?" JNull "false" 12.

Definition seeded : Store :=
  mkStore
    [User.mk "u1" "quizuser" "hashedpasswordquiz";
     User.mk "u2" "otheruser" "hashedpasswordquiz"]
    []
    [QuestionSet.mk "set1" "Math Basics" 0 (Some "Basic arithmetic questions") 1 1;
     QuestionSet.mk "set2" "Set 2" 0 (Some "Another set") 2 2]
    [question1; question2; question3]
    [] [] [] [].

(** [quizuser] has started a quiz on "Math Basics". *)
Definition started : Store :=
  snd (startAttempt quizuser "set1" "a1" 100 seeded).

(** ... and has answered its first question correctly. *)
Definition answered : Store :=
  snd (submitAnswer quizuser "a1" "q1" "true" "ans1" 110 started).

(** ... and has completed the attempt. *)
Definition completed : Store :=
  snd (completeAttempt quizuser "a1" "p1" 120 120 answered).

(** The run of the profile test: a first quiz with one correct answer,
    then a second one with two. *)
Definition two_quizzes : list Request :=
  [StartAttempt quizuser "set1" "a1" 100;
   SubmitAnswer quizuser "a1" "q1" "true" "ans1" 110;
   CompleteAttempt quizuser "a1" "p1" 120 120;
   StartAttempt quizuser "set1" "a2" 200;
   SubmitAnswer quizuser "a2" "q1" "true" "ans2" 210;
   SubmitAnswer quizuser "a2" "q2" "5" "ans3" 220;
   CompleteAttempt quizuser "a2" "p2" 230 230].

Definition llmResponse : OpenAiChatCompletions.t :=
  OpenAiChatCompletions.mk "llm-session-1" 1700000000 "model"
    [ChatChoice.mk 0 "assistant" (JStr "This is the LLM response.") "stop"].

End Fixture.

(** The authenticated user on whose behalf a request runs, if any. *)
Definition requester (req : Request) : option string :=
  match req with
  | GetUser user
  | StartAttempt user _ _ _
  | SubmitAnswer user _ _ _ _ _
  | CompleteAttempt user _ _ _ _
  | ListMyAttempts user
  | GetAttemptDetail user _
  | PostCompletion user _ _ _ _ _
  | GetHistory user => Some (AuthUser.id user)
  | Signup _ _ _ _ _ _ | ListQuestionSets | GetQuestionSetDetail _ => None
  end.

(** ** Further scenarios on the seeded store *)
Module Scenario.

(** [quizuser] has had two chat exchanges, [otheruser] one in between. *)
Definition chats : list Request :=
  [PostCompletion Fixture.quizuser (ChatMessageForm.mk "user" "Tell me a joke")
     1700000060123 (Some Fixture.llmResponse) "m1" "m2";
   PostCompletion Fixture.otheruser (ChatMessageForm.mk "user" "Hello")
     1700000070000
     (Some (OpenAiChatCompletions.mk "llm-session-2" 1700000065 "model"
              [ChatChoice.mk 0 "assistant" (JStr "Hi there") "stop"]))
     "m3" "m4";
   PostCompletion Fixture.quizuser (ChatMessageForm.mk "user" "Another one")
     1700000080000
     (Some (OpenAiChatCompletions.mk "llm-session-3" 1700000050 "model"
              [ChatChoice.mk 0 "assistant" (JStr "No") "stop"]))
     "m5" "m6"].

Definition chatted : Store := run chats Fixture.seeded.

(** Both users have started a quiz on "Math Basics". *)
Definition two_attempts : Store :=
  run [StartAttempt Fixture.otheruser "set1" "b1" 90;
       StartAttempt Fixture.quizuser "set1" "a1" 100;
       StartAttempt Fixture.quizuser "set2" "a2" 95]
      Fixture.seeded.

(** A question of the set "Math Basics" of a type the scoring rule does
    not know, and the store in which [quizuser] has started a quiz on
    that set. *)
Definition essay : Question.row :=
  Question.mk "q4" "set1" "multiple_selection" "Which of these are even?"
    (JArr [JStr "1"; JStr "2"; JStr "4"]) "2,4" 13.

Definition with_essay : Store :=
  mkStore (userTable Fixture.started) (userProfileTable Fixture.started)
    (questionSetTable Fixture.started) (questionTable Fixture.started ++ [essay])
    (quizAttemptTable Fixture.started) (quizAnswerTable Fixture.started)
    (chatSessionTable Fixture.started) (chatMessageTable Fixture.started).

End Scenario.

(** * Properties *)

(** ** Generalities on lists, strings and queries *)

Lemma mem_In (k : string) (keys : list string) :
  mem k keys = true <-> In k keys.
Proof.
  unfold mem. rewrite existsb_exists. split.
  - intros (x & Hin & Hx). apply String.eqb_eq in Hx. now subst.
  - intros Hin. exists k. split; [assumption | apply String.eqb_refl].
Qed.

Lemma mem_not_In (k : string) (keys : list string) :
  mem k keys = false <-> ~ In k keys.
Proof.
  rewrite <- mem_In. destruct (mem k keys); split; congruence.
Qed.

Lemma or0_id (n : Z) : or0 n = n.
Proof.
  unfold or0. destruct (Z.eqb_spec n 0); congruence.
Qed.

Lemma find_map_stable {A : Type} (p : A -> bool) (f : A -> A) (l : list A) :
  (forall x, p (f x) = p x) ->
  find p (map f l) = option_map f (find p l).
Proof.
  intros Hp. induction l as [|x l IH]; simpl; [reflexivity|].
  rewrite Hp. destruct (p x); [reflexivity | exact IH].
Qed.

Lemma find_app_some {A : Type} (p : A -> bool) (l l' : list A) (x : A) :
  find p l = Some x -> find p (l ++ l') = Some x.
Proof.
  induction l as [|y l IH]; simpl; [discriminate|].
  destruct (p y); [trivial | exact IH].
Qed.

Lemma find_app_none {A : Type} (p : A -> bool) (l l' : list A) :
  find p l = None -> find p (l ++ l') = find p l'.
Proof.
  induction l as [|y l IH]; simpl; [reflexivity|].
  destruct (p y); [discriminate | exact IH].
Qed.

Lemma find_none_iff {A : Type} (p : A -> bool) (l : list A) :
  find p l = None <-> forall x, In x l -> p x = false.
Proof.
  split; [apply find_none|].
  induction l as [|y l IH]; simpl; intros H; [reflexivity|].
  rewrite (H y (or_introl eq_refl)). apply IH. intros x Hx. apply H. now right.
Qed.

Lemma string_length_append (s t : string) :
  String.length (s ++ t) = (String.length s + String.length t)%nat.
Proof.
  induction s as [|c s IH]; simpl; [reflexivity | now rewrite IH].
Qed.

Lemma fresh_id_longer (used : list string) (s : string) :
  In s used -> (String.length s < String.length (fresh_id used))%nat.
Proof.
  unfold fresh_id. induction used as [|u used IH]; simpl; [contradiction|].
  intros [-> | Hin]; rewrite string_length_append.
  - clear IH. induction used as [|v used IHu]; simpl; [lia|].
    rewrite string_length_append. lia.
  - specialize (IH Hin). lia.
Qed.

Lemma fresh_id_fresh (used : list string) : ~ In (fresh_id used) used.
Proof.
  intros Hin. apply fresh_id_longer in Hin. lia.
Qed.

Lemma fresh_ids_length (n : nat) (used : list string) :
  length (fresh_ids n used) = n.
Proof.
  revert used. induction n as [|n IH]; intros used; simpl; [reflexivity|].
  now rewrite IH.
Qed.

Lemma fresh_ids_fresh (n : nat) (used : list string) (i : string) :
  In i (fresh_ids n used) -> ~ In i used.
Proof.
  revert used. induction n as [|n IH]; intros used; simpl; [contradiction|].
  intros [<- | Hin]; [apply fresh_id_fresh|].
  intros Hused. apply (IH _ Hin). now right.
Qed.

Lemma fresh_ids_NoDup (n : nat) (used : list string) : NoDup (fresh_ids n used).
Proof.
  revert used. induction n as [|n IH]; intros used; simpl; constructor.
  - intros Hin. apply fresh_ids_fresh in Hin. apply Hin. now left.
  - apply IH.
Qed.

Lemma select_questionSet_mem (questionSetId : string) (db : Store) (qs : QuestionSet.row) :
  select_questionSet questionSetId db = Some qs ->
  mem questionSetId (map QuestionSet.id (questionSetTable db)) = true.
Proof.
  unfold select_questionSet. intros H. apply find_some in H as [Hin Heq].
  apply String.eqb_eq in Heq. subst. apply mem_In. now apply in_map.
Qed.

Lemma select_attempt_mem (attemptId uid : string) (db : Store) (a : QuizAttempt.row) :
  select_attempt attemptId uid db = Some a ->
  QuizAttempt.id a = attemptId /\ QuizAttempt.userId a = uid /\
  mem attemptId (map QuizAttempt.id (quizAttemptTable db)) = true.
Proof.
  unfold select_attempt. intros H. apply find_some in H as [Hin Heq].
  apply andb_true_iff in Heq as [H1 H2].
  apply String.eqb_eq in H1, H2. subst. repeat split.
  apply mem_In. now apply in_map.
Qed.

Lemma select_question_mem (questionId : string) (db : Store) (q : Question.row) :
  select_question questionId db = Some q ->
  Question.id q = questionId /\
  mem questionId (map Question.id (questionTable db)) = true.
Proof.
  unfold select_question. intros H. apply find_some in H as [Hin Heq].
  apply String.eqb_eq in Heq. subst. split; [reflexivity|].
  apply mem_In. now apply in_map.
Qed.

(** ** Starting an attempt *)

Section StartAttempt.

Variables (user : AuthUser.t) (questionSetId attemptId : string) (now : Z).
Variable db : Store.
Variable questionSet : QuestionSet.row.

Hypothesis set_exists : select_questionSet questionSetId db = Some questionSet.
Hypothesis set_not_empty : select_questions_of_set questionSetId db <> [].
Hypothesis user_exists : In (AuthUser.id user) (map User.id (userTable db)).
Hypothesis id_is_new : ~ In attemptId (map QuizAttempt.id (quizAttemptTable db)).

(** The current revision creates exactly one attempt, in progress and
    with score 0; its [totalQuestions] is the constant 10. *)
Lemma startAttempt_inserts_one_attempt :
  startAttempt user questionSetId attemptId now db =
    (Json 200 "Quiz started successfully" (StartData.mk attemptId 10),
     with_quizAttemptTable
       (quizAttemptTable db ++
        [QuizAttempt.mk attemptId (AuthUser.id user) questionSetId 0 10 now None])
       db).
Proof.
  unfold startAttempt. rewrite set_exists.
  destruct (select_questions_of_set questionSetId db) as [|q qs] eqn:Hq;
    [congruence|].
  simpl length. simpl Nat.eqb. cbv iota.
  unfold insert_quizAttempt. simpl.
  apply mem_not_In in id_is_new. rewrite id_is_new.
  apply mem_In in user_exists. rewrite user_exists.
  rewrite (select_questionSet_mem _ _ _ set_exists). reflexivity.
Qed.

End StartAttempt.

(** C1.  On the fixture of the tests, whose set "Math Basics" has two
    questions, [startAttempt] answers 200 and creates exactly one
    attempt with score 0 and no completion date, but both the row's
    [totalQuestions] and the count in the response are 10, not 2. *)
Theorem startAttempt_total_is_ten_for_two_questions :
  length (select_questions_of_set "set1" Fixture.seeded) = 2%nat /\
  startAttempt Fixture.quizuser "set1" "a1" 100 Fixture.seeded =
    (Json 200 "Quiz started successfully" (StartData.mk "a1" 10),
     with_quizAttemptTable [QuizAttempt.mk "a1" "u1" "set1" 0 10 100 None]
       Fixture.seeded).
Proof.
  split; reflexivity.
Qed.

(** ** Submitting an answer *)

Lemma verdict_spec (q : Question.row) (userAnswer : string) :
  verdict q userAnswer = true <->
  userAnswer = Question.correctAnswer q /\
  (Question.type q = "single_selection" \/ Question.type q = "true_false").
Proof.
  unfold verdict, scorable.
  rewrite andb_true_iff, orb_true_iff, !String.eqb_eq. tauto.
Qed.

Lemma select_attempt_after_update (attemptId uid target : string)
    (f : QuizAttempt.row -> QuizAttempt.row) (rows : list QuizAttempt.row) :
  (forall a, QuizAttempt.id (f a) = QuizAttempt.id a) ->
  (forall a, QuizAttempt.userId (f a) = QuizAttempt.userId a) ->
  find (fun a => String.eqb (QuizAttempt.id a) attemptId
                 && String.eqb (QuizAttempt.userId a) uid)
       (map (fun a => if String.eqb (QuizAttempt.id a) target then f a else a) rows)
  = option_map (fun a => if String.eqb (QuizAttempt.id a) target then f a else a)
      (find (fun a => String.eqb (QuizAttempt.id a) attemptId
                      && String.eqb (QuizAttempt.userId a) uid) rows).
Proof.
  intros Hid Huid. apply find_map_stable. intros a.
  destruct (String.eqb (QuizAttempt.id a) target); [|reflexivity].
  now rewrite Hid, Huid.
Qed.

Section SubmitAnswer.

Variables (user : AuthUser.t) (attemptId questionId userAnswer answerId : string).
Variable now : Z.
Variable db : Store.
Variables (a : QuizAttempt.row) (q : Question.row).

Hypothesis attempt_owned :
  select_attempt attemptId (AuthUser.id user) db = Some a.
Hypothesis in_progress : QuizAttempt.completedAt a = None.
Hypothesis question_exists : select_question questionId db = Some q.
Hypothesis same_set : Question.questionSetId q = QuizAttempt.questionSetId a.
Hypothesis id_is_new : ~ In answerId (map QuizAnswer.id (quizAnswerTable db)).

Lemma submitAnswer_accepted :
  submitAnswer user attemptId questionId userAnswer answerId now db =
    (Json 200 "Answer submitted successfully"
       (AnswerData.mk (verdict q userAnswer) (Question.correctAnswer q)),
     after_submission q (QuizAttempt.score a) attemptId questionId userAnswer
       answerId now db).
Proof.
  unfold submitAnswer, after_submission.
  rewrite attempt_owned, in_progress, question_exists, same_set.
  rewrite String.eqb_refl. cbn [negb].
  destruct (select_attempt_mem _ _ _ _ attempt_owned) as (_ & _ & Hmem).
  destruct (select_question_mem _ _ _ question_exists) as (_ & Hqmem).
  apply mem_not_In in id_is_new.
  change (if scorable (Question.type q)
          then String.eqb userAnswer (Question.correctAnswer q)
          else false) with (verdict q userAnswer).
  cbv zeta.
  change (QuizAnswer.mk answerId attemptId questionId userAnswer
            (verdict q userAnswer) now)
    with (answer_row q attemptId questionId userAnswer answerId now).
  set (row := answer_row q attemptId questionId userAnswer answerId now).
  assert (Hins : insert_quizAnswer row db =
                 Some (tt, with_quizAnswerTable (quizAnswerTable db ++ [row]) db)).
  { unfold insert_quizAnswer, row, answer_row.
    cbn [QuizAnswer.id QuizAnswer.quizAttemptId QuizAnswer.questionId].
    rewrite id_is_new, Hmem, Hqmem. reflexivity. }
  unfold transaction, bind. rewrite Hins.
  destruct (verdict q userAnswer); cbn; rewrite ?or0_id; reflexivity.
Qed.

Lemma after_submission_answers :
  quizAnswerTable
    (after_submission q (QuizAttempt.score a) attemptId questionId userAnswer
       answerId now db) =
  (quizAnswerTable db ++
   [answer_row q attemptId questionId userAnswer answerId now])%list.
Proof.
  unfold after_submission. destruct (verdict q userAnswer); reflexivity.
Qed.

Lemma after_submission_attempt :
  select_attempt attemptId (AuthUser.id user)
    (after_submission q (QuizAttempt.score a) attemptId questionId userAnswer
       answerId now db) =
    Some (if verdict q userAnswer
          then attempt_with_score (QuizAttempt.score a + 1) a
          else a).
Proof.
  unfold after_submission. destruct (verdict q userAnswer).
  - unfold select_attempt. cbn [quizAttemptTable with_quizAttemptTable].
    rewrite select_attempt_after_update by reflexivity.
    cbn [quizAttemptTable with_quizAnswerTable].
    fold (select_attempt attemptId (AuthUser.id user) db).
    rewrite attempt_owned. cbn [option_map].
    destruct (select_attempt_mem _ _ _ _ attempt_owned) as (-> & _ & _).
    now rewrite String.eqb_refl.
  - exact attempt_owned.
Qed.

End SubmitAnswer.

(** What a submission never touches. *)
Lemma after_submission_other_tables (q : Question.row) (score : Z)
    (attemptId questionId userAnswer answerId : string) (now : Z) (db : Store) :
  let db' := after_submission q score attemptId questionId userAnswer answerId now db in
  userTable db' = userTable db /\
  userProfileTable db' = userProfileTable db /\
  questionSetTable db' = questionSetTable db /\
  questionTable db' = questionTable db /\
  chatSessionTable db' = chatSessionTable db /\
  chatMessageTable db' = chatMessageTable db /\
  (verdict q userAnswer = false -> quizAttemptTable db' = quizAttemptTable db).
Proof.
  unfold after_submission. destruct (verdict q userAnswer); cbn; intuition congruence.
Qed.


(** C4.  A submission that passes the four checks answers with
    [wasCorrect] true exactly when the answer is the question's
    [correctAnswer], character for character, and the question's type is
    [single_selection] or [true_false].  It inserts exactly one answer
    row.  The attempt is afterwards the row it was with its score raised
    by exactly 1 when [wasCorrect], and with the same score otherwise;
    when not [wasCorrect] the attempt table as a whole is as it was. *)
Theorem submitAnswer_scores_exact_match
    (user : AuthUser.t) (attemptId questionId userAnswer answerId : string)
    (now : Z) (db : Store) (a : QuizAttempt.row) (q : Question.row) :
  select_attempt attemptId (AuthUser.id user) db = Some a ->
  QuizAttempt.completedAt a = None ->
  select_question questionId db = Some q ->
  Question.questionSetId q = QuizAttempt.questionSetId a ->
  ~ In answerId (map QuizAnswer.id (quizAnswerTable db)) ->
  exists (wasCorrect : bool) (db' : Store) (a' : QuizAttempt.row),
    submitAnswer user attemptId questionId userAnswer answerId now db =
      (Json 200 "Answer submitted successfully"
         (AnswerData.mk wasCorrect (Question.correctAnswer q)), db') /\
    (wasCorrect = true <->
     userAnswer = Question.correctAnswer q /\
     (Question.type q = "single_selection" \/ Question.type q = "true_false")) /\
    quizAnswerTable db' =
      (quizAnswerTable db ++
       [QuizAnswer.mk answerId attemptId questionId userAnswer wasCorrect now])%list /\
    select_attempt attemptId (AuthUser.id user) db' = Some a' /\
    QuizAttempt.score a' = QuizAttempt.score a + (if wasCorrect then 1 else 0) /\
    QuizAttempt.id a' = QuizAttempt.id a /\
    QuizAttempt.userId a' = QuizAttempt.userId a /\
    QuizAttempt.questionSetId a' = QuizAttempt.questionSetId a /\
    QuizAttempt.totalQuestions a' = QuizAttempt.totalQuestions a /\
    QuizAttempt.startedAt a' = QuizAttempt.startedAt a /\
    QuizAttempt.completedAt a' = None /\
    (wasCorrect = false -> quizAttemptTable db' = quizAttemptTable db).
Proof.
  intros Ha Hp Hq Hs Hnew.
  exists (verdict q userAnswer),
    (after_submission q (QuizAttempt.score a) attemptId questionId userAnswer
       answerId now db),
    (if verdict q userAnswer
     then attempt_with_score (QuizAttempt.score a + 1) a else a).
  split; [now apply submitAnswer_accepted|].
  split; [apply verdict_spec|].
  split; [now apply after_submission_answers|].
  split; [now apply after_submission_attempt|].
  split; [destruct (verdict q userAnswer); cbn; lia|].
  split; [destruct (verdict q userAnswer); reflexivity|].
  split; [destruct (verdict q userAnswer); reflexivity|].
  split; [destruct (verdict q userAnswer); reflexivity|].
  split; [destruct (verdict q userAnswer); reflexivity|].
  split; [destruct (verdict q userAnswer); reflexivity|].
  split; [destruct (verdict q userAnswer); exact Hp|].
  apply after_submission_other_tables.
Qed.

Lemma submitAnswer_scores_exact_match_witness :
  exists (db' : Store) (a' : QuizAttempt.row),
    submitAnswer Fixture.quizuser "a1" "q1" "true" "ans1" 110 Fixture.started =
      (Json 200 "Answer submitted successfully" (AnswerData.mk true "true"), db') /\
    quizAnswerTable db' = [QuizAnswer.mk "ans1" "a1" "q1" "true" true 110] /\
    select_attempt "a1" "u1" db' = Some a' /\
    QuizAttempt.score a' = 1 /\
    QuizAttempt.totalQuestions a' = 10 /\
    QuizAttempt.completedAt a' = None.
Proof.
  destruct (submitAnswer_scores_exact_match Fixture.quizuser "a1" "q1" "true" "ans1"
              110 Fixture.started (QuizAttempt.mk "a1" "u1" "set1" 0 10 100 None)
              Fixture.question1 eq_refl eq_refl eq_refl eq_refl
              (fun H : In "ans1" [] => H))
    as (wasCorrect & db' & a' & Hr & Hiff & Hans & Hsel & Hscore & _ & _ & _ & Htot
        & _ & Hdone & _).
  assert (Hc : wasCorrect = true).
  { apply Hiff. split; [reflexivity | right; reflexivity]. }
  subst wasCorrect. exists db', a'.
  split; [exact Hr|]. split; [exact Hans|]. split; [exact Hsel|].
  split; [exact Hscore|]. split; [exact Htot | exact Hdone].
Defined.

(** The two cases on the fixture, in full: the right answer to the first
    question leaves the attempt with score 1, a wrong one with score 0,
    and each leaves one answer row. *)
Example submitAnswer_on_the_fixture :
  submitAnswer Fixture.quizuser "a1" "q1" "true" "ans1" 110 Fixture.started =
    (Json 200 "Answer submitted successfully" (AnswerData.mk true "true"),
     Fixture.answered) /\
  quizAttemptTable Fixture.answered = [QuizAttempt.mk "a1" "u1" "set1" 1 10 100 None] /\
  quizAnswerTable Fixture.answered = [QuizAnswer.mk "ans1" "a1" "q1" "true" true 110] /\
  fst (submitAnswer Fixture.quizuser "a1" "q1" "True" "ans1" 110 Fixture.started) =
    Json 200 "Answer submitted successfully" (AnswerData.mk false "true") /\
  quizAttemptTable
    (snd (submitAnswer Fixture.quizuser "a1" "q1" "True" "ans1" 110 Fixture.started)) =
    [QuizAttempt.mk "a1" "u1" "set1" 0 10 100 None] /\
  quizAnswerTable
    (snd (submitAnswer Fixture.quizuser "a1" "q1" "True" "ans1" 110 Fixture.started)) =
    [QuizAnswer.mk "ans1" "a1" "q1" "True" false 110].
Proof.
  repeat split.
Qed.

(** ** Repeated submissions *)

Lemma submitAnswers_effect
    (user : AuthUser.t) (attemptId questionId userAnswer : string) (q : Question.row)
    (draws : list (string * Z)) :
  forall (db : Store) (a : QuizAttempt.row),
    select_attempt attemptId (AuthUser.id user) db = Some a ->
    QuizAttempt.completedAt a = None ->
    select_question questionId db = Some q ->
    Question.questionSetId q = QuizAttempt.questionSetId a ->
    NoDup (map fst draws) ->
    (forall i, In i (map fst draws) ->
               ~ In i (map QuizAnswer.id (quizAnswerTable db))) ->
    exists (a' : QuizAttempt.row) (db' : Store),
      submitAnswers user attemptId questionId userAnswer draws db =
        (map (fun _ => Json 200 "Answer submitted successfully"
                         (AnswerData.mk (verdict q userAnswer)
                            (Question.correctAnswer q))) draws, db') /\
      quizAnswerTable db' =
        (quizAnswerTable db ++
         map (fun d => answer_row q attemptId questionId userAnswer (fst d) (snd d))
             draws)%list /\
      select_attempt attemptId (AuthUser.id user) db' = Some a' /\
      QuizAttempt.score a' =
        QuizAttempt.score a +
        (if verdict q userAnswer then Z.of_nat (length draws) else 0) /\
      QuizAttempt.totalQuestions a' = QuizAttempt.totalQuestions a /\
      QuizAttempt.completedAt a' = None.
Proof.
  induction draws as [|[answerId now] rest IH]; intros db a Ha Hp Hq Hs Hnd Hnew.
  - exists a, db. cbn. rewrite app_nil_r.
    destruct (verdict q userAnswer); repeat split; trivial; lia.
  - cbn [map fst] in Hnd, Hnew. inversion Hnd as [|? ? Hnotin Hnd']; subst.
    assert (Hid : ~ In answerId (map QuizAnswer.id (quizAnswerTable db)))
      by (apply Hnew; now left).
    pose proof (submitAnswer_accepted user attemptId questionId userAnswer answerId
                  now db a q Ha Hp Hq Hs Hid) as Hstep.
    pose proof (after_submission_answers attemptId questionId userAnswer answerId
                  now db a q) as Hans.
    pose proof (after_submission_attempt user attemptId questionId userAnswer
                  answerId now db a q Ha) as Hatt.
    pose proof (after_submission_other_tables q (QuizAttempt.score a) attemptId
                  questionId userAnswer answerId now db) as Hother.
    cbv zeta in Hother. destruct Hother as (_ & _ & _ & Hquestions & _).
    set (db1 := after_submission q (QuizAttempt.score a) attemptId questionId
                  userAnswer answerId now db) in *.
    set (a1 := if verdict q userAnswer
               then attempt_with_score (QuizAttempt.score a + 1) a else a) in *.
    destruct (IH db1 a1) as (a' & db' & Hrun & Htable & Hsel & Hscore & Htot & Hdone).
    + exact Hatt.
    + unfold a1. destruct (verdict q userAnswer); exact Hp.
    + unfold select_question. rewrite Hquestions. exact Hq.
    + unfold a1. destruct (verdict q userAnswer); exact Hs.
    + exact Hnd'.
    + intros i Hi. rewrite Hans, map_app, in_app_iff. cbn.
      intros [Hold | [Heq | []]].
      * apply (Hnew i); [now right | exact Hold].
      * subst i. contradiction.
    + exists a', db'. cbn [submitAnswers]. rewrite Hstep, Hrun.
      split; [reflexivity|].
      split; [rewrite Htable, Hans, <- app_assoc; reflexivity|].
      split; [exact Hsel|].
      split; [|split; [|exact Hdone]].
      * rewrite Hscore. unfold a1. cbn [length].
        destruct (verdict q userAnswer); cbn [attempt_with_score QuizAttempt.score]; lia.
      * rewrite Htot. unfold a1. destruct (verdict q userAnswer); reflexivity.
Qed.

(** C3 (as amended).  On an attempt in progress, the same question of
    its set can be answered any number of times: every submission inserts
    a new answer row and, when its answer is correct, raises the score
    again.  For a question whose type is [single_selection] or
    [true_false] some sequence of submissions therefore leaves the
    attempt with a score above its [totalQuestions]. *)
Theorem repeated_submissions_exceed_total
    (user : AuthUser.t) (attemptId questionId : string) (db : Store)
    (a : QuizAttempt.row) (q : Question.row) :
  select_attempt attemptId (AuthUser.id user) db = Some a ->
  QuizAttempt.completedAt a = None ->
  select_question questionId db = Some q ->
  Question.questionSetId q = QuizAttempt.questionSetId a ->
  (forall (userAnswer : string) (draws : list (string * Z)),
     NoDup (map fst draws) ->
     (forall i, In i (map fst draws) ->
                ~ In i (map QuizAnswer.id (quizAnswerTable db))) ->
     exists (a' : QuizAttempt.row) (db' : Store),
       submitAnswers user attemptId questionId userAnswer draws db =
         (map (fun _ => Json 200 "Answer submitted successfully"
                          (AnswerData.mk (verdict q userAnswer)
                             (Question.correctAnswer q))) draws, db') /\
       quizAnswerTable db' =
         (quizAnswerTable db ++
          map (fun d => QuizAnswer.mk (fst d) attemptId questionId userAnswer
                          (verdict q userAnswer) (snd d)) draws)%list /\
       select_attempt attemptId (AuthUser.id user) db' = Some a' /\
       QuizAttempt.score a' =
         QuizAttempt.score a +
         (if verdict q userAnswer then Z.of_nat (length draws) else 0) /\
       QuizAttempt.totalQuestions a' = QuizAttempt.totalQuestions a /\
       QuizAttempt.completedAt a' = None) /\
  (scorable (Question.type q) = true ->
   exists (draws : list (string * Z)) (a' : QuizAttempt.row),
     select_attempt attemptId (AuthUser.id user)
       (snd (submitAnswers user attemptId questionId (Question.correctAnswer q)
               draws db)) = Some a' /\
     QuizAttempt.completedAt a' = None /\
     QuizAttempt.totalQuestions a' = QuizAttempt.totalQuestions a /\
     QuizAttempt.score a' > QuizAttempt.totalQuestions a').
Proof.
  intros Ha Hp Hq Hs. split.
  - intros userAnswer draws Hnd Hnew.
    exact (submitAnswers_effect user attemptId questionId userAnswer q draws db a
             Ha Hp Hq Hs Hnd Hnew).
  - intros Htype.
    set (n := S (Z.to_nat (QuizAttempt.totalQuestions a - QuizAttempt.score a))).
    set (used := map QuizAnswer.id (quizAnswerTable db)).
    set (draws := map (fun i => (i, 0)) (fresh_ids n used)).
    assert (Hfst : map fst draws = fresh_ids n used).
    { unfold draws. rewrite map_map. apply map_id. }
    destruct (submitAnswers_effect user attemptId questionId
                (Question.correctAnswer q) q draws db a Ha Hp Hq Hs)
      as (a' & db' & Hrun & _ & Hsel & Hscore & Htot & Hdone).
    + rewrite Hfst. apply fresh_ids_NoDup.
    + rewrite Hfst. intros i Hi. exact (fresh_ids_fresh _ _ _ Hi).
    + exists draws, a'. rewrite Hrun. cbn [snd].
      repeat split; trivial.
      assert (Hv : verdict q (Question.correctAnswer q) = true).
      { unfold verdict. now rewrite Htype, String.eqb_refl. }
      rewrite Hv in Hscore. rewrite Hscore, Htot.
      unfold draws. rewrite length_map, fresh_ids_length. unfold n. lia.
Qed.

Lemma repeated_submissions_exceed_total_witness :
  exists (draws : list (string * Z)) (a' : QuizAttempt.row),
    select_attempt "a1" "u1"
      (snd (submitAnswers Fixture.quizuser "a1" "q1" "true" draws Fixture.started))
      = Some a' /\
    QuizAttempt.completedAt a' = None /\
    QuizAttempt.totalQuestions a' = 10 /\
    QuizAttempt.score a' > QuizAttempt.totalQuestions a'.
Proof.
  apply (repeated_submissions_exceed_total Fixture.quizuser "a1" "q1"
           Fixture.started (QuizAttempt.mk "a1" "u1" "set1" 0 10 100 None)
           Fixture.question1).
  - reflexivity.
  - reflexivity.
  - reflexivity.
  - reflexivity.
  - reflexivity.
Defined.

(** ** Questions of a type the scoring rule does not know *)

Lemma submitAnswer_unscorable (user : AuthUser.t)
    (attemptId questionId userAnswer answerId : string) (now : Z) (db : Store)
    (q : Question.row) :
  select_question questionId db = Some q ->
  scorable (Question.type q) = false ->
  quizAttemptTable
    (snd (submitAnswer user attemptId questionId userAnswer answerId now db)) =
    quizAttemptTable db /\
  questionTable
    (snd (submitAnswer user attemptId questionId userAnswer answerId now db)) =
    questionTable db.
Proof.
  intros Hq Htype. unfold submitAnswer.
  destruct (select_attempt _ _ db) as [a|]; [|now split].
  destruct (QuizAttempt.completedAt a); [now split|].
  rewrite Hq. destruct (negb _); [now split|].
  rewrite Htype. cbv zeta. unfold transaction, bind, insert_quizAnswer.
  repeat match goal with
         | |- context [if ?c then None else _] => destruct c
         end; now split.
Qed.

Lemma submitSequence_unscorable (user : AuthUser.t) (attemptId questionId : string)
    (q : Question.row) (submissions : list (string * string * Z)) :
  scorable (Question.type q) = false ->
  forall db : Store,
    select_question questionId db = Some q ->
    quizAttemptTable (snd (submitSequence user attemptId questionId submissions db)) =
      quizAttemptTable db.
Proof.
  intros Htype.
  induction submissions as [|[[userAnswer answerId] now] rest IH]; intros db Hq.
  - reflexivity.
  - cbn [submitSequence].
    destruct (submitAnswer_unscorable user attemptId questionId userAnswer answerId
                now db q Hq Htype) as [Hatt Hquestions].
    destruct (submitAnswer user attemptId questionId userAnswer answerId now db)
      as [r db1].
    cbn [snd] in Hatt, Hquestions.
    specialize (IH db1).
    destruct (submitSequence user attemptId questionId rest db1) as [rs db2].
    cbn [snd] in *. rewrite IH; [exact Hatt|].
    unfold select_question in *. now rewrite Hquestions.
Qed.

Lemma submitAnswers_as_sequence (user : AuthUser.t)
    (attemptId questionId userAnswer : string) (draws : list (string * Z)) :
  forall db : Store,
    submitAnswers user attemptId questionId userAnswer draws db =
    submitSequence user attemptId questionId
      (map (fun d => (userAnswer, fst d, snd d)) draws) db.
Proof.
  induction draws as [|[answerId now] rest IH]; intros db.
  - reflexivity.
  - cbn [submitAnswers submitSequence map fst snd].
    destruct (submitAnswer user attemptId questionId userAnswer answerId now db)
      as [r db1].
    now rewrite IH.
Qed.

(** C3, refuted as stated for every question: a question whose type is
    neither [single_selection] nor [true_false] belongs to the set of an
    attempt in progress, every answer to it is recorded as incorrect, and
    no sequence of submissions to it, whatever the answers, raises the
    score above [totalQuestions]. *)
Lemma unscorable_question_never_exceeds_total :
  select_attempt "a1" "u1" Scenario.with_essay =
    Some (QuizAttempt.mk "a1" "u1" "set1" 0 10 100 None) /\
  select_question "q4" Scenario.with_essay = Some Scenario.essay /\
  Question.questionSetId Scenario.essay = "set1" /\
  submitAnswer Fixture.quizuser "a1" "q4" "2,4" "ans1" 110 Scenario.with_essay =
    (Json 200 "Answer submitted successfully" (AnswerData.mk false "2,4"),
     with_quizAnswerTable [QuizAnswer.mk "ans1" "a1" "q4" "2,4" false 110]
       Scenario.with_essay) /\
  (forall submissions : list (string * string * Z),
      select_attempt "a1" "u1"
        (snd (submitSequence Fixture.quizuser "a1" "q4" submissions Scenario.with_essay))
      = Some (QuizAttempt.mk "a1" "u1" "set1" 0 10 100 None)) /\
  ~ (forall (user : AuthUser.t) (attemptId questionId : string) (db : Store)
            (a : QuizAttempt.row) (q : Question.row),
        select_attempt attemptId (AuthUser.id user) db = Some a ->
        QuizAttempt.completedAt a = None ->
        select_question questionId db = Some q ->
        Question.questionSetId q = QuizAttempt.questionSetId a ->
        exists (submissions : list (string * string * Z)) (a' : QuizAttempt.row),
          select_attempt attemptId (AuthUser.id user)
            (snd (submitSequence user attemptId questionId submissions db)) = Some a' /\
          QuizAttempt.score a' > QuizAttempt.totalQuestions a').
Proof.
  assert (Hseq : forall submissions : list (string * string * Z),
             select_attempt "a1" "u1"
               (snd (submitSequence Fixture.quizuser "a1" "q4" submissions
                       Scenario.with_essay))
             = Some (QuizAttempt.mk "a1" "u1" "set1" 0 10 100 None)).
  { intros submissions. unfold select_attempt.
    rewrite (submitSequence_unscorable Fixture.quizuser "a1" "q4" Scenario.essay
               submissions eq_refl Scenario.with_essay eq_refl).
    reflexivity. }
  repeat split; try exact Hseq.
  intros H.
  destruct (H Fixture.quizuser "a1" "q4" Scenario.with_essay
              (QuizAttempt.mk "a1" "u1" "set1" 0 10 100 None) Scenario.essay
              eq_refl eq_refl eq_refl eq_refl) as (submissions & a' & Hsel & Hgt).
  cbn [AuthUser.id Fixture.quizuser] in Hsel.
  change (AuthUser.id Fixture.quizuser) with "u1" in Hsel.
  rewrite Hseq in Hsel. injection Hsel as <-. cbn in Hgt. lia.
Qed.

(** ** The order of the preconditions of [submitAnswer] *)

Lemma select_attempt_none (attemptId uid : string) (db : Store) :
  select_attempt attemptId uid db = None <->
  (forall a, In a (quizAttemptTable db) ->
             QuizAttempt.id a = attemptId -> QuizAttempt.userId a <> uid).
Proof.
  unfold select_attempt. rewrite find_none_iff. split.
  - intros H a Hin Hid Huid. specialize (H a Hin).
    rewrite Hid, Huid, !String.eqb_refl in H. discriminate.
  - intros H a Hin. apply andb_false_iff.
    destruct (String.eqb_spec (QuizAttempt.id a) attemptId) as [Hid|]; [|now left].
    right. apply String.eqb_neq. now apply H.
Qed.

Lemma select_question_none (questionId : string) (db : Store) :
  select_question questionId db = None <->
  (forall q, In q (questionTable db) -> Question.id q <> questionId).
Proof.
  unfold select_question. rewrite find_none_iff. split.
  - intros H q Hin. apply String.eqb_neq. now apply H.
  - intros H q Hin. apply String.eqb_neq. now apply H.
Qed.

Lemma rejected_functional (uid attemptId questionId : string) (db : Store)
    (r1 r2 : Rejection) :
  rejected uid attemptId questionId db r1 ->
  rejected uid attemptId questionId db r2 ->
  r1 = r2.
Proof.
  intros H1 H2.
  destruct H1 as [Hnone | a d Ha Hd | a Ha Hd Hq | a q Ha Hd Hq Hs];
    destruct H2 as [Hnone' | a' d' Ha' Hd' | a' Ha' Hd' Hq' | a' q' Ha' Hd' Hq' Hs'];
    try reflexivity;
    try (apply select_attempt_none in Hnone; congruence);
    try (apply select_attempt_none in Hnone'; congruence);
    try (rewrite Ha in Ha'; injection Ha' as <-; congruence);
    try (apply select_question_none in Hq; congruence);
    try (apply select_question_none in Hq'; congruence).
Qed.

Lemma rejection_response_injective (r1 r2 : Rejection) :
  rejection_status r1 = rejection_status r2 ->
  rejection_message r1 = rejection_message r2 ->
  r1 = r2.
Proof.
  destruct r1, r2; cbn; intros Hs Hm; try reflexivity; discriminate.
Qed.

(** C7.  A submission that fails one of the four preconditions, examined
    in the order attempt owned, attempt in progress, question exists,
    question of the attempt's set, is answered with that precondition's
    own status and message (404, 403, 404, 403), and the store is left
    as it was: no answer row, no change of score.  A missing attempt and
    an attempt of another user fall under the same precondition and get
    the same response; no two preconditions share a response, and no
    submission fails two of them. *)
Theorem submitAnswer_rejects_in_order
    (user : AuthUser.t) (attemptId questionId userAnswer answerId : string)
    (now : Z) (db : Store) (r : Rejection) :
  rejected (AuthUser.id user) attemptId questionId db r ->
  submitAnswer user attemptId questionId userAnswer answerId now db =
    (HTTPException (rejection_status r) (rejection_message r), db) /\
  (forall r', rejected (AuthUser.id user) attemptId questionId db r' -> r' = r) /\
  (forall r', rejection_status r' = rejection_status r ->
              rejection_message r' = rejection_message r -> r' = r).
Proof.
  intros Hr. split; [|split].
  - unfold submitAnswer.
    destruct Hr as [Hnone | a d Ha Hd | a Ha Hd Hq | a q Ha Hd Hq Hs].
    + apply select_attempt_none in Hnone. now rewrite Hnone.
    + now rewrite Ha, Hd.
    + apply select_question_none in Hq. now rewrite Ha, Hd, Hq.
    + rewrite Ha, Hd, Hq. apply String.eqb_neq in Hs. now rewrite Hs.
  - intros r' Hr'. exact (rejected_functional _ _ _ _ _ _ Hr' Hr).
  - intros r'. apply rejection_response_injective.
Qed.

Lemma submitAnswer_rejects_in_order_witness :
  submitAnswer Fixture.quizuser "a1" "missing" "true" "ans2" 130 Fixture.completed =
    (HTTPException 403 "Quiz attempt has already been completed", Fixture.completed) /\
  (forall r', rejected "u1" "a1" "missing" Fixture.completed r' ->
              r' = AttemptCompleted) /\
  (forall r', rejection_status r' = 403 ->
              rejection_message r' = "Quiz attempt has already been completed" ->
              r' = AttemptCompleted).
Proof.
  apply (submitAnswer_rejects_in_order Fixture.quizuser "a1" "missing" "true" "ans2"
           130 Fixture.completed AttemptCompleted).
  apply (rejected_completed "u1" "a1" "missing" Fixture.completed
           (QuizAttempt.mk "a1" "u1" "set1" 1 10 100 (Some 120)) 120).
  - reflexivity.
  - reflexivity.
Defined.

(** Conversely, a submission answered with an [HTTPException] failed one
    of the four preconditions. *)
Lemma submitAnswer_http_error_is_rejection
    (user : AuthUser.t) (attemptId questionId userAnswer answerId : string)
    (now : Z) (db db' : Store) (status : Z) (message : string) :
  submitAnswer user attemptId questionId userAnswer answerId now db =
    (HTTPException status message, db') ->
  exists r, rejected (AuthUser.id user) attemptId questionId db r /\
            status = rejection_status r /\ message = rejection_message r /\ db' = db.
Proof.
  unfold submitAnswer.
  destruct (select_attempt attemptId (AuthUser.id user) db) as [a|] eqn:Ha.
  - destruct (QuizAttempt.completedAt a) as [d|] eqn:Hd.
    + intros [= <- <- <-]. exists AttemptCompleted. repeat split.
      now apply (rejected_completed _ _ _ _ a d).
    + destruct (select_question questionId db) as [q|] eqn:Hq.
      * destruct (String.eqb_spec (Question.questionSetId q)
                    (QuizAttempt.questionSetId a)) as [Hs|Hs]; cbn [negb].
        -- destruct (transaction _ db) as [[?|] ?]; discriminate.
        -- intros [= <- <- <-]. exists QuestionOfOtherSet. repeat split.
           now apply (rejected_set _ _ _ _ a q).
      * intros [= <- <- <-]. exists QuestionNotFound. repeat split.
        apply (rejected_question _ _ _ _ a); trivial.
        now apply select_question_none.
  - intros [= <- <- <-]. exists AttemptNotFound. repeat split.
    apply rejected_attempt. now apply select_attempt_none.
Qed.

(** ** Completing an attempt *)

Lemma completeAttempt_cases
    (user : AuthUser.t) (attemptId profileId : string) (now dbNow : Z) (db : Store) :
  (exists r, completeAttempt user attemptId profileId now dbNow db = (r, db) /\
             succeeded r = false)
  \/
  (exists a p,
      select_attempt attemptId (AuthUser.id user) db = Some a /\
      QuizAttempt.completedAt a = None /\
      select_profile (AuthUser.id user) db = Some p /\
      completeAttempt user attemptId profileId now dbNow db =
        (Json 200 "Quiz completed successfully"
           (CompleteData.mk (QuizAttempt.id a) (QuizAttempt.score a)
              (QuizAttempt.totalQuestions a) (QuizAttempt.startedAt a) now),
         with_userProfileTable
           (aggregated_profiles (AuthUser.id user) p (QuizAttempt.score a)
              (userProfileTable db))
           (completed_attempts attemptId now db)))
  \/
  (exists a,
      select_attempt attemptId (AuthUser.id user) db = Some a /\
      QuizAttempt.completedAt a = None /\
      select_profile (AuthUser.id user) db = None /\
      ~ In profileId (map UserProfile.id (userProfileTable db)) /\
      In (AuthUser.id user) (map User.id (userTable db)) /\
      completeAttempt user attemptId profileId now dbNow db =
        (Json 200 "Quiz completed successfully"
           (CompleteData.mk (QuizAttempt.id a) (QuizAttempt.score a)
              (QuizAttempt.totalQuestions a) (QuizAttempt.startedAt a) now),
         with_userProfileTable
           (userProfileTable db ++
            [UserProfile.mk profileId (AuthUser.id user) dbNow dbNow 1
               (QuizAttempt.score a)])
           (completed_attempts attemptId now db))).
Proof.
  unfold completeAttempt.
  destruct (select_attempt attemptId (AuthUser.id user) db) as [a|] eqn:Ha;
    [|left; eexists; split; reflexivity].
  destruct (QuizAttempt.completedAt a) as [d|] eqn:Hd;
    [left; eexists; split; reflexivity|].
  unfold transaction, recordCompletion, bind, update_attempt_completedAt, ret.
  change (select_profile (AuthUser.id user)
            (with_quizAttemptTable
               (map (fun a0 => if String.eqb (QuizAttempt.id a0) attemptId
                               then attempt_with_completedAt now a0 else a0)
                    (quizAttemptTable db)) db))
    with (select_profile (AuthUser.id user) db).
  fold (completed_attempts attemptId now db).
  destruct (select_profile (AuthUser.id user) db) as [p|] eqn:Hp.
  - right; left. exists a, p. repeat split; trivial.
    unfold update_profile_totals, aggregated_profiles. rewrite !or0_id. reflexivity.
  - unfold insert_userProfile.
    cbn [UserProfile.id UserProfile.userId].
    change (userProfileTable (completed_attempts attemptId now db))
      with (userProfileTable db).
    change (userTable (completed_attempts attemptId now db)) with (userTable db).
    destruct (mem profileId (map UserProfile.id (userProfileTable db))) eqn:Hpk;
      [left; eexists; split; reflexivity|].
    destruct (mem (AuthUser.id user) (map User.id (userTable db))) eqn:Hfk;
      cbn [negb]; [|left; eexists; split; reflexivity].
    right; right. exists a. rewrite or0_id.
    apply mem_not_In in Hpk. apply mem_In in Hfk. repeat split; trivial.
Qed.

Lemma select_attempt_completed (attemptId uid : string) (now : Z) (db : Store)
    (a : QuizAttempt.row) (profiles : list UserProfile.row) :
  select_attempt attemptId uid db = Some a ->
  select_attempt attemptId uid
    (with_userProfileTable profiles (completed_attempts attemptId now db)) =
  Some (attempt_with_completedAt now a).
Proof.
  intros Ha. unfold select_attempt, completed_attempts.
  cbn [quizAttemptTable with_userProfileTable with_quizAttemptTable].
  rewrite select_attempt_after_update by reflexivity.
  fold (select_attempt attemptId uid db). rewrite Ha. cbn [option_map].
  destruct (select_attempt_mem _ _ _ _ Ha) as (-> & _ & _).
  now rewrite String.eqb_refl.
Qed.

Lemma select_profile_aggregated (uid : string) (p : UserProfile.row) (score : Z)
    (db base : Store) :
  select_profile uid db = Some p ->
  select_profile uid
    (with_userProfileTable (aggregated_profiles uid p score (userProfileTable db)) base)
  = Some (set_profile_totals (UserProfile.totalQuizzesTaken p + 1)
            (Z.max (UserProfile.highestScore p) score) p).
Proof.
  intros Hp. unfold select_profile, aggregated_profiles.
  cbn [userProfileTable with_userProfileTable].
  rewrite find_map_stable.
  - fold (select_profile uid db). rewrite Hp. cbn [option_map].
    unfold select_profile in Hp. apply find_some in Hp as [_ Hu].
    now rewrite Hu.
  - intros r. destruct (String.eqb (UserProfile.userId r) uid) eqn:Hr;
      cbn [set_profile_totals UserProfile.userId]; now rewrite Hr.
Qed.

Lemma select_profile_inserted (uid : string) (row : UserProfile.row) (db base : Store) :
  select_profile uid db = None ->
  UserProfile.userId row = uid ->
  select_profile uid (with_userProfileTable (userProfileTable db ++ [row]) base)
  = Some row.
Proof.
  intros Hp Hu. unfold select_profile in *.
  cbn [userProfileTable with_userProfileTable].
  rewrite find_app_none by exact Hp. cbn. now rewrite Hu, String.eqb_refl.
Qed.

(** A completion whose profile insert the store refuses (the drawn
    identifier is taken, or the user has no row in the user table) fails
    as a whole. *)
Lemma completeAttempt_refused
    (user : AuthUser.t) (attemptId profileId : string) (now dbNow : Z) (db : Store)
    (a : QuizAttempt.row) :
  select_attempt attemptId (AuthUser.id user) db = Some a ->
  QuizAttempt.completedAt a = None ->
  select_profile (AuthUser.id user) db = None ->
  In profileId (map UserProfile.id (userProfileTable db)) \/
  ~ In (AuthUser.id user) (map User.id (userTable db)) ->
  completeAttempt user attemptId profileId now dbNow db = (Uncaught, db).
Proof.
  intros Ha Hd Hp Hrefused.
  destruct (completeAttempt_cases user attemptId profileId now dbNow db)
    as [(r & Hr & Hfail) | [(a' & p & _ & _ & Hp' & _) | (a' & _ & _ & _ & Hpk & Hfk & _)]].
  - rewrite Hr. unfold completeAttempt in Hr. rewrite Ha, Hd in Hr.
    destruct (transaction _ db) as [[c|] s]; injection Hr as <- _;
      [discriminate | reflexivity].
  - congruence.
  - destruct Hrefused as [H | H]; contradiction.
Qed.

Lemma completed_in_completed (attemptId uid : string) (now : Z) (db : Store)
    (a : QuizAttempt.row) (profiles : list UserProfile.row) :
  select_attempt attemptId uid db = Some a ->
  completed_in uid attemptId now a
    (with_userProfileTable profiles (completed_attempts attemptId now db)).
Proof.
  intros Ha. exists (attempt_with_completedAt now a).
  split; [now apply select_attempt_completed|]. repeat split.
Qed.

Lemma completeAttempt_of_completed (user : AuthUser.t) (attemptId : string)
    (now : Z) (a : QuizAttempt.row) (db' : Store) :
  completed_in (AuthUser.id user) attemptId now a db' ->
  forall (profileId2 : string) (now2 dbNow2 : Z),
    completeAttempt user attemptId profileId2 now2 dbNow2 db' =
      (HTTPException 403 "Quiz attempt has already been completed", db').
Proof.
  intros (a' & Hsel & Hc & _) profileId2 now2 dbNow2.
  unfold completeAttempt. now rewrite Hsel, Hc.
Qed.

(** C5.  Completing an owned attempt in progress is all or nothing, and
    which of the two is settled by the store.  When the user has a
    profile row the completion succeeds: the attempt carries
    [completedAt] and is otherwise the row it was, and the profile counts
    one quiz more and holds the larger of its old highest score and the
    attempt's score, its other columns kept.  When the user has no
    profile row, the drawn identifier is unused and the user has a row in
    the user table, the completion succeeds and the profile is the new
    row with one quiz and the attempt's score.  When the user has no
    profile row and the insert is refused, the request is answered with
    an uncaught error and the whole store is as before: the write of
    [completedAt] is undone.  After a success every further completion of
    the same attempt is answered 403 and changes nothing. *)
Theorem completeAttempt_atomic_and_once
    (user : AuthUser.t) (attemptId profileId : string) (now dbNow : Z) (db : Store)
    (a : QuizAttempt.row) :
  select_attempt attemptId (AuthUser.id user) db = Some a ->
  QuizAttempt.completedAt a = None ->
  (forall p : UserProfile.row,
      select_profile (AuthUser.id user) db = Some p ->
      exists (db' : Store) (p' : UserProfile.row),
        completeAttempt user attemptId profileId now dbNow db =
          (Json 200 "Quiz completed successfully"
             (CompleteData.mk (QuizAttempt.id a) (QuizAttempt.score a)
                (QuizAttempt.totalQuestions a) (QuizAttempt.startedAt a) now), db') /\
        completed_in (AuthUser.id user) attemptId now a db' /\
        select_profile (AuthUser.id user) db' = Some p' /\
        UserProfile.totalQuizzesTaken p' = UserProfile.totalQuizzesTaken p + 1 /\
        UserProfile.highestScore p' =
          Z.max (UserProfile.highestScore p) (QuizAttempt.score a) /\
        UserProfile.id p' = UserProfile.id p /\
        UserProfile.userId p' = UserProfile.userId p /\
        UserProfile.createdAt p' = UserProfile.createdAt p /\
        UserProfile.updatedAt p' = UserProfile.updatedAt p /\
        (forall (profileId2 : string) (now2 dbNow2 : Z),
            completeAttempt user attemptId profileId2 now2 dbNow2 db' =
              (HTTPException 403 "Quiz attempt has already been completed", db')))
  /\
  (select_profile (AuthUser.id user) db = None ->
   ~ In profileId (map UserProfile.id (userProfileTable db)) ->
   In (AuthUser.id user) (map User.id (userTable db)) ->
   exists db' : Store,
     completeAttempt user attemptId profileId now dbNow db =
       (Json 200 "Quiz completed successfully"
          (CompleteData.mk (QuizAttempt.id a) (QuizAttempt.score a)
             (QuizAttempt.totalQuestions a) (QuizAttempt.startedAt a) now), db') /\
     completed_in (AuthUser.id user) attemptId now a db' /\
     select_profile (AuthUser.id user) db' =
       Some (UserProfile.mk profileId (AuthUser.id user) dbNow dbNow 1
               (QuizAttempt.score a)) /\
     (forall (profileId2 : string) (now2 dbNow2 : Z),
         completeAttempt user attemptId profileId2 now2 dbNow2 db' =
           (HTTPException 403 "Quiz attempt has already been completed", db')))
  /\
  (select_profile (AuthUser.id user) db = None ->
   In profileId (map UserProfile.id (userProfileTable db)) \/
   ~ In (AuthUser.id user) (map User.id (userTable db)) ->
   completeAttempt user attemptId profileId now dbNow db = (Uncaught, db) /\
   select_attempt attemptId (AuthUser.id user) db = Some a /\
   QuizAttempt.completedAt a = None).
Proof.
  intros Ha Hd. split; [|split].
  - intros p Hp.
    destruct (completeAttempt_cases user attemptId profileId now dbNow db)
      as [(r & Hr & Hfail) | [(a' & p0 & Ha' & _ & Hp' & Hr) | (a' & _ & _ & Hp' & _)]].
    + exfalso. unfold completeAttempt in Hr. rewrite Ha, Hd in Hr.
      unfold transaction, recordCompletion, bind, update_attempt_completedAt, ret in Hr.
      change (select_profile (AuthUser.id user)
                (with_quizAttemptTable
                   (map (fun a0 => if String.eqb (QuizAttempt.id a0) attemptId
                                   then attempt_with_completedAt now a0 else a0)
                        (quizAttemptTable db)) db))
        with (select_profile (AuthUser.id user) db) in Hr.
      rewrite Hp in Hr. unfold update_profile_totals in Hr.
      injection Hr as <- _. discriminate Hfail.
    + rewrite Ha in Ha'. injection Ha' as <-.
      rewrite Hp in Hp'. injection Hp' as <-.
      assert (Hc := completed_in_completed attemptId (AuthUser.id user) now db a
                      (aggregated_profiles (AuthUser.id user) p (QuizAttempt.score a)
                         (userProfileTable db)) Ha).
      eexists _, _. split; [exact Hr|]. split; [exact Hc|]. split.
      * now apply select_profile_aggregated.
      * repeat split. now apply (completeAttempt_of_completed user attemptId now a).
    + congruence.
  - intros Hp Hpk Hfk.
    destruct (completeAttempt_cases user attemptId profileId now dbNow db)
      as [(r & Hr & Hfail) | [(a' & p0 & _ & _ & Hp' & _) | (a' & Ha' & _ & _ & _ & _ & Hr)]].
    + exfalso. unfold completeAttempt in Hr. rewrite Ha, Hd in Hr.
      unfold transaction, recordCompletion, bind, update_attempt_completedAt, ret in Hr.
      change (select_profile (AuthUser.id user)
                (with_quizAttemptTable
                   (map (fun a0 => if String.eqb (QuizAttempt.id a0) attemptId
                                   then attempt_with_completedAt now a0 else a0)
                        (quizAttemptTable db)) db))
        with (select_profile (AuthUser.id user) db) in Hr.
      rewrite Hp in Hr. unfold insert_userProfile in Hr.
      cbn [UserProfile.id UserProfile.userId userProfileTable userTable
           with_quizAttemptTable] in Hr.
      rewrite (proj2 (mem_not_In _ _) Hpk), (proj2 (mem_In _ _) Hfk) in Hr.
      cbn [negb] in Hr. injection Hr as <- _. discriminate Hfail.
    + congruence.
    + rewrite Ha in Ha'. injection Ha' as <-.
      assert (Hc := completed_in_completed attemptId (AuthUser.id user) now db a
                      (userProfileTable db ++
                       [UserProfile.mk profileId (AuthUser.id user) dbNow dbNow 1
                          (QuizAttempt.score a)]) Ha).
      eexists. split; [exact Hr|]. split; [exact Hc|]. split.
      * now apply select_profile_inserted.
      * now apply (completeAttempt_of_completed user attemptId now a).
  - intros Hp Hrefused. split; [|split; assumption].
    now apply (completeAttempt_refused user attemptId profileId now dbNow db a).
Qed.

Lemma completeAttempt_atomic_and_once_witness :
  exists db' : Store,
    completeAttempt Fixture.quizuser "a1" "p1" 120 120 Fixture.answered =
      (Json 200 "Quiz completed successfully" (CompleteData.mk "a1" 1 10 100 120), db') /\
    completed_in "u1" "a1" 120 (QuizAttempt.mk "a1" "u1" "set1" 1 10 100 None) db' /\
    select_profile "u1" db' = Some (UserProfile.mk "p1" "u1" 120 120 1 1) /\
    (forall (profileId2 : string) (now2 dbNow2 : Z),
        completeAttempt Fixture.quizuser "a1" profileId2 now2 dbNow2 db' =
          (HTTPException 403 "Quiz attempt has already been completed", db')).
Proof.
  refine (proj1 (proj2
    (completeAttempt_atomic_and_once Fixture.quizuser "a1" "p1" 120 120
       Fixture.answered (QuizAttempt.mk "a1" "u1" "set1" 1 10 100 None)
       eq_refl eq_refl)) eq_refl _ _).
  - cbn. tauto.
  - cbn. auto.
Defined.

(** The completion of the fixture, in full: the response, the attempt
    row and the profile row it leaves. *)
Example completeAttempt_on_the_fixture :
  completeAttempt Fixture.quizuser "a1" "p1" 120 120 Fixture.answered =
    (Json 200 "Quiz completed successfully" (CompleteData.mk "a1" 1 10 100 120),
     Fixture.completed) /\
  quizAttemptTable Fixture.completed =
    [QuizAttempt.mk "a1" "u1" "set1" 1 10 100 (Some 120)] /\
  userProfileTable Fixture.completed = [UserProfile.mk "p1" "u1" 120 120 1 1] /\
  completeAttempt Fixture.quizuser "a1" "p2" 130 130 Fixture.completed =
    (HTTPException 403 "Quiz attempt has already been completed", Fixture.completed).
Proof.
  repeat split.
Qed.

(** A second completion by the same user, on a further attempt, rewrites
    the profile row where it stands. *)
Example completeAttempt_updates_the_profile :
  let db1 := snd (startAttempt Fixture.quizuser "set1" "a2" 200 Fixture.completed) in
  let db2 := snd (submitAnswer Fixture.quizuser "a2" "q2" "5" "ans5" 210 db1) in
  let db3 := snd (submitAnswer Fixture.quizuser "a2" "q1" "true" "ans6" 220 db2) in
  let db4 := snd (completeAttempt Fixture.quizuser "a2" "p9" 230 230 db3) in
  fst (completeAttempt Fixture.quizuser "a2" "p9" 230 230 db3) =
    Json 200 "Quiz completed successfully" (CompleteData.mk "a2" 2 10 200 230) /\
  userProfileTable db4 = [UserProfile.mk "p1" "u1" 120 120 2 2] /\
  quizAttemptTable db4 =
    [QuizAttempt.mk "a1" "u1" "set1" 1 10 100 (Some 120);
     QuizAttempt.mk "a2" "u1" "set1" 2 10 200 (Some 230)].
Proof.
  repeat split.
Qed.

(** A completion whose profile insert is refused (here the drawn profile
    identifier is already taken) is rolled back as a whole: the attempt
    is still in progress afterwards. *)
Example completeAttempt_rolls_back :
  let db := with_userProfileTable [UserProfile.mk "p1" "u2" 0 0 0 0] Fixture.answered in
  completeAttempt Fixture.quizuser "a1" "p1" 120 120 db = (Uncaught, db) /\
  select_attempt "a1" "u1" db = Some (QuizAttempt.mk "a1" "u1" "set1" 1 10 100 None).
Proof.
  split; reflexivity.
Qed.

(** ** Which requests create profile rows *)

Ltac break_match :=
  match goal with
  | |- context [match ?x with _ => _ end] => destruct x eqn:?
  end.

Lemma insert_userProfile_cases (r : UserProfile.row) (db : Store) :
  insert_userProfile r db = None \/
  insert_userProfile r db =
    Some (tt, with_userProfileTable (userProfileTable db ++ [r]) db).
Proof.
  unfold insert_userProfile. repeat break_match; auto.
Qed.

Lemma insert_quizAttempt_cases (r : QuizAttempt.row) (db : Store) :
  insert_quizAttempt r db = None \/
  insert_quizAttempt r db =
    Some (tt, with_quizAttemptTable (quizAttemptTable db ++ [r]) db).
Proof.
  unfold insert_quizAttempt. repeat break_match; auto.
Qed.

Lemma insert_quizAnswer_cases (r : QuizAnswer.row) (db : Store) :
  insert_quizAnswer r db = None \/
  insert_quizAnswer r db =
    Some (tt, with_quizAnswerTable (quizAnswerTable db ++ [r]) db).
Proof.
  unfold insert_quizAnswer. repeat break_match; auto.
Qed.

Lemma insert_chatSession_cases (r : ChatSession.row) (db : Store) :
  insert_chatSession r db = None \/
  insert_chatSession r db =
    Some (tt, with_chatSessionTable (chatSessionTable db ++ [r]) db).
Proof.
  unfold insert_chatSession. repeat break_match; auto.
Qed.

Lemma insert_chatMessage_cases (r : ChatMessage.row) (db : Store) :
  insert_chatMessage r db = None \/
  insert_chatMessage r db =
    Some (tt, with_chatMessageTable (chatMessageTable db ++ [r]) db).
Proof.
  unfold insert_chatMessage. repeat break_match; auto.
Qed.

(** Case analysis on the outcome of the next [insert] of the goal. *)
Ltac insert_cases :=
  match goal with
  | |- context [insert_userProfile ?r ?d] =>
      destruct (insert_userProfile_cases r d) as [-> | ->]
  | |- context [insert_quizAttempt ?r ?d] =>
      destruct (insert_quizAttempt_cases r d) as [-> | ->]
  | |- context [insert_quizAnswer ?r ?d] =>
      destruct (insert_quizAnswer_cases r d) as [-> | ->]
  | |- context [insert_chatSession ?r ?d] =>
      destruct (insert_chatSession_cases r d) as [-> | ->]
  | |- context [insert_chatMessage ?r ?d] =>
      destruct (insert_chatMessage_cases r d) as [-> | ->]
  end; cbn beta iota.

Lemma startAttempt_profiles (user : AuthUser.t) (questionSetId attemptId : string)
    (now : Z) (db : Store) :
  userProfileTable (snd (startAttempt user questionSetId attemptId now db)) =
  userProfileTable db.
Proof.
  unfold startAttempt.
  destruct (select_questionSet questionSetId db); [|reflexivity].
  destruct (length _ =? 0)%nat; [reflexivity|].
  cbv zeta. insert_cases; reflexivity.
Qed.

Lemma submitAnswer_profiles (user : AuthUser.t)
    (attemptId questionId userAnswer answerId : string) (now : Z) (db : Store) :
  userProfileTable
    (snd (submitAnswer user attemptId questionId userAnswer answerId now db)) =
  userProfileTable db.
Proof.
  unfold submitAnswer.
  destruct (select_attempt _ _ db) as [a|]; [|reflexivity].
  destruct (QuizAttempt.completedAt a); [reflexivity|].
  destruct (select_question _ db) as [q|]; [|reflexivity].
  destruct (negb _); [reflexivity|].
  cbv zeta. unfold transaction, bind. insert_cases; [reflexivity|].
  destruct (if scorable _ then _ else false); reflexivity.
Qed.

Lemma postCompletion_profiles (user : AuthUser.t) (message : ChatMessageForm.t)
    (ts : Z) (res : option OpenAiChatCompletions.t) (userMessageId llmMessageId : string)
    (db : Store) :
  userProfileTable
    (snd (postCompletion user message ts res userMessageId llmMessageId db)) =
  userProfileTable db.
Proof.
  unfold postCompletion. destruct res as [res|]; [|reflexivity].
  cbv zeta. unfold transaction, bind.
  insert_cases; [reflexivity|].
  insert_cases; [reflexivity|].
  insert_cases; reflexivity.
Qed.

(** The insert of the user row is refused, so the transaction of a
    signup never commits. *)
Lemma signup_writes_nothing (username passwordHash userId profileId : string)
    (dbNow : Z) (session : option string) (db : Store) :
  signup username passwordHash userId profileId dbNow session db =
    (HTTPException 500 "Failed to create user", db).
Proof.
  unfold signup, transaction, bind, insert_user. reflexivity.
Qed.

Lemma aggregated_profiles_in_place (uid : string) (p : UserProfile.row) (score : Z)
    (rows : list UserProfile.row) :
  map UserProfile.id (aggregated_profiles uid p score rows) = map UserProfile.id rows /\
  map UserProfile.userId (aggregated_profiles uid p score rows) =
    map UserProfile.userId rows /\
  map UserProfile.createdAt (aggregated_profiles uid p score rows) =
    map UserProfile.createdAt rows.
Proof.
  unfold aggregated_profiles. rewrite !map_map.
  repeat split; apply map_ext; intros r;
    destruct (String.eqb (UserProfile.userId r) uid); reflexivity.
Qed.




(** A signup is answered 500 and leaves no profile row behind; the
    profile of a second completion is the row of the first, rewritten. *)
Example profile_rows_on_the_fixture :
  serve (Signup "alice" "hash" "u3" "p3" 5 (Some "session")) emptyStore = emptyStore /\
  userProfileTable (run Fixture.two_quizzes Fixture.seeded) =
    [UserProfile.mk "p1" "u1" 120 120 2 2].
Proof.
  split; reflexivity.
Qed.

(** ** The profile aggregates along a run *)

Lemma Forall_map_if {A : Type} (P : A -> Prop) (c : A -> bool) (f : A -> A)
    (l : list A) :
  Forall P l -> (forall x, P x -> P (f x)) ->
  Forall P (map (fun x => if c x then f x else x) l).
Proof.
  intros Hl Hf. apply Forall_map. eapply Forall_impl; [|exact Hl].
  intros x Hx. cbn. destruct (c x); auto.
Qed.

Lemma startAttempt_scores_nonneg (user : AuthUser.t) (questionSetId attemptId : string)
    (now : Z) (db : Store) :
  scores_nonneg db ->
  scores_nonneg (snd (startAttempt user questionSetId attemptId now db)).
Proof.
  intros H. unfold startAttempt.
  destruct (select_questionSet questionSetId db); [|exact H].
  destruct (length _ =? 0)%nat; [exact H|].
  cbv zeta. insert_cases; [exact H|].
  unfold scores_nonneg in *. cbn. apply Forall_app. split; [exact H|].
  constructor; [cbn; lia | constructor].
Qed.

Lemma submitAnswer_scores_nonneg (user : AuthUser.t)
    (attemptId questionId userAnswer answerId : string) (now : Z) (db : Store) :
  scores_nonneg db ->
  scores_nonneg (snd (submitAnswer user attemptId questionId userAnswer answerId now db)).
Proof.
  intros H. unfold submitAnswer.
  destruct (select_attempt _ _ db) as [a|] eqn:Ha; [|exact H].
  destruct (QuizAttempt.completedAt a); [exact H|].
  destruct (select_question _ db) as [q|]; [|exact H].
  destruct (negb _); [exact H|].
  cbv zeta. unfold transaction, bind. insert_cases; [exact H|].
  destruct (if scorable _ then _ else false); [|exact H].
  unfold scores_nonneg in *. cbn.
  apply Forall_map_if; [exact H|].
  intros r _. cbn. rewrite or0_id.
  unfold select_attempt in Ha. apply find_some in Ha as [Hin _].
  rewrite Forall_forall in H. specialize (H a Hin). cbn in H. lia.
Qed.

Lemma completeAttempt_scores_nonneg (user : AuthUser.t) (attemptId profileId : string)
    (now dbNow : Z) (db : Store) :
  scores_nonneg db ->
  scores_nonneg (snd (completeAttempt user attemptId profileId now dbNow db)).
Proof.
  intros H.
  destruct (completeAttempt_cases user attemptId profileId now dbNow db)
    as [(r & Hr & _) | [(a & p & _ & _ & _ & Hr) | (a & _ & _ & _ & _ & _ & Hr)]];
    rewrite Hr; cbn [snd]; [exact H| |];
    unfold scores_nonneg in *; cbn; apply Forall_map_if; auto.
Qed.

Lemma postCompletion_attempts (user : AuthUser.t) (message : ChatMessageForm.t)
    (ts : Z) (res : option OpenAiChatCompletions.t) (userMessageId llmMessageId : string)
    (db : Store) :
  quizAttemptTable
    (snd (postCompletion user message ts res userMessageId llmMessageId db)) =
  quizAttemptTable db.
Proof.
  unfold postCompletion. destruct res as [res|]; [|reflexivity].
  cbv zeta. unfold transaction, bind.
  insert_cases; [reflexivity|].
  insert_cases; [reflexivity|].
  insert_cases; reflexivity.
Qed.

(** Every request keeps the scores of the attempts non-negative. *)
Lemma serve_scores_nonneg (req : Request) (db : Store) :
  scores_nonneg db -> scores_nonneg (serve req db).
Proof.
  intros H. destruct req; cbn [serve]; trivial.
  - now apply startAttempt_scores_nonneg.
  - now apply submitAnswer_scores_nonneg.
  - now apply completeAttempt_scores_nonneg.
  - unfold scores_nonneg. now rewrite postCompletion_attempts.
Qed.

Lemma completion_score_nonneg (uid : string) (req : Request) (db : Store) (sc : Z) :
  scores_nonneg db -> completion_score uid req db = Some sc -> 0 <= sc.
Proof.
  intros H. destruct req; cbn [completion_score]; try discriminate.
  destruct (String.eqb (AuthUser.id user) uid); [|discriminate].
  destruct (completeAttempt_cases user attemptId profileId now dbNow db)
    as [(r & Hr & Hf) | [(a & p & Ha & _ & _ & Hr) | (a & Ha & _ & _ & _ & _ & Hr)]];
    rewrite Hr; cbn [fst].
  - destruct r; cbn in Hf; discriminate.
  - intros [= <-]. cbn. unfold select_attempt in Ha. apply find_some in Ha as [Hin _].
    unfold scores_nonneg in H. rewrite Forall_forall in H. exact (H a Hin).
  - intros [= <-]. cbn. unfold select_attempt in Ha. apply find_some in Ha as [Hin _].
    unfold scores_nonneg in H. rewrite Forall_forall in H. exact (H a Hin).
Qed.

Lemma profile_totals_same_table (uid : string) (db db' : Store) :
  userProfileTable db' = userProfileTable db ->
  profile_totals uid db' = profile_totals uid db.
Proof.
  intros H. unfold profile_totals, select_profile. now rewrite H.
Qed.

Lemma profile_totals_other_user (uid other : string) (p : UserProfile.row) (score : Z)
    (db base : Store) :
  other <> uid ->
  profile_totals uid
    (with_userProfileTable (aggregated_profiles other p score (userProfileTable db)) base)
  = profile_totals uid db.
Proof.
  intros Hneq. unfold profile_totals, select_profile, aggregated_profiles.
  cbn [userProfileTable with_userProfileTable].
  rewrite find_map_stable.
  - destruct (find _ (userProfileTable db)) as [r|] eqn:Hr; [|reflexivity].
    cbn [option_map]. apply find_some in Hr as [_ Hu]. apply String.eqb_eq in Hu.
    destruct (String.eqb_spec (UserProfile.userId r) other); [congruence | reflexivity].
  - intros r. destruct (String.eqb (UserProfile.userId r) other); reflexivity.
Qed.

Lemma profile_totals_appended (uid : string) (row : UserProfile.row) (db base : Store) :
  profile_totals uid (with_userProfileTable (userProfileTable db ++ [row]) base) =
  match profile_totals uid db with
  | Some totals => Some totals
  | None =>
      if String.eqb (UserProfile.userId row) uid
      then Some (UserProfile.totalQuizzesTaken row, UserProfile.highestScore row)
      else None
  end.
Proof.
  unfold profile_totals, select_profile.
  cbn [userProfileTable with_userProfileTable].
  destruct (find _ (userProfileTable db)) as [r|] eqn:Hr.
  - now rewrite (find_app_some _ _ _ _ Hr).
  - rewrite (find_app_none _ _ _ Hr). cbn.
    destruct (String.eqb (UserProfile.userId row) uid); reflexivity.
Qed.

(** The update rule: what one request does to the aggregates of [uid]. *)
Lemma serve_profile_totals (uid : string) (req : Request) (db : Store) :
  match completion_score uid req db with
  | Some sc =>
      profile_totals uid (serve req db) =
        Some (match profile_totals uid db with
              | Some (taken, highest) => (taken + 1, Z.max highest sc)
              | None => (1, sc)
              end)
  | None => profile_totals uid (serve req db) = profile_totals uid db
  end.
Proof.
  destruct req; cbn [completion_score serve]; try reflexivity.
  - apply profile_totals_same_table, startAttempt_profiles.
  - apply profile_totals_same_table, submitAnswer_profiles.
  - destruct (completeAttempt_cases user attemptId profileId now dbNow db)
      as [(r & Hr & Hf) | [(a & p & Ha & _ & Hp & Hr) | (a & Ha & _ & Hp & _ & _ & Hr)]];
      rewrite Hr; cbn [fst snd].
    + destruct r; cbn in Hf; try discriminate;
        destruct (String.eqb (AuthUser.id user) uid); reflexivity.
    + destruct (String.eqb_spec (AuthUser.id user) uid) as [Hu | Hu].
      * subst uid. cbn [CompleteData.score].
        unfold profile_totals at 1. rewrite (select_profile_aggregated _ _ _ _ _ Hp).
        unfold profile_totals. rewrite Hp. reflexivity.
      * now apply profile_totals_other_user.
    + destruct (String.eqb_spec (AuthUser.id user) uid) as [Hu | Hu].
      * subst uid. cbn [CompleteData.score].
        rewrite profile_totals_appended. unfold profile_totals. rewrite Hp.
        cbn. now rewrite String.eqb_refl.
      * rewrite profile_totals_appended.
        destruct (profile_totals uid db); [reflexivity|]. cbn.
        apply String.eqb_neq in Hu. now rewrite Hu.
  - apply profile_totals_same_table, postCompletion_profiles.
Qed.

Lemma fold_max_out (l : list Z) (x y : Z) :
  fold_left Z.max l (Z.max x y) = Z.max x (fold_left Z.max l y).
Proof.
  revert y. induction l as [|z l IH]; intros y; cbn; [reflexivity|].
  now rewrite <- Z.max_assoc, IH.
Qed.

Lemma fold_max_permutation (l l' : list Z) :
  Permutation l l' -> forall h, fold_left Z.max l h = fold_left Z.max l' h.
Proof.
  induction 1 as [|x l l' _ IH|x y l|l l' l'' _ IH1 _ IH2]; intros h; cbn.
  - reflexivity.
  - apply IH.
  - f_equal. lia.
  - now rewrite IH1.
Qed.

Lemma maximum_from_zero (l : list Z) :
  l <> [] -> Forall (fun s => 0 <= s) l -> fold_left Z.max l 0 = maximum l.
Proof.
  destruct l as [|x l]; [congruence|]. intros _ H. inversion H; subst.
  cbn. f_equal. lia.
Qed.

Lemma completed_scores_nonneg (uid : string) (reqs : list Request) :
  forall db, scores_nonneg db ->
             Forall (fun s => 0 <= s) (completed_scores uid reqs db).
Proof.
  induction reqs as [|req rest IH]; intros db H; cbn; [constructor|].
  pose proof (serve_scores_nonneg req db H) as H'.
  destruct (completion_score uid req db) as [sc|] eqn:Hsc; [|now apply IH].
  constructor; [exact (completion_score_nonneg _ _ _ _ H Hsc) | now apply IH].
Qed.

(** From an existing profile row: every completion adds 1 and takes the
    maximum. *)
Lemma run_from_profile (uid : string) (reqs : list Request) :
  forall (db : Store) (taken highest : Z),
    profile_totals uid db = Some (taken, highest) ->
    profile_totals uid (run reqs db) =
      Some (taken + Z.of_nat (length (completed_scores uid reqs db)),
            fold_left Z.max (completed_scores uid reqs db) highest).
Proof.
  induction reqs as [|req rest IH]; intros db taken highest Hp; cbn [run completed_scores].
  - cbn. rewrite Hp. f_equal. f_equal. lia.
  - pose proof (serve_profile_totals uid req db) as Hstep.
    destruct (completion_score uid req db) as [sc|].
    + rewrite Hp in Hstep. rewrite (IH _ _ _ Hstep).
      cbn [length fold_left]. f_equal. f_equal. lia.
    + rewrite <- Hstep in Hp. exact (IH _ _ _ Hp).
Qed.

(** From no profile row: the row appears at the first completion. *)
Lemma run_from_no_profile (uid : string) (reqs : list Request) :
  forall (db : Store),
    scores_nonneg db ->
    profile_totals uid db = None ->
    (completed_scores uid reqs db = [] /\ profile_totals uid (run reqs db) = None) \/
    profile_totals uid (run reqs db) =
      Some (Z.of_nat (length (completed_scores uid reqs db)),
            fold_left Z.max (completed_scores uid reqs db) 0).
Proof.
  induction reqs as [|req rest IH]; intros db Hnn Hp; cbn [run completed_scores].
  - now left.
  - pose proof (serve_profile_totals uid req db) as Hstep.
    pose proof (serve_scores_nonneg req db Hnn) as Hnn'.
    destruct (completion_score uid req db) as [sc|] eqn:Hsc.
    + right. rewrite Hp in Hstep. rewrite (run_from_profile _ _ _ _ _ Hstep).
      pose proof (completion_score_nonneg _ _ _ _ Hnn Hsc).
      cbn [length fold_left]. f_equal. f_equal; [lia | f_equal; lia].
    + rewrite Hp in Hstep. exact (IH _ Hnn' Hstep).
Qed.

Lemma run_from_fresh_profile (uid : string) (reqs : list Request) (db : Store) :
  scores_nonneg db ->
  (profile_totals uid db = None \/ profile_totals uid db = Some (0, 0)) ->
  completed_scores uid reqs db <> [] ->
  profile_totals uid (run reqs db) =
    Some (Z.of_nat (length (completed_scores uid reqs db)),
          fold_left Z.max (completed_scores uid reqs db) 0).
Proof.
  intros Hnn [Hnone | Hzero] Hne.
  - destruct (run_from_no_profile uid reqs db Hnn Hnone) as [[Hnil _] | H];
      [contradiction | exact H].
  - now rewrite (run_from_profile _ _ _ _ _ Hzero).
Qed.

(** C6.  Along any run of requests that starts where user [uid] has no
    profile row, or a row whose two aggregates are 0, and in which that
    user completes at least one attempt, the profile ends with
    [totalQuizzesTaken] the number of completions and [highestScore] the
    largest of their scores; two such runs whose completions have the same scores in any
    order end with the same aggregates; and each completion applies the
    rule: a row with 1 and the score when there was none, else one more
    and the larger of the old highest score and the score. *)
Theorem profile_aggregates_after_completions
    (uid : string) (reqs : list Request) (db : Store) :
  scores_nonneg db ->
  (profile_totals uid db = None \/ profile_totals uid db = Some (0, 0)) ->
  completed_scores uid reqs db <> [] ->
  profile_totals uid (run reqs db) =
    Some (Z.of_nat (length (completed_scores uid reqs db)),
          maximum (completed_scores uid reqs db)) /\
  (forall (reqs' : list Request) (db' : Store),
      scores_nonneg db' ->
      (profile_totals uid db' = None \/ profile_totals uid db' = Some (0, 0)) ->
      Permutation (completed_scores uid reqs db) (completed_scores uid reqs' db') ->
      profile_totals uid (run reqs' db') = profile_totals uid (run reqs db)) /\
  (forall (req : Request) (db0 : Store) (sc : Z),
      completion_score uid req db0 = Some sc ->
      profile_totals uid (serve req db0) =
        Some (match profile_totals uid db0 with
              | Some (taken, highest) => (taken + 1, Z.max highest sc)
              | None => (1, sc)
              end)).
Proof.
  intros Hnn Hfresh Hne.
  pose proof (run_from_fresh_profile uid reqs db Hnn Hfresh Hne) as Hrun.
  split; [|split].
  - rewrite Hrun. f_equal. f_equal.
    apply maximum_from_zero; [exact Hne | now apply completed_scores_nonneg].
  - intros reqs' db' Hnn' Hfresh' Hperm.
    assert (Hne' : completed_scores uid reqs' db' <> []).
    { intros Hnil. rewrite Hnil in Hperm. apply Permutation_sym in Hperm.
      now apply Permutation_nil in Hperm. }
    rewrite Hrun, (run_from_fresh_profile uid reqs' db' Hnn' Hfresh' Hne').
    rewrite (Permutation_length Hperm), (fold_max_permutation _ _ Hperm).
    reflexivity.
  - intros req db0 sc Hsc.
    pose proof (serve_profile_totals uid req db0) as Hstep.
    now rewrite Hsc in Hstep.
Qed.

Lemma profile_aggregates_after_completions_witness :
  completed_scores "u1" Fixture.two_quizzes Fixture.seeded = [1; 2] /\
  profile_totals "u1" (run Fixture.two_quizzes Fixture.seeded) = Some (2, 2).
Proof.
  split; [reflexivity|].
  assert (Hnn : scores_nonneg Fixture.seeded) by constructor.
  assert (Hne : completed_scores "u1" Fixture.two_quizzes Fixture.seeded <> [])
    by (vm_compute; discriminate).
  exact (proj1 (profile_aggregates_after_completions "u1" Fixture.two_quizzes
                  Fixture.seeded Hnn (or_introl eq_refl) Hne)).
Defined.

(** ** Where the correct answer is shown *)

Lemma question_columns_redacted (q : Question.row) :
  has_property "correctAnswer" (question_columns q) = false.
Proof.
  reflexivity.
Qed.

Lemma answer_columns_correctAnswer (r : QuizAnswer.row * option Question.row) :
  property "correctAnswer" (answer_columns r) =
    Some (match snd r with
          | Some q => JStr (Question.correctAnswer q)
          | None => JNull
          end) /\
  property "questionId" (answer_columns r) =
    Some (JStr (QuizAnswer.questionId (fst r))) /\
  property "userAnswer" (answer_columns r) =
    Some (JStr (QuizAnswer.userAnswer (fst r))).
Proof.
  destruct r as [ans [q|]]; repeat split; reflexivity.
Qed.

Lemma leftJoin_complete {A B : Type} (on : A -> B -> bool) (l : list A) (r : list B)
    (a : A) (b : B) :
  In a l -> In b r -> on a b = true -> In (a, Some b) (leftJoin on l r).
Proof.
  intros Ha Hb Hon. unfold leftJoin. apply in_flat_map. exists a. split; [exact Ha|].
  assert (Hin : In b (filter (on a) r)) by (apply filter_In; auto).
  destruct (filter (on a) r) as [|b0 rest]; [contradiction|].
  apply (in_map (fun b => (a, Some b))). exact Hin.
Qed.

Lemma select_answers_of_attempt_complete (attemptId : string) (db : Store)
    (ans : QuizAnswer.row) (q : Question.row) :
  In ans (quizAnswerTable db) ->
  QuizAnswer.quizAttemptId ans = attemptId ->
  select_question (QuizAnswer.questionId ans) db = Some q ->
  In (ans, Some q) (select_answers_of_attempt attemptId db).
Proof.
  intros Hin Hatt Hq. unfold select_answers_of_attempt. apply filter_In. split.
  - unfold select_question in Hq. apply find_some in Hq as [Hqin Hqid].
    apply leftJoin_complete; trivial.
    now rewrite String.eqb_sym.
  - cbn. rewrite Hatt. apply String.eqb_refl.
Qed.

Lemma getAttemptDetail_answers (user : AuthUser.t) (attemptId : string) (db : Store) :
  exists data,
    getAttemptDetail user attemptId db =
      Json 200 "Successfully fetched quiz attempt details" data /\
    property "answers" data =
      Some (JArr (map answer_columns (select_answers_of_attempt attemptId db))).
Proof.
  unfold getAttemptDetail. cbn [truthy_array negb].
  eexists. split; [reflexivity|].
  destruct (filter _ (leftJoin _ (quizAttemptTable db) (questionSetTable db)))
    as [|row rows]; reflexivity.
Qed.

(** C8.  The detail of a question set lists every question of the set
    and none of the listed questions has a [correctAnswer] property; the
    detail of an attempt lists the answers recorded for it, and each of
    them has a [correctAnswer] property, which holds the correct answer
    of the question the answer is joined to. *)
Theorem correctAnswer_hidden_in_set_shown_in_attempt :
  (forall (questionSetId : string) (db : Store),
      match getQuestionSetDetail questionSetId db with
      | Json status _ data =>
          status = 200 /\
          exists questions,
            property "questions" data = Some (JArr questions) /\
            questions = map question_columns (select_questions_of_set questionSetId db) /\
            Forall (fun j => has_property "correctAnswer" j = false) questions
      | HTTPException status _ =>
          status = 404 /\ select_questionSet questionSetId db = None
      | Uncaught => False
      end) /\
  (forall (user : AuthUser.t) (attemptId : string) (db : Store),
      exists data answers,
        getAttemptDetail user attemptId db =
          Json 200 "Successfully fetched quiz attempt details" data /\
        property "answers" data = Some (JArr answers) /\
        Forall (fun j => has_property "correctAnswer" j = true) answers /\
        (forall (ans : QuizAnswer.row) (q : Question.row),
            In ans (quizAnswerTable db) ->
            QuizAnswer.quizAttemptId ans = attemptId ->
            select_question (QuizAnswer.questionId ans) db = Some q ->
            exists j,
              In j answers /\
              property "questionId" j = Some (JStr (QuizAnswer.questionId ans)) /\
              property "userAnswer" j = Some (JStr (QuizAnswer.userAnswer ans)) /\
              property "correctAnswer" j = Some (JStr (Question.correctAnswer q)))).
Proof.
  split.
  - intros questionSetId db. unfold getQuestionSetDetail.
    destruct (select_questionSet questionSetId db) as [qs|]; [|now split].
    split; [reflexivity|]. eexists. split; [reflexivity|]. split; [reflexivity|].
    apply Forall_map. apply Forall_forall. intros q _.
    apply question_columns_redacted.
  - intros user attemptId db.
    destruct (getAttemptDetail_answers user attemptId db) as (data & Hres & Hans).
    exists data, (map answer_columns (select_answers_of_attempt attemptId db)).
    split; [exact Hres|]. split; [exact Hans|]. split.
    + apply Forall_map. apply Forall_forall. intros r _.
      unfold has_property.
      destruct (answer_columns_correctAnswer r) as (-> & _). reflexivity.
    + intros ans q Hin Hatt Hq.
      exists (answer_columns (ans, Some q)). split.
      * apply in_map. now apply select_answers_of_attempt_complete.
      * destruct (answer_columns_correctAnswer (ans, Some q)) as (H1 & H2 & H3).
        auto.
Qed.

(** ** Chat completions and history *)

(** On the fixture, a completion stores the session and the two
    messages; the same completion again is refused as a whole, because
    the provider's identifier is already a session. *)
Example postCompletion_stores_then_refuses :
  let request :=
    postCompletion Fixture.quizuser (ChatMessageForm.mk "user" "Tell me a joke")
      1700000060123 (Some Fixture.llmResponse) in
  let db1 := snd (request "m1" "m2" Fixture.seeded) in
  chatSessionTable db1 = [ChatSession.mk "llm-session-1" "u1" 1700000000000] /\
  chatMessageTable db1 =
    [ChatMessage.mk "m1" "llm-session-1" "user" "Tell me a joke" 1700000060123;
     ChatMessage.mk "m2" "llm-session-1" "assistant" "[object Object]" 1700000000000] /\
  request "m3" "m4" db1 =
    (HTTPException 500 "An unexpected error occurred while processing your request.",
     db1).
Proof.
  repeat split.
Qed.

Lemma insert_by_permutation {A : Type} (key : A -> Z) (x : A) (l : list A) :
  Permutation (insert_by key x l) (x :: l).
Proof.
  induction l as [|y l IH]; cbn; [reflexivity|].
  destruct (key x <=? key y); [reflexivity|].
  rewrite IH. apply perm_swap.
Qed.

Lemma orderBy_permutation {A : Type} (key : A -> Z) (l : list A) :
  Permutation (orderBy key l) l.
Proof.
  unfold orderBy. induction l as [|x l IH]; cbn; [reflexivity|].
  rewrite insert_by_permutation. now constructor.
Qed.

Lemma orderBy_In {A : Type} (key : A -> Z) (l : list A) (x : A) :
  In x (orderBy key l) <-> In x l.
Proof.
  split; apply Permutation_in;
    [apply orderBy_permutation | apply Permutation_sym, orderBy_permutation].
Qed.

Lemma select_messages_of_In (user : AuthUser.t) (db : Store) (m : ChatMessage.row) :
  In m (select_messages_of
          (map ChatSession.id
             (filter (fun s => String.eqb (ChatSession.userId s) (AuthUser.id user))
                     (chatSessionTable db))) db)
  <->
  In m (chatMessageTable db) /\
  exists s, In s (chatSessionTable db) /\
            ChatSession.userId s = AuthUser.id user /\
            ChatMessage.chatSessionId m = ChatSession.id s.
Proof.
  unfold select_messages_of. rewrite orderBy_In, filter_In, mem_In, in_map_iff.
  split.
  - intros (Hm & s & Hid & Hs). apply filter_In in Hs as [Hs Hu].
    apply String.eqb_eq in Hu. split; [exact Hm|]. exists s. auto.
  - intros (Hm & s & Hs & Hu & Hid). split; [exact Hm|]. exists s. split; [auto|].
    apply filter_In. split; [exact Hs|]. now apply String.eqb_eq.
Qed.

(** C10.  Every item of the chat history stands for a message of one of
    the caller's sessions and carries that session's identifier in its
    [id], next to the message's role, content and creation time; every
    such message has its item.  The messages of one session therefore
    all come back with the same [id]. *)
Theorem history_items_are_labelled_with_the_session (user : AuthUser.t) (db : Store) :
  exists items,
    getHistory user db = Json 200 "Successfully fetch chat history" items /\
    (forall item, In item items ->
       exists m s,
         In m (chatMessageTable db) /\ In s (chatSessionTable db) /\
         ChatSession.userId s = AuthUser.id user /\
         ChatMessage.chatSessionId m = ChatSession.id s /\
         item = ChatHistory.mk (ChatSession.id s) (ChatMessage.role m)
                  (ChatMessage.content m) (ChatMessage.createdAt m)) /\
    (forall m s,
       In m (chatMessageTable db) -> In s (chatSessionTable db) ->
       ChatSession.userId s = AuthUser.id user ->
       ChatMessage.chatSessionId m = ChatSession.id s ->
       In (ChatHistory.mk (ChatSession.id s) (ChatMessage.role m)
             (ChatMessage.content m) (ChatMessage.createdAt m)) items) /\
    length items =
      length (filter (fun m => mem (ChatMessage.chatSessionId m)
                                 (map ChatSession.id
                                    (filter (fun s => String.eqb (ChatSession.userId s)
                                                        (AuthUser.id user))
                                            (chatSessionTable db))))
                     (chatMessageTable db)).
Proof.
  unfold getHistory.
  set (sessions := filter (fun s => String.eqb (ChatSession.userId s) (AuthUser.id user))
                          (chatSessionTable db)).
  destruct (length sessions =? 0)%nat eqn:Hlen.
  - apply Nat.eqb_eq in Hlen. apply length_zero_iff_nil in Hlen.
    exists []. split; [reflexivity|]. rewrite Hlen. cbn.
    split; [intros item []|]. split.
    + intros m s Hm Hs Hu Hid.
      assert (Hin : In s sessions).
      { apply filter_In. split; [exact Hs | now apply String.eqb_eq]. }
      rewrite Hlen in Hin. contradiction.
    + induction (chatMessageTable db) as [|m l IH]; [reflexivity | exact IH].
  - cbv zeta. eexists. split; [reflexivity|]. split; [|split].
    + intros item Hitem. apply in_map_iff in Hitem as (m & <- & Hm).
      apply select_messages_of_In in Hm as (Hm & s & Hs & Hu & Hid).
      exists m, s. repeat split; trivial. unfold history_item. now rewrite Hid.
    + intros m s Hm Hs Hu Hid.
      replace (ChatHistory.mk (ChatSession.id s) (ChatMessage.role m)
                 (ChatMessage.content m) (ChatMessage.createdAt m))
        with (history_item m) by (unfold history_item; now rewrite Hid).
      apply in_map. apply select_messages_of_In. split; [exact Hm|]. exists s. auto.
    + rewrite length_map. unfold select_messages_of.
      apply Permutation_length, orderBy_permutation.
Qed.

(** On the fixture, after one completion the two messages "m1" and "m2"
    come back under the identifier of their session. *)
Example history_of_one_completion :
  let db1 :=
    snd (postCompletion Fixture.quizuser (ChatMessageForm.mk "user" "Tell me a joke")
           1700000060123 (Some Fixture.llmResponse) "m1" "m2" Fixture.seeded) in
  map ChatMessage.id (chatMessageTable db1) = ["m1"; "m2"] /\
  getHistory Fixture.quizuser db1 =
    Json 200 "Successfully fetch chat history"
      [ChatHistory.mk "llm-session-1" "assistant" "[object Object]" 1700000000000;
       ChatHistory.mk "llm-session-1" "user" "Tell me a joke" 1700000060123].
Proof.
  split; reflexivity.
Qed.

(** * Further properties of the handlers *)

(** ** What a successful statement tells *)

Lemma insert_userProfile_some (r : UserProfile.row) (db db' : Store) :
  insert_userProfile r db = Some (tt, db') ->
  ~ In (UserProfile.id r) (map UserProfile.id (userProfileTable db)) /\
  In (UserProfile.userId r) (map User.id (userTable db)) /\
  db' = with_userProfileTable (userProfileTable db ++ [r]) db.
Proof.
  unfold insert_userProfile.
  destruct (mem (UserProfile.id r) _) eqn:H1; [discriminate|].
  destruct (mem (UserProfile.userId r) _) eqn:H2; cbn [negb]; [|discriminate].
  intros [= <-]. apply mem_not_In in H1. apply mem_In in H2. auto.
Qed.

Lemma insert_quizAttempt_some (r : QuizAttempt.row) (db db' : Store) :
  insert_quizAttempt r db = Some (tt, db') ->
  ~ In (QuizAttempt.id r) (map QuizAttempt.id (quizAttemptTable db)) /\
  In (QuizAttempt.userId r) (map User.id (userTable db)) /\
  In (QuizAttempt.questionSetId r) (map QuestionSet.id (questionSetTable db)) /\
  db' = with_quizAttemptTable (quizAttemptTable db ++ [r]) db.
Proof.
  unfold insert_quizAttempt.
  destruct (mem (QuizAttempt.id r) _) eqn:H1; [discriminate|].
  destruct (mem (QuizAttempt.userId r) _) eqn:H2; cbn [negb]; [|discriminate].
  destruct (mem (QuizAttempt.questionSetId r) _) eqn:H3; cbn [negb]; [|discriminate].
  intros [= <-]. apply mem_not_In in H1. apply mem_In in H2, H3. auto.
Qed.

Lemma insert_quizAnswer_some (r : QuizAnswer.row) (db db' : Store) :
  insert_quizAnswer r db = Some (tt, db') ->
  ~ In (QuizAnswer.id r) (map QuizAnswer.id (quizAnswerTable db)) /\
  In (QuizAnswer.quizAttemptId r) (map QuizAttempt.id (quizAttemptTable db)) /\
  In (QuizAnswer.questionId r) (map Question.id (questionTable db)) /\
  db' = with_quizAnswerTable (quizAnswerTable db ++ [r]) db.
Proof.
  unfold insert_quizAnswer.
  destruct (mem (QuizAnswer.id r) _) eqn:H1; [discriminate|].
  destruct (mem (QuizAnswer.quizAttemptId r) _) eqn:H2; cbn [negb]; [|discriminate].
  destruct (mem (QuizAnswer.questionId r) _) eqn:H3; cbn [negb]; [|discriminate].
  intros [= <-]. apply mem_not_In in H1. apply mem_In in H2, H3. auto.
Qed.

Lemma insert_chatSession_some (r : ChatSession.row) (db db' : Store) :
  insert_chatSession r db = Some (tt, db') ->
  ~ In (ChatSession.id r) (map ChatSession.id (chatSessionTable db)) /\
  In (ChatSession.userId r) (map User.id (userTable db)) /\
  db' = with_chatSessionTable (chatSessionTable db ++ [r]) db.
Proof.
  unfold insert_chatSession.
  destruct (mem (ChatSession.id r) _) eqn:H1; [discriminate|].
  destruct (mem (ChatSession.userId r) _) eqn:H2; cbn [negb]; [|discriminate].
  intros [= <-]. apply mem_not_In in H1. apply mem_In in H2. auto.
Qed.

Lemma insert_chatMessage_some (r : ChatMessage.row) (db db' : Store) :
  insert_chatMessage r db = Some (tt, db') ->
  ~ In (ChatMessage.id r) (map ChatMessage.id (chatMessageTable db)) /\
  In (ChatMessage.chatSessionId r) (map ChatSession.id (chatSessionTable db)) /\
  db' = with_chatMessageTable (chatMessageTable db ++ [r]) db.
Proof.
  unfold insert_chatMessage.
  destruct (mem (ChatMessage.id r) _) eqn:H1; [discriminate|].
  destruct (mem (ChatMessage.chatSessionId r) _) eqn:H2; cbn [negb]; [|discriminate].
  intros [= <-]. apply mem_not_In in H1. apply mem_In in H2. auto.
Qed.

(** ** The store a request leaves behind, handler by handler *)

Lemma startAttempt_effect (user : AuthUser.t) (questionSetId attemptId : string)
    (now : Z) (db : Store) :
  (succeeded (fst (startAttempt user questionSetId attemptId now db)) = false /\
   snd (startAttempt user questionSetId attemptId now db) = db)
  \/
  (~ In attemptId (map QuizAttempt.id (quizAttemptTable db)) /\
   In (AuthUser.id user) (map User.id (userTable db)) /\
   In questionSetId (map QuestionSet.id (questionSetTable db)) /\
   select_questions_of_set questionSetId db <> [] /\
   startAttempt user questionSetId attemptId now db =
     (Json 200 "Quiz started successfully" (StartData.mk attemptId 10),
      with_quizAttemptTable
        (quizAttemptTable db ++
         [QuizAttempt.mk attemptId (AuthUser.id user) questionSetId 0 10 now None])
        db)).
Proof.
  unfold startAttempt.
  destruct (select_questionSet questionSetId db); [|now left].
  destruct (select_questions_of_set questionSetId db) as [|q qs] eqn:Hq; [now left|].
  cbn [length Nat.eqb]. cbv zeta.
  destruct (insert_quizAttempt _ db) as [[[] db']|] eqn:Hins; [|now left].
  apply insert_quizAttempt_some in Hins as (H1 & H2 & H3 & ->).
  right. repeat split; trivial. discriminate.
Qed.

Lemma submitAnswer_effect (user : AuthUser.t)
    (attemptId questionId userAnswer answerId : string) (now : Z) (db : Store) :
  (succeeded (fst (submitAnswer user attemptId questionId userAnswer answerId now db))
     = false /\
   snd (submitAnswer user attemptId questionId userAnswer answerId now db) = db)
  \/
  (exists a q,
      select_attempt attemptId (AuthUser.id user) db = Some a /\
      QuizAttempt.completedAt a = None /\
      select_question questionId db = Some q /\
      Question.questionSetId q = QuizAttempt.questionSetId a /\
      ~ In answerId (map QuizAnswer.id (quizAnswerTable db)) /\
      submitAnswer user attemptId questionId userAnswer answerId now db =
        (Json 200 "Answer submitted successfully"
           (AnswerData.mk (verdict q userAnswer) (Question.correctAnswer q)),
         after_submission q (QuizAttempt.score a) attemptId questionId userAnswer
           answerId now db)).
Proof.
  destruct (select_attempt attemptId (AuthUser.id user) db) as [a|] eqn:Ha;
    [|left; unfold submitAnswer; rewrite Ha; now split].
  destruct (QuizAttempt.completedAt a) as [d|] eqn:Hd;
    [left; unfold submitAnswer; rewrite Ha, Hd; now split|].
  destruct (select_question questionId db) as [q|] eqn:Hq;
    [|left; unfold submitAnswer; rewrite Ha, Hd, Hq; now split].
  destruct (String.eqb_spec (Question.questionSetId q) (QuizAttempt.questionSetId a))
    as [Hs|Hs];
    [|left; unfold submitAnswer; rewrite Ha, Hd, Hq;
      apply String.eqb_neq in Hs; rewrite Hs; now split].
  destruct (mem answerId (map QuizAnswer.id (quizAnswerTable db))) eqn:Hid.
  - left. unfold submitAnswer. rewrite Ha, Hd, Hq, Hs, String.eqb_refl.
    cbn [negb]. cbv zeta. unfold transaction, bind, insert_quizAnswer.
    cbn [QuizAnswer.id]. rewrite Hid. now split.
  - right. exists a, q. apply mem_not_In in Hid. repeat split; trivial.
    now apply submitAnswer_accepted.
Qed.

Lemma postCompletion_effect (user : AuthUser.t) (message : ChatMessageForm.t)
    (ts : Z) (res : option OpenAiChatCompletions.t) (userMessageId llmMessageId : string)
    (db : Store) :
  (succeeded (fst (postCompletion user message ts res userMessageId llmMessageId db))
     = false /\
   snd (postCompletion user message ts res userMessageId llmMessageId db) = db)
  \/
  (exists answer,
      res = Some answer /\
      ~ In (OpenAiChatCompletions.id answer)
           (map ChatSession.id (chatSessionTable db)) /\
      In (AuthUser.id user) (map User.id (userTable db)) /\
      ~ In userMessageId (map ChatMessage.id (chatMessageTable db)) /\
      ~ In llmMessageId (map ChatMessage.id (chatMessageTable db)) /\
      userMessageId <> llmMessageId /\
      postCompletion user message ts res userMessageId llmMessageId db =
        (Json 200 "Successfully generate chat completions"
           (ChatMessageForm.mk "assistant"
              (join_messages (OpenAiChatCompletions.choices answer))),
         with_chatMessageTable
           (chatMessageTable db ++
            [ChatMessage.mk userMessageId (OpenAiChatCompletions.id answer)
               (ChatMessageForm.role message) (ChatMessageForm.content message) ts;
             ChatMessage.mk llmMessageId (OpenAiChatCompletions.id answer)
               "assistant" (join_messages (OpenAiChatCompletions.choices answer))
               (OpenAiChatCompletions.created answer * 1000)])
           (with_chatSessionTable
              (chatSessionTable db ++
               [ChatSession.mk (OpenAiChatCompletions.id answer) (AuthUser.id user)
                  (OpenAiChatCompletions.created answer * 1000)]) db))).
Proof.
  unfold postCompletion. destruct res as [answer|]; [|now left].
  cbv zeta. unfold transaction, bind.
  destruct (insert_chatSession _ db) as [[[] db1]|] eqn:Hs; [|now left].
  apply insert_chatSession_some in Hs as (H1 & H2 & ->).
  destruct (insert_chatMessage _ _) as [[[] db2]|] eqn:Hm1; [|now left].
  apply insert_chatMessage_some in Hm1 as (H3 & _ & ->).
  destruct (insert_chatMessage _ _) as [[[] db3]|] eqn:Hm2; [|now left].
  apply insert_chatMessage_some in Hm2 as (H4 & _ & ->).
  cbn in H1, H2, H3, H4. rewrite map_app, in_app_iff in H4. cbn in H4.
  right. exists answer. repeat split; trivial.
  - intros Hin. apply H4. now left.
  - intros Heq. apply H4. right. left. exact Heq.
  - cbn. rewrite <- app_assoc. reflexivity.
Qed.

(** ** Chat completions: all or nothing *)

Lemma postCompletion_failed (user : AuthUser.t) (message : ChatMessageForm.t)
    (ts : Z) (res : option OpenAiChatCompletions.t) (userMessageId llmMessageId : string)
    (db : Store) :
  succeeded (fst (postCompletion user message ts res userMessageId llmMessageId db))
    = false ->
  fst (postCompletion user message ts res userMessageId llmMessageId db) =
    HTTPException 500 "An unexpected error occurred while processing your request.".
Proof.
  unfold postCompletion. destruct res as [answer|]; [|reflexivity].
  cbv zeta. destruct (transaction _ db) as [[c|] s]; cbn; [discriminate | reflexivity].
Qed.

Lemma postCompletion_commits (user : AuthUser.t) (message : ChatMessageForm.t)
    (ts : Z) (answer : OpenAiChatCompletions.t) (userMessageId llmMessageId : string)
    (db : Store) :
  ~ In (OpenAiChatCompletions.id answer) (map ChatSession.id (chatSessionTable db)) ->
  In (AuthUser.id user) (map User.id (userTable db)) ->
  ~ In userMessageId (map ChatMessage.id (chatMessageTable db)) ->
  ~ In llmMessageId (map ChatMessage.id (chatMessageTable db)) ->
  userMessageId <> llmMessageId ->
  succeeded
    (fst (postCompletion user message ts (Some answer) userMessageId llmMessageId db))
    = true.
Proof.
  intros Hs Hu Hm1 Hm2 Hneq.
  unfold postCompletion. cbv zeta.
  unfold transaction, bind, insert_chatSession.
  cbn [ChatSession.id ChatSession.userId].
  rewrite (proj2 (mem_not_In _ _) Hs), (proj2 (mem_In _ _) Hu). cbn [negb].
  unfold insert_chatMessage at 1.
  cbn [ChatMessage.id ChatMessage.chatSessionId chatMessageTable chatSessionTable
       with_chatSessionTable].
  rewrite (proj2 (mem_not_In _ _) Hm1).
  assert (Hfk : mem (OpenAiChatCompletions.id answer)
                  (map ChatSession.id
                     (chatSessionTable db ++
                      [ChatSession.mk (OpenAiChatCompletions.id answer)
                         (AuthUser.id user)
                         (OpenAiChatCompletions.created answer * 1000)])) = true).
  { apply mem_In. rewrite map_app, in_app_iff. right. now left. }
  rewrite Hfk. cbn [negb].
  unfold insert_chatMessage.
  cbn [ChatMessage.id ChatMessage.chatSessionId chatMessageTable chatSessionTable
       with_chatSessionTable with_chatMessageTable].
  assert (Hpk : mem llmMessageId
                  (map ChatMessage.id
                     (chatMessageTable db ++
                      [ChatMessage.mk userMessageId (OpenAiChatCompletions.id answer)
                         (ChatMessageForm.role message)
                         (ChatMessageForm.content message) ts])) = false).
  { apply mem_not_In. rewrite map_app, in_app_iff. cbn.
    intros [H | [H | []]]; [contradiction | congruence]. }
  rewrite Hpk, Hfk. reflexivity.
Qed.

(** C9 (as amended).  A chat completion is all or nothing, and which of
    the two is settled by the provider and the store.  When the provider
    call fails, and also when the provider answered but the store refuses
    one of the three inserts (the provider's identifier is already a
    session, the caller has no user row, a drawn message identifier is
    taken or the two are equal), the request is answered with the 500 of
    the handler and the store is exactly as it was.  Otherwise it is
    answered 200 and the store has grown by one session row (the
    provider's identifier, the caller, the provider's creation time) and
    two message rows of that session: the user's message dated at the
    server's receipt and the assistant's message dated at the provider's
    creation time; the other tables are as they were. *)
Theorem postCompletion_all_or_nothing
    (user : AuthUser.t) (message : ChatMessageForm.t) (serverReceivedTimestamp : Z)
    (userMessageId llmMessageId : string) (db : Store) :
  let failure : Response ChatMessageForm.t :=
    HTTPException 500 "An unexpected error occurred while processing your request." in
  postCompletion user message serverReceivedTimestamp None userMessageId llmMessageId db
    = (failure, db)
  /\
  (forall answer : OpenAiChatCompletions.t,
      In (OpenAiChatCompletions.id answer) (map ChatSession.id (chatSessionTable db)) \/
      ~ In (AuthUser.id user) (map User.id (userTable db)) \/
      In userMessageId (map ChatMessage.id (chatMessageTable db)) \/
      In llmMessageId (map ChatMessage.id (chatMessageTable db)) \/
      userMessageId = llmMessageId ->
      postCompletion user message serverReceivedTimestamp (Some answer) userMessageId
        llmMessageId db = (failure, db))
  /\
  (forall answer : OpenAiChatCompletions.t,
      ~ In (OpenAiChatCompletions.id answer)
          (map ChatSession.id (chatSessionTable db)) ->
      In (AuthUser.id user) (map User.id (userTable db)) ->
      ~ In userMessageId (map ChatMessage.id (chatMessageTable db)) ->
      ~ In llmMessageId (map ChatMessage.id (chatMessageTable db)) ->
      userMessageId <> llmMessageId ->
      exists db' : Store,
        postCompletion user message serverReceivedTimestamp (Some answer) userMessageId
          llmMessageId db =
          (Json 200 "Successfully generate chat completions"
             (ChatMessageForm.mk "assistant"
                (join_messages (OpenAiChatCompletions.choices answer))), db') /\
        chatSessionTable db' =
          (chatSessionTable db ++
           [ChatSession.mk (OpenAiChatCompletions.id answer) (AuthUser.id user)
              (OpenAiChatCompletions.created answer * 1000)])%list /\
        chatMessageTable db' =
          (chatMessageTable db ++
           [ChatMessage.mk userMessageId (OpenAiChatCompletions.id answer)
              (ChatMessageForm.role message) (ChatMessageForm.content message)
              serverReceivedTimestamp;
            ChatMessage.mk llmMessageId (OpenAiChatCompletions.id answer)
              "assistant" (join_messages (OpenAiChatCompletions.choices answer))
              (OpenAiChatCompletions.created answer * 1000)])%list /\
        userTable db' = userTable db /\
        userProfileTable db' = userProfileTable db /\
        questionSetTable db' = questionSetTable db /\
        questionTable db' = questionTable db /\
        quizAttemptTable db' = quizAttemptTable db /\
        quizAnswerTable db' = quizAnswerTable db).
Proof.
  cbv zeta. split; [reflexivity|]. split.
  - intros answer Hrefused.
    destruct (postCompletion_effect user message serverReceivedTimestamp (Some answer)
                userMessageId llmMessageId db)
      as [[Hfail Hdb] | (answer' & Heq & Hs & Hu & Hm1 & Hm2 & Hneq & _)].
    + apply postCompletion_failed in Hfail.
      rewrite (surjective_pairing (postCompletion _ _ _ _ _ _ _)).
      now rewrite Hfail, Hdb.
    + injection Heq as <-.
      destruct Hrefused as [H | [H | [H | [H | H]]]]; contradiction.
  - intros answer Hs Hu Hm1 Hm2 Hneq.
    destruct (postCompletion_effect user message serverReceivedTimestamp (Some answer)
                userMessageId llmMessageId db)
      as [[Hfail _] | (answer' & Heq & _ & _ & _ & _ & _ & Hr)].
    + rewrite postCompletion_commits in Hfail by assumption. discriminate Hfail.
    + injection Heq as <-. eexists. split; [exact Hr|]. repeat split.
Qed.

Lemma postCompletion_all_or_nothing_witness :
  exists db' : Store,
    postCompletion Fixture.quizuser (ChatMessageForm.mk "user" "Tell me a joke")
      1700000060123 (Some Fixture.llmResponse) "m1" "m2" Fixture.seeded =
      (Json 200 "Successfully generate chat completions"
         (ChatMessageForm.mk "assistant" "[object Object]"), db') /\
    chatSessionTable db' = [ChatSession.mk "llm-session-1" "u1" 1700000000000] /\
    chatMessageTable db' =
      [ChatMessage.mk "m1" "llm-session-1" "user" "Tell me a joke" 1700000060123;
       ChatMessage.mk "m2" "llm-session-1" "assistant" "[object Object]"
         1700000000000] /\
    userTable db' = userTable Fixture.seeded /\
    userProfileTable db' = userProfileTable Fixture.seeded /\
    questionSetTable db' = questionSetTable Fixture.seeded /\
    questionTable db' = questionTable Fixture.seeded /\
    quizAttemptTable db' = quizAttemptTable Fixture.seeded /\
    quizAnswerTable db' = quizAnswerTable Fixture.seeded.
Proof.
  refine (proj2 (proj2
    (postCompletion_all_or_nothing Fixture.quizuser
       (ChatMessageForm.mk "user" "Tell me a joke") 1700000060123 "m1" "m2"
       Fixture.seeded)) Fixture.llmResponse _ _ _ _ _).
  - cbn. tauto.
  - cbn. auto.
  - cbn. tauto.
  - cbn. tauto.
  - discriminate.
Defined.

(** C9, refuted as stated: the provider answered, and the request is
    nevertheless answered 500 with nothing written, because the
    provider's identifier is already a session of the store.  So a
    failure is not always a failure of the provider call, and an answer
    of the provider is not always followed by the three inserts. *)
Lemma postCompletion_refused_though_provider_answered :
  let failure : Response ChatMessageForm.t :=
    HTTPException 500 "An unexpected error occurred while processing your request." in
  let request :=
    postCompletion Fixture.quizuser (ChatMessageForm.mk "user" "Tell me a joke")
      1700000060123 (Some Fixture.llmResponse) in
  let db1 := snd (request "m1" "m2" Fixture.seeded) in
  chatSessionTable db1 = [ChatSession.mk "llm-session-1" "u1" 1700000000000] /\
  request "m3" "m4" db1 = (failure, db1) /\
  ~ (forall (user : AuthUser.t) (message : ChatMessageForm.t) (ts : Z)
            (res : option OpenAiChatCompletions.t) (userMessageId llmMessageId : string)
            (db : Store),
        fst (postCompletion user message ts res userMessageId llmMessageId db) = failure ->
        res = None) /\
  ~ (forall (user : AuthUser.t) (message : ChatMessageForm.t) (ts : Z)
            (answer : OpenAiChatCompletions.t) (userMessageId llmMessageId : string)
            (db : Store),
        succeeded
          (fst (postCompletion user message ts (Some answer) userMessageId
                  llmMessageId db)) = true).
Proof.
  cbv zeta. split; [reflexivity|]. split; [reflexivity|]. split.
  - intros H.
    specialize (H Fixture.quizuser (ChatMessageForm.mk "user" "Tell me a joke")
                  1700000060123 (Some Fixture.llmResponse) "m3" "m4"
                  (snd (postCompletion Fixture.quizuser
                          (ChatMessageForm.mk "user" "Tell me a joke")
                          1700000060123 (Some Fixture.llmResponse) "m1" "m2"
                          Fixture.seeded)) eq_refl).
    discriminate H.
  - intros H.
    specialize (H Fixture.quizuser (ChatMessageForm.mk "user" "Tell me a joke")
                  1700000060123 Fixture.llmResponse "m3" "m4"
                  (snd (postCompletion Fixture.quizuser
                          (ChatMessageForm.mk "user" "Tell me a joke")
                          1700000060123 (Some Fixture.llmResponse) "m1" "m2"
                          Fixture.seeded))).
    discriminate H.
Qed.

(** ** The schema's constraints are kept *)

Lemma NoDup_snoc {A : Type} (l : list A) (x : A) :
  NoDup l -> ~ In x l -> NoDup (l ++ [x]).
Proof.
  intros Hl Hx. apply NoDup_app; [exact Hl | repeat constructor; intros [] |].
  intros y Hy [<- | []]. contradiction.
Qed.

Lemma incl_snoc {A : Type} (l m : list A) (x : A) :
  incl l m -> In x m -> incl (l ++ [x]) m.
Proof.
  intros Hl Hx. apply incl_app; [exact Hl|]. intros y [<- | []]. exact Hx.
Qed.

Lemma map_update_proj {A B : Type} (g : A -> B) (c : A -> bool) (f : A -> A)
    (l : list A) :
  (forall x, g (f x) = g x) ->
  map g (map (fun x => if c x then f x else x) l) = map g l.
Proof.
  intros Hg. rewrite map_map. apply map_ext. intros x.
  destruct (c x); [apply Hg | reflexivity].
Qed.

(** Simplifies the projections of an explicit store in the goal. *)
Ltac tables :=
  cbn [userTable userProfileTable questionSetTable questionTable quizAttemptTable
       quizAnswerTable chatSessionTable chatMessageTable
       with_userTable with_userProfileTable with_quizAttemptTable
       with_quizAnswerTable with_chatSessionTable with_chatMessageTable];
  rewrite ?map_update_proj by reflexivity;
  rewrite ?map_app; cbn [map].

Ltac table_goal :=
  tables;
  first
    [ assumption
    | apply NoDup_snoc; [assumption | cbn; assumption]
    | apply incl_appl; assumption
    | apply incl_snoc; [assumption | cbn; assumption]
    | apply incl_snoc; [apply incl_appl; assumption | cbn; rewrite in_app_iff; cbn; auto]
    | idtac ].

Lemma startAttempt_store_ok (user : AuthUser.t) (questionSetId attemptId : string)
    (now : Z) (db : Store) :
  store_ok db -> store_ok (snd (startAttempt user questionSetId attemptId now db)).
Proof.
  intros Hok.
  destruct (startAttempt_effect user questionSetId attemptId now db)
    as [[_ ->] | (Hid & Hu & Hs & _ & ->)]; [exact Hok|].
  destruct Hok as [(K1 & K2 & K3 & K4 & K5 & K6 & K7 & K8 & K9)
                   (R1 & R2 & R3 & R4 & R5 & R6 & R7 & R8)].
  cbn [snd]. split; unfold keys_unique, references_hold; repeat split; table_goal.
Qed.

Lemma submitAnswer_store_ok (user : AuthUser.t)
    (attemptId questionId userAnswer answerId : string) (now : Z) (db : Store) :
  store_ok db ->
  store_ok (snd (submitAnswer user attemptId questionId userAnswer answerId now db)).
Proof.
  intros Hok.
  destruct (submitAnswer_effect user attemptId questionId userAnswer answerId now db)
    as [[_ ->] | (a & q & Ha & _ & Hq & _ & Hid & ->)]; [exact Hok|].
  destruct Hok as [(K1 & K2 & K3 & K4 & K5 & K6 & K7 & K8 & K9)
                   (R1 & R2 & R3 & R4 & R5 & R6 & R7 & R8)].
  destruct (select_attempt_mem _ _ _ _ Ha) as (_ & _ & Hamem).
  destruct (select_question_mem _ _ _ Hq) as (_ & Hqmem).
  apply mem_In in Hamem, Hqmem.
  cbn [snd]. unfold after_submission, answer_row.
  destruct (verdict q userAnswer);
    split; unfold keys_unique, references_hold; repeat split; table_goal.
Qed.

Lemma completeAttempt_store_ok (user : AuthUser.t) (attemptId profileId : string)
    (now dbNow : Z) (db : Store) :
  store_ok db -> store_ok (snd (completeAttempt user attemptId profileId now dbNow db)).
Proof.
  intros Hok.
  destruct (completeAttempt_cases user attemptId profileId now dbNow db)
    as [(r & Hr & _) | [(a & p & _ & _ & _ & Hr) | (a & _ & _ & _ & Hid & Hu & Hr)]];
    rewrite Hr; cbn [snd]; [exact Hok| |];
    destruct Hok as [(K1 & K2 & K3 & K4 & K5 & K6 & K7 & K8 & K9)
                     (R1 & R2 & R3 & R4 & R5 & R6 & R7 & R8)];
    unfold completed_attempts, aggregated_profiles;
    split; unfold keys_unique, references_hold; repeat split; table_goal.
Qed.

Lemma postCompletion_store_ok (user : AuthUser.t) (message : ChatMessageForm.t)
    (ts : Z) (res : option OpenAiChatCompletions.t) (userMessageId llmMessageId : string)
    (db : Store) :
  store_ok db ->
  store_ok (snd (postCompletion user message ts res userMessageId llmMessageId db)).
Proof.
  intros Hok.
  destruct (postCompletion_effect user message ts res userMessageId llmMessageId db)
    as [[_ ->] | (answer & _ & Hs & Hu & Hm1 & Hm2 & Hneq & ->)]; [exact Hok|].
  destruct Hok as [(K1 & K2 & K3 & K4 & K5 & K6 & K7 & K8 & K9)
                   (R1 & R2 & R3 & R4 & R5 & R6 & R7 & R8)].
  cbn [snd]. split; unfold keys_unique, references_hold; repeat split; table_goal.
  - cbn [ChatMessage.id].
    change [userMessageId; llmMessageId] with ([userMessageId] ++ [llmMessageId])%list.
    rewrite app_assoc. apply NoDup_snoc; [now apply NoDup_snoc|].
    rewrite in_app_iff. cbn. intros [H | [H | []]]; [contradiction | congruence].
  - cbn [ChatMessage.chatSessionId ChatSession.id].
    apply incl_app; [apply incl_appl; assumption|].
    intros x [<- | [<- | []]]; apply in_or_app; right; now left.
Qed.

Lemma serve_store_ok (req : Request) (db : Store) :
  store_ok db -> store_ok (serve req db).
Proof.
  intros Hok. destruct req; cbn [serve]; trivial.
  - now apply startAttempt_store_ok.
  - now apply submitAnswer_store_ok.
  - now apply completeAttempt_store_ok.
  - now apply postCompletion_store_ok.
Qed.

Lemma seeded_store_ok : store_ok Fixture.seeded.
Proof.
  split; unfold keys_unique, references_hold; cbn; repeat split;
    try (repeat constructor; cbn; intuition discriminate);
    intros x Hx; cbn in *; intuition.
Qed.

Lemma answered_store_ok : store_ok Fixture.answered.
Proof.
  apply (serve_store_ok (SubmitAnswer Fixture.quizuser "a1" "q1" "true" "ans1" 110)).
  apply (serve_store_ok (StartAttempt Fixture.quizuser "set1" "a1" 100)).
  exact seeded_store_ok.
Qed.

(** X1.  Along any run of requests, primary keys stay unique, user names
    stay unique and every reference keeps pointing at a row. *)
Theorem requests_keep_keys_and_references (reqs : list Request) (db : Store) :
  store_ok db -> store_ok (run reqs db).
Proof.
  revert db. induction reqs as [|req rest IH]; intros db Hok; cbn [run].
  - exact Hok.
  - apply IH. now apply serve_store_ok.
Qed.

Lemma requests_keep_keys_and_references_witness :
  store_ok (run Fixture.two_quizzes Fixture.seeded).
Proof.
  apply (requests_keep_keys_and_references Fixture.two_quizzes Fixture.seeded).
  exact seeded_store_ok.
Defined.

Lemma select_profile_none (uid : string) (db : Store) :
  select_profile uid db = None ->
  ~ In uid (map UserProfile.userId (userProfileTable db)).
Proof.
  unfold select_profile. intros Hnone Hin.
  apply in_map_iff in Hin as (p & Hp & Hin).
  pose proof (find_none _ _ Hnone p Hin) as Hf. cbn in Hf.
  rewrite Hp, String.eqb_refl in Hf. discriminate.
Qed.

Lemma serve_one_profile_per_user (req : Request) (db : Store) :
  store_ok db -> one_profile_per_user db -> one_profile_per_user (serve req db).
Proof.
  intros [_ (R1 & _)] Hone. unfold one_profile_per_user in *.
  destruct req; cbn [serve]; trivial.
  - now rewrite startAttempt_profiles.
  - now rewrite submitAnswer_profiles.
  - destruct (completeAttempt_cases user attemptId profileId now dbNow db)
      as [(r & Hr & _) | [(a & p & _ & _ & _ & Hr) | (a & _ & _ & Hp & _ & _ & Hr)]];
      rewrite Hr; cbn [snd]; [exact Hone| |].
    + unfold aggregated_profiles. tables. exact Hone.
    + tables. apply NoDup_snoc; [exact Hone|]. now apply select_profile_none.
  - now rewrite postCompletion_profiles.
Qed.

(** X2.  A store in which no user has two profile rows stays so along any
    run of requests: a completion adds a row only for a user that has
    none, and no other request adds one. *)
Theorem requests_keep_one_profile_per_user (reqs : list Request) (db : Store) :
  store_ok db -> one_profile_per_user db -> one_profile_per_user (run reqs db).
Proof.
  revert db. induction reqs as [|req rest IH]; intros db Hok Hone; cbn [run].
  - exact Hone.
  - apply IH; [now apply serve_store_ok | now apply serve_one_profile_per_user].
Qed.

Lemma requests_keep_one_profile_per_user_witness :
  one_profile_per_user (run Fixture.two_quizzes Fixture.seeded).
Proof.
  apply (requests_keep_one_profile_per_user Fixture.two_quizzes Fixture.seeded).
  - exact seeded_store_ok.
  - constructor.
Defined.

(** ** Scores and answer rows *)

Lemma count_correct_app (attemptId : string) (l l' : list QuizAnswer.row) :
  count_correct attemptId (l ++ l') =
  count_correct attemptId l + count_correct attemptId l'.
Proof.
  unfold count_correct. rewrite filter_app, length_app. lia.
Qed.

Lemma count_correct_unreferenced (attemptId : string) (l : list QuizAnswer.row) :
  ~ In attemptId (map QuizAnswer.quizAttemptId l) -> count_correct attemptId l = 0.
Proof.
  unfold count_correct. induction l as [|r l IH]; cbn; intros Hnot; [reflexivity|].
  destruct (String.eqb_spec (QuizAnswer.quizAttemptId r) attemptId) as [Heq|_].
  - exfalso. apply Hnot. now left.
  - cbn. apply IH. intros Hin. apply Hnot. now right.
Qed.

Lemma serve_scores_count_correct (req : Request) (db : Store) :
  store_ok db -> scores_count_correct db -> scores_count_correct (serve req db).
Proof.
  intros [_ (_ & _ & _ & _ & R5 & _)] Hsc. unfold scores_count_correct in *.
  destruct req; cbn [serve]; trivial.
  - destruct (startAttempt_effect user questionSetId attemptId now db)
      as [[_ ->] | (Hid & _ & _ & _ & ->)]; [exact Hsc|].
    cbn [snd]. tables. apply Forall_app. split; [exact Hsc|].
    constructor; [|constructor]. cbn.
    symmetry. apply count_correct_unreferenced. intros Hin. apply Hid. now apply R5.
  - destruct (submitAnswer_effect user attemptId questionId userAnswer answerId now db)
      as [[_ ->] | (a & q & Ha & _ & _ & _ & _ & ->)]; [exact Hsc|].
    cbn [snd]. unfold after_submission, answer_row.
    destruct (select_attempt_mem _ _ _ _ Ha) as (Hida & _ & _).
    assert (Hina : In a (quizAttemptTable db)).
    { unfold select_attempt in Ha. now apply find_some in Ha. }
    pose proof (proj1 (Forall_forall _ _) Hsc a Hina) as Hscore_a. cbn in Hscore_a.
    destruct (verdict q userAnswer); tables.
    + apply Forall_map. eapply Forall_impl; [|exact Hsc]. intros r Hr. cbn in Hr |- *.
      rewrite count_correct_app.
      destruct (String.eqb_spec (QuizAttempt.id r) attemptId) as [Heq|Hneq].
      * cbn [attempt_with_score QuizAttempt.score QuizAttempt.id].
        rewrite Heq, Hscore_a, Hida. unfold count_correct at 3. cbn.
        rewrite String.eqb_refl. cbn. lia.
      * rewrite Hr. unfold count_correct at 3. cbn.
        apply String.eqb_neq in Hneq. rewrite String.eqb_sym, Hneq. cbn. lia.
    + eapply Forall_impl; [|exact Hsc]. intros r Hr. cbn in Hr |- *.
      rewrite count_correct_app, Hr. unfold count_correct at 3. cbn.
      rewrite andb_false_r. cbn. lia.
  - destruct (completeAttempt_cases user attemptId profileId now dbNow db)
      as [(r & Hr & _) | [(a & p & _ & _ & _ & Hr) | (a & _ & _ & _ & _ & _ & Hr)]];
      rewrite Hr; cbn [snd]; [exact Hsc| |];
      unfold completed_attempts; tables;
      apply Forall_map; (eapply Forall_impl; [|exact Hsc]); intros r0 Hr0; cbn in *;
      destruct (String.eqb (QuizAttempt.id r0) attemptId); exact Hr0.
  - destruct (postCompletion_effect user message serverReceivedTimestamp res
                userMessageId llmMessageId db)
      as [[_ ->] | (answer & _ & _ & _ & _ & _ & _ & ->)]; exact Hsc.
Qed.

(** X3.  In a store where every attempt's score is the number of its
    answer rows marked correct, this stays so along any run of requests:
    a score moves only together with the insertion of a correct answer
    row of that attempt. *)
Theorem score_is_the_number_of_correct_answers (reqs : list Request) (db : Store) :
  store_ok db -> scores_count_correct db -> scores_count_correct (run reqs db).
Proof.
  revert db. induction reqs as [|req rest IH]; intros db Hok Hsc; cbn [run].
  - exact Hsc.
  - apply IH; [now apply serve_store_ok | now apply serve_scores_count_correct].
Qed.

Lemma score_is_the_number_of_correct_answers_witness :
  scores_count_correct (run Fixture.two_quizzes Fixture.seeded).
Proof.
  apply (score_is_the_number_of_correct_answers Fixture.two_quizzes Fixture.seeded).
  - exact seeded_store_ok.
  - constructor.
Defined.

Lemma answer_in_set_mono (db db' : Store) (r : QuizAnswer.row) :
  questionTable db' = questionTable db ->
  (forall a, In a (quizAttemptTable db) ->
             exists a', In a' (quizAttemptTable db') /\
                        QuizAttempt.id a' = QuizAttempt.id a /\
                        QuizAttempt.questionSetId a' = QuizAttempt.questionSetId a) ->
  answer_in_set db r -> answer_in_set db' r.
Proof.
  intros Hq Hatt (a & q & Ha & Hqin & Hid & Hqid & Hset & Hv).
  destruct (Hatt a Ha) as (a' & Ha' & Hid' & Hset').
  exists a', q. rewrite Hq, Hid', Hset'. repeat split; assumption.
Qed.

Lemma updated_attempt_present (c : QuizAttempt.row -> bool)
    (f : QuizAttempt.row -> QuizAttempt.row) (rows : list QuizAttempt.row) :
  (forall a, QuizAttempt.id (f a) = QuizAttempt.id a) ->
  (forall a, QuizAttempt.questionSetId (f a) = QuizAttempt.questionSetId a) ->
  forall a, In a rows ->
    exists a', In a' (map (fun r => if c r then f r else r) rows) /\
               QuizAttempt.id a' = QuizAttempt.id a /\
               QuizAttempt.questionSetId a' = QuizAttempt.questionSetId a.
Proof.
  intros Hid Hset a Ha.
  exists (if c a then f a else a). split.
  - apply (in_map (fun r => if c r then f r else r)). exact Ha.
  - destruct (c a); auto.
Qed.

Lemma serve_answers_within_sets (req : Request) (db : Store) :
  answers_within_sets db -> answers_within_sets (serve req db).
Proof.
  intros Hin. unfold answers_within_sets in *.
  destruct req; cbn [serve]; trivial.
  - destruct (startAttempt_effect user questionSetId attemptId now db)
      as [[_ ->] | (_ & _ & _ & _ & ->)]; [exact Hin|].
    cbn [snd]. tables. eapply Forall_impl; [|exact Hin].
    intros r. apply answer_in_set_mono; [reflexivity|]. intros a Ha. exists a.
    tables. rewrite in_app_iff. auto.
  - destruct (submitAnswer_effect user attemptId questionId userAnswer answerId now db)
      as [[_ ->] | (a & q & Ha & _ & Hq & Hset & _ & ->)]; [exact Hin|].
    cbn [snd].
    destruct (select_attempt_mem _ _ _ _ Ha) as (Hida & _ & _).
    destruct (select_question_mem _ _ _ Hq) as (Hidq & _).
    assert (Hina : In a (quizAttemptTable db)).
    { unfold select_attempt in Ha. now apply find_some in Ha. }
    assert (Hinq : In q (questionTable db)).
    { unfold select_question in Hq. now apply find_some in Hq. }
    set (db' := after_submission q (QuizAttempt.score a) attemptId questionId
                  userAnswer answerId now db).
    assert (Hquestions : questionTable db' = questionTable db).
    { unfold db', after_submission. destruct (verdict q userAnswer); reflexivity. }
    assert (Hattempts : forall a0, In a0 (quizAttemptTable db) ->
              exists a', In a' (quizAttemptTable db') /\
                         QuizAttempt.id a' = QuizAttempt.id a0 /\
                         QuizAttempt.questionSetId a' = QuizAttempt.questionSetId a0).
    { unfold db', after_submission. destruct (verdict q userAnswer); tables.
      - now apply updated_attempt_present.
      - intros a0 Ha0. exists a0. auto. }
    assert (Hanswers : quizAnswerTable db' =
              (quizAnswerTable db ++
               [answer_row q attemptId questionId userAnswer answerId now])%list).
    { unfold db', after_submission. destruct (verdict q userAnswer); reflexivity. }
    rewrite Hanswers. apply Forall_app. split.
    + eapply Forall_impl; [|exact Hin]. intros r.
      now apply answer_in_set_mono.
    + constructor; [|constructor].
      apply (answer_in_set_mono db db'); trivial.
      exists a, q. unfold answer_row. cbn. repeat split; auto.
  - destruct (completeAttempt_cases user attemptId profileId now dbNow db)
      as [(r & Hr & _) | [(a & p & _ & _ & _ & Hr) | (a & _ & _ & _ & _ & _ & Hr)]];
      rewrite Hr; cbn [snd]; [exact Hin| |];
      unfold completed_attempts; tables;
      (eapply Forall_impl; [|exact Hin]); intros r0;
      (apply answer_in_set_mono; [reflexivity|]); tables;
      now apply updated_attempt_present.
  - destruct (postCompletion_effect user message serverReceivedTimestamp res
                userMessageId llmMessageId db)
      as [[_ ->] | (answer & _ & _ & _ & _ & _ & _ & ->)]; [exact Hin|].
    cbn [snd]. tables. eapply Forall_impl; [|exact Hin].
    intros r. apply answer_in_set_mono; [reflexivity|]. intros a Ha. exists a. auto.
Qed.

(** X4.  If every answer row is an answer, within an attempt, to a
    question of that attempt's question set and carries the verdict of
    the scoring rule on its text, this stays so along any run of
    requests: no request records an answer to a question of another
    set. *)
Theorem answers_stay_within_the_attempt_set (reqs : list Request) (db : Store) :
  answers_within_sets db -> answers_within_sets (run reqs db).
Proof.
  revert db. induction reqs as [|req rest IH]; intros db Hin; cbn [run].
  - exact Hin.
  - apply IH. now apply serve_answers_within_sets.
Qed.

Lemma answers_stay_within_the_attempt_set_witness :
  answers_within_sets (run Fixture.two_quizzes Fixture.seeded).
Proof.
  apply (answers_stay_within_the_attempt_set Fixture.two_quizzes Fixture.seeded).
  constructor.
Defined.

(** ** How attempt rows change *)

Lemma attempt_evolves_refl (a : QuizAttempt.row) : attempt_evolves a a.
Proof.
  unfold attempt_evolves. repeat split; trivial. lia.
Qed.

Lemma attempt_evolves_trans (a b c : QuizAttempt.row) :
  attempt_evolves a b -> attempt_evolves b c -> attempt_evolves a c.
Proof.
  intros (H1 & H2 & H3 & H4 & H5 & H6 & H7) (G1 & G2 & G3 & G4 & G5 & G6 & G7).
  unfold attempt_evolves. repeat split; try congruence; try lia.
  intros Hdone. specialize (H7 Hdone). subst b. now apply G7.
Qed.

Lemma Forall2_refl_on {A : Type} (R : A -> A -> Prop) (l : list A) :
  (forall x, R x x) -> Forall2 R l l.
Proof.
  intros HR. induction l; constructor; auto.
Qed.

Lemma Forall2_trans_on {A : Type} (R : A -> A -> Prop) :
  (forall x y z, R x y -> R y z -> R x z) ->
  forall l1 l2 l3, Forall2 R l1 l2 -> Forall2 R l2 l3 -> Forall2 R l1 l3.
Proof.
  intros HR l1 l2 l3 H12. revert l3.
  induction H12 as [|x y l1 l2 Hxy _ IH]; intros l3 H23; inversion H23; subst.
  - constructor.
  - constructor; [eapply HR; eauto | now apply IH].
Qed.

Lemma Forall2_map_self {A : Type} (R : A -> A -> Prop) (f : A -> A) (l : list A) :
  (forall x, In x l -> R x (f x)) -> Forall2 R l (map f l).
Proof.
  induction l as [|x l IH]; intros HR; cbn; constructor.
  - apply HR. now left.
  - apply IH. intros y Hy. apply HR. now right.
Qed.

Lemma NoDup_map_injective {A B : Type} (g : A -> B) (l : list A) (x y : A) :
  NoDup (map g l) -> In x l -> In y l -> g x = g y -> x = y.
Proof.
  induction l as [|z l IH]; cbn; intros Hnd Hx Hy Heq; [contradiction|].
  inversion Hnd as [|? ? Hnot Hnd']; subst.
  destruct Hx as [-> | Hx], Hy as [-> | Hy]; trivial.
  - exfalso. apply Hnot. rewrite Heq. now apply in_map.
  - exfalso. apply Hnot. rewrite <- Heq. now apply in_map.
  - now apply IH.
Qed.

Lemma serve_attempts_evolve (req : Request) (db : Store) :
  NoDup (map QuizAttempt.id (quizAttemptTable db)) ->
  exists olds news,
    quizAttemptTable (serve req db) = (olds ++ news)%list /\
    Forall2 attempt_evolves (quizAttemptTable db) olds /\
    (length news <= 1)%nat.
Proof.
  intros Hnd.
  assert (Hsame : forall db', quizAttemptTable db' = quizAttemptTable db ->
            exists olds news,
              quizAttemptTable db' = (olds ++ news)%list /\
              Forall2 attempt_evolves (quizAttemptTable db) olds /\
              (length news <= 1)%nat).
  { intros db' Heq. exists (quizAttemptTable db), []. rewrite app_nil_r.
    repeat split; [exact Heq | | cbn; lia].
    apply Forall2_refl_on, attempt_evolves_refl. }
  assert (Hupd : forall (a : QuizAttempt.row) (f : QuizAttempt.row -> QuizAttempt.row)
                        (target : string),
            In a (quizAttemptTable db) -> QuizAttempt.id a = target ->
            attempt_evolves a (f a) ->
            Forall2 attempt_evolves (quizAttemptTable db)
              (map (fun r => if String.eqb (QuizAttempt.id r) target then f r else r)
                   (quizAttemptTable db))).
  { intros a f target Ha Hid Hev. apply Forall2_map_self. intros r Hr.
    destruct (String.eqb_spec (QuizAttempt.id r) target) as [Heq|_];
      [|apply attempt_evolves_refl].
    assert (r = a) as ->; [|exact Hev].
    apply (NoDup_map_injective QuizAttempt.id (quizAttemptTable db)); trivial.
    congruence. }
  destruct req; cbn [serve]; try (apply Hsame; reflexivity).
  - destruct (startAttempt_effect user questionSetId attemptId now db)
      as [[_ ->] | (_ & _ & _ & _ & ->)]; [now apply Hsame|].
    cbn [snd]. tables. eexists _, [_]. split; [reflexivity|].
    split; [apply Forall2_refl_on, attempt_evolves_refl | cbn; lia].
  - destruct (submitAnswer_effect user attemptId questionId userAnswer answerId now db)
      as [[_ ->] | (a & q & Ha & Hprog & _ & _ & _ & ->)]; [now apply Hsame|].
    cbn [snd]. unfold after_submission.
    destruct (verdict q userAnswer); [|now apply Hsame].
    destruct (select_attempt_mem _ _ _ _ Ha) as (Hida & _ & _).
    assert (Hina : In a (quizAttemptTable db)).
    { unfold select_attempt in Ha. now apply find_some in Ha. }
    cbn [quizAttemptTable with_quizAttemptTable].
    eexists _, []. rewrite app_nil_r. split; [reflexivity|]. split; [|cbn; lia].
    apply (Hupd a); trivial.
    unfold attempt_evolves. cbn. repeat split; try lia. congruence.
  - destruct (completeAttempt_cases user attemptId profileId now dbNow db)
      as [(r & Hr & _) | [(a & p & Ha & Hprog & _ & Hr) | (a & Ha & Hprog & _ & _ & _ & Hr)]];
      rewrite Hr; cbn [snd]; [now apply Hsame| |];
      destruct (select_attempt_mem _ _ _ _ Ha) as (Hida & _ & _);
      assert (Hina : In a (quizAttemptTable db))
        by (unfold select_attempt in Ha; now apply find_some in Ha);
      unfold completed_attempts;
      cbn [quizAttemptTable with_quizAttemptTable with_userProfileTable];
      eexists _, []; rewrite app_nil_r; (split; [reflexivity|]); (split; [|cbn; lia]);
      apply (Hupd a); trivial;
      unfold attempt_evolves; cbn; repeat split; try lia; congruence.
  - apply Hsame.
    destruct (postCompletion_effect user message serverReceivedTimestamp res
                userMessageId llmMessageId db)
      as [[_ ->] | (answer & _ & _ & _ & _ & _ & _ & ->)]; reflexivity.
Qed.

(** X5.  Along any run of requests the attempts that exist keep their
    place, identifier, owner, question set, [totalQuestions] and start
    date; their score never goes down; and an attempt that is completed
    is never changed again.  New attempts are added after them. *)
Theorem attempts_keep_their_snapshot (reqs : list Request) (db : Store) :
  store_ok db ->
  exists olds news,
    quizAttemptTable (run reqs db) = (olds ++ news)%list /\
    Forall2 attempt_evolves (quizAttemptTable db) olds.
Proof.
  revert db. induction reqs as [|req rest IH]; intros db Hok; cbn [run].
  - exists (quizAttemptTable db), []. rewrite app_nil_r. split; [reflexivity|].
    apply Forall2_refl_on, attempt_evolves_refl.
  - destruct (serve_attempts_evolve req db) as (olds1 & news1 & Heq1 & Hev1 & _).
    { apply Hok. }
    destruct (IH (serve req db) (serve_store_ok req db Hok))
      as (olds2 & news2 & Heq2 & Hev2).
    rewrite Heq1 in Hev2. apply Forall2_app_inv_l in Hev2 as (o1 & o2 & Ho1 & Ho2 & ->).
    exists o1, (o2 ++ news2)%list. split; [now rewrite Heq2, app_assoc|].
    eapply Forall2_trans_on; [exact attempt_evolves_trans | exact Hev1 | exact Ho1].
Qed.

Lemma attempts_keep_their_snapshot_witness :
  exists olds news,
    quizAttemptTable (run Fixture.two_quizzes Fixture.answered) = (olds ++ news)%list /\
    Forall2 attempt_evolves (quizAttemptTable Fixture.answered) olds.
Proof.
  apply (attempts_keep_their_snapshot Fixture.two_quizzes Fixture.answered).
  exact answered_store_ok.
Defined.

(** ** Rejections and ownership *)

(** X6.  [startAttempt] answers with an [HTTPException] exactly when the
    question set does not exist or has no question; the exception is a
    404 and no attempt is created. *)
Theorem startAttempt_needs_a_set_with_questions
    (user : AuthUser.t) (questionSetId attemptId : string) (now : Z) (db : Store) :
  ((select_questionSet questionSetId db = None \/
    select_questions_of_set questionSetId db = [])
   <->
   (exists status message db',
       startAttempt user questionSetId attemptId now db =
         (HTTPException status message, db'))) /\
  (forall status message db',
      startAttempt user questionSetId attemptId now db =
        (HTTPException status message, db') ->
      status = 404 /\ db' = db /\
      quizAttemptTable db' = quizAttemptTable db).
Proof.
  unfold startAttempt.
  destruct (select_questionSet questionSetId db) as [qs|].
  - destruct (select_questions_of_set questionSetId db) as [|q rest].
    + cbn. split.
      * split; [intros _; eexists _, _, _; reflexivity | intros _; now right].
      * intros st m d [= <- _ <-]. auto.
    + cbn [length Nat.eqb]. cbv zeta.
      destruct (insert_quizAttempt _ db) as [[[] d]|]; split;
        try (intros st m d' H; discriminate);
        (split; [intros [H|H]; discriminate | intros (st & m & d' & H); discriminate]).
  - split.
    + split; [intros _; eexists _, _, _; reflexivity | intros _; now left].
    + intros st m d [= <- _ <-]. auto.
Qed.

(** X7.  Once an attempt has been completed, every answer submitted to
    it by its owner is refused with 403 and recorded nowhere. *)
Theorem completed_attempt_takes_no_answer
    (user : AuthUser.t) (attemptId profileId : string) (now dbNow : Z) (db db' : Store)
    (status : Z) (message : string) (data : CompleteData.t) :
  completeAttempt user attemptId profileId now dbNow db =
    (Json status message data, db') ->
  forall (questionId userAnswer answerId : string) (now' : Z),
    submitAnswer user attemptId questionId userAnswer answerId now' db' =
      (HTTPException 403 "Quiz attempt has already been completed", db').
Proof.
  intros Hdone questionId userAnswer answerId now'.
  assert (Hsel : exists a, select_attempt attemptId (AuthUser.id user) db' =
                           Some (attempt_with_completedAt now a)).
  { destruct (completeAttempt_cases user attemptId profileId now dbNow db)
      as [(r & Hr & Hf) | [(a & p & Ha & _ & _ & Hr) | (a & Ha & _ & _ & _ & _ & Hr)]];
      rewrite Hr in Hdone.
    - injection Hdone as -> _. discriminate.
    - injection Hdone as _ _ _ <-. exists a. now apply select_attempt_completed.
    - injection Hdone as _ _ _ <-. exists a. now apply select_attempt_completed. }
  destruct Hsel as (a & Hsel). unfold submitAnswer. now rewrite Hsel.
Qed.

Lemma completed_attempt_takes_no_answer_witness :
  submitAnswer Fixture.quizuser "a1" "q2" "5" "ans9" 130 Fixture.completed =
    (HTTPException 403 "Quiz attempt has already been completed", Fixture.completed).
Proof.
  apply (completed_attempt_takes_no_answer Fixture.quizuser "a1" "p1" 120 120
           Fixture.answered Fixture.completed 200 "Quiz completed successfully"
           (CompleteData.mk "a1" 1 10 100 120)).
  reflexivity.
Defined.

(** X8.  An attempt of another user is out of reach: submitting an
    answer to it and completing it are both answered 404, as if it did
    not exist, and change nothing. *)
Theorem attempt_of_another_user_is_not_found
    (user : AuthUser.t) (attemptId : string) (db : Store) (a : QuizAttempt.row) :
  NoDup (map QuizAttempt.id (quizAttemptTable db)) ->
  In a (quizAttemptTable db) ->
  QuizAttempt.id a = attemptId ->
  QuizAttempt.userId a <> AuthUser.id user ->
  (forall (questionId userAnswer answerId : string) (now : Z),
      submitAnswer user attemptId questionId userAnswer answerId now db =
        (HTTPException 404 "Quiz attempt not found or does not belong to user", db)) /\
  (forall (profileId : string) (now dbNow : Z),
      completeAttempt user attemptId profileId now dbNow db =
        (HTTPException 404 "Quiz attempt not found or does not belong to user", db)).
Proof.
  intros Hnd Hin Hid Hother.
  assert (Hnone : select_attempt attemptId (AuthUser.id user) db = None).
  { apply select_attempt_none. intros a' Hin' Hid'.
    assert (a' = a) as ->; [|exact Hother].
    apply (NoDup_map_injective QuizAttempt.id (quizAttemptTable db)); trivial.
    congruence. }
  split; intros; [unfold submitAnswer | unfold completeAttempt]; now rewrite Hnone.
Qed.

Lemma attempt_of_another_user_is_not_found_witness :
  (forall (questionId userAnswer answerId : string) (now : Z),
      submitAnswer Fixture.otheruser "a1" questionId userAnswer answerId now
        Fixture.started =
        (HTTPException 404 "Quiz attempt not found or does not belong to user",
         Fixture.started)) /\
  (forall (profileId : string) (now dbNow : Z),
      completeAttempt Fixture.otheruser "a1" profileId now dbNow Fixture.started =
        (HTTPException 404 "Quiz attempt not found or does not belong to user",
         Fixture.started)).
Proof.
  apply (attempt_of_another_user_is_not_found Fixture.otheruser "a1" Fixture.started
           (QuizAttempt.mk "a1" "u1" "set1" 0 10 100 None)).
  - cbn. repeat constructor. intros H. exact H.
  - cbn. left. reflexivity.
  - reflexivity.
  - cbn. discriminate.
Defined.

Lemma leftJoin_cons {A B : Type} (on : A -> B -> bool) (a : A) (l : list A)
    (r : list B) :
  exists (b : option B) (more : list (A * option B)),
    leftJoin on (a :: l) r = ((a, b) :: more ++ leftJoin on l r)%list /\
    Forall (fun x => fst x = a) more.
Proof.
  unfold leftJoin. cbn [flat_map].
  destruct (filter (on a) r) as [|b0 matches].
  - exists None, []. split; [reflexivity | constructor].
  - exists (Some b0), (map (fun b => (a, Some b)) matches). split; [reflexivity|].
    apply Forall_map. apply Forall_forall. intros b _. reflexivity.
Qed.

Lemma filter_all_or_none {A : Type} (p : A -> bool) (c : bool) (l : list A) :
  Forall (fun x => p x = c) l ->
  filter p l = if c then l else [].
Proof.
  induction 1 as [|x l Hx _ IH]; cbn; [now destruct c|].
  rewrite Hx, IH. now destruct c.
Qed.

Lemma filter_leftJoin_first {A B : Type} (on : A -> B -> bool) (p : A -> bool)
    (l : list A) (r : list B) :
  match find p l with
  | None => filter (fun x => p (fst x)) (leftJoin on l r) = []
  | Some a =>
      exists b rest,
        filter (fun x => p (fst x)) (leftJoin on l r) = (a, b) :: rest
  end.
Proof.
  induction l as [|a l IH]; [reflexivity|].
  destruct (leftJoin_cons on a l r) as (b & more & -> & Hmore).
  cbn [find filter fst]. rewrite filter_app.
  assert (Hall : Forall (fun x => p (fst x) = p a) more).
  { eapply Forall_impl; [|exact Hmore]. intros x Hx. cbn in Hx. now rewrite Hx. }
  rewrite (filter_all_or_none _ _ _ Hall).
  destruct (p a); [eexists _, _; reflexivity|].
  cbn [app]. exact IH.
Qed.

(** X9.  [getAttemptDetail] answers 200 to every caller and for every
    attempt identifier, and the answers it lists are the same whoever
    asks: the ownership test of the handler never fails.  Only the
    attempt's own columns depend on the caller: they are present, under
    the property ["0"], when the caller owns the attempt, and absent
    otherwise. *)
Theorem getAttemptDetail_shows_answers_to_any_caller
    (user other : AuthUser.t) (attemptId : string) (db : Store) :
  http_status (getAttemptDetail user attemptId db) = 200 /\
  property "answers" (body_of (getAttemptDetail user attemptId db)) =
    Some (JArr (map answer_columns (select_answers_of_attempt attemptId db))) /\
  property "answers" (body_of (getAttemptDetail user attemptId db)) =
    property "answers" (body_of (getAttemptDetail other attemptId db)) /\
  match select_attempt attemptId (AuthUser.id user) db with
  | None => property "0" (body_of (getAttemptDetail user attemptId db)) = None
  | Some a =>
      exists row,
        property "0" (body_of (getAttemptDetail user attemptId db)) = Some row /\
        property "id" row = Some (JStr attemptId) /\
        property "userId" row = Some (JStr (AuthUser.id user)) /\
        property "score" row = Some (JNum (QuizAttempt.score a))
  end.
Proof.
  assert (Hanswers : forall u,
            property "answers" (body_of (getAttemptDetail u attemptId db)) =
            Some (JArr (map answer_columns (select_answers_of_attempt attemptId db)))).
  { intros u. unfold getAttemptDetail. cbn [truthy_array negb body_of].
    destruct (filter _ (leftJoin _ (quizAttemptTable db) (questionSetTable db)))
      as [|row rows]; reflexivity. }
  split; [reflexivity|]. split; [apply Hanswers|].
  split; [now rewrite !Hanswers|].
  unfold getAttemptDetail. cbn [truthy_array negb body_of].
  pose proof (filter_leftJoin_first
                (fun a qs => String.eqb (QuizAttempt.questionSetId a) (QuestionSet.id qs))
                (fun a => String.eqb (QuizAttempt.id a) attemptId
                          && String.eqb (QuizAttempt.userId a) (AuthUser.id user))
                (quizAttemptTable db) (questionSetTable db)) as Hfirst.
  cbv beta in Hfirst. unfold select_attempt.
  destruct (find _ (quizAttemptTable db)) as [a|] eqn:Ha.
  - destruct Hfirst as (b & rest & ->).
    apply find_some in Ha as [_ Hp]. apply andb_true_iff in Hp as [Hid Hu].
    apply String.eqb_eq in Hid, Hu.
    eexists. split; [reflexivity|]. cbn. rewrite Hid, Hu. auto.
  - rewrite Hfirst. reflexivity.
Qed.

(** ** The chat history *)

Lemma insert_by_ascending {A : Type} (key : A -> Z) (x : A) (l : list A) :
  ascending (map key l) -> ascending (map key (insert_by key x l)).
Proof.
  induction l as [|y l IH]; cbn [insert_by map ascending].
  - intros _. split; [constructor | exact I].
  - intros [Hy Hl]. destruct (Z.leb_spec (key x) (key y)) as [Hle|Hlt];
      cbn [map ascending].
    + split; [|split; assumption].
      constructor; [exact Hle|].
      eapply Forall_impl; [|exact Hy]. intros z Hz. cbn in Hz. lia.
    + split; [|now apply IH].
      apply (Permutation_Forall
               (Permutation_sym (Permutation_map key (insert_by_permutation key x l)))).
      cbn [map]. constructor; [lia | exact Hy].
Qed.

Lemma orderBy_ascending {A : Type} (key : A -> Z) (l : list A) :
  ascending (map key (orderBy key l)).
Proof.
  unfold orderBy. induction l as [|x l IH]; cbn [fold_right].
  - exact I.
  - now apply insert_by_ascending.
Qed.

(** X10.  The chat history is returned in ascending order of creation
    time. *)
Theorem history_is_in_ascending_order (user : AuthUser.t) (db : Store) :
  ascending (map ChatHistory.createdAt (items_of (getHistory user db))).
Proof.
  unfold getHistory.
  destruct (length _ =? 0)%nat; [exact I|].
  cbv zeta. cbn [items_of]. rewrite map_map.
  change (fun x => ChatHistory.createdAt (history_item x)) with ChatMessage.createdAt.
  unfold select_messages_of. apply orderBy_ascending.
Qed.

Lemma getHistory_same_tables (user : AuthUser.t) (db db' : Store) :
  chatSessionTable db' = chatSessionTable db ->
  chatMessageTable db' = chatMessageTable db ->
  getHistory user db' = getHistory user db.
Proof.
  intros Hs Hm. unfold getHistory, select_messages_of. now rewrite Hs, Hm.
Qed.

Lemma filter_none {A : Type} (p : A -> bool) (l : list A) :
  Forall (fun x => p x = false) l -> filter p l = [].
Proof.
  intros H. now rewrite (filter_all_or_none p false l H).
Qed.

(** X11.  A user's chat history changes only through that user's own
    chat completions: no other request, and no completion of another
    user, changes what [getHistory] returns. *)
Theorem history_changes_only_through_own_completions
    (me : AuthUser.t) (req : Request) (db : Store) :
  (forall user message ts res userMessageId llmMessageId,
      req = PostCompletion user message ts res userMessageId llmMessageId ->
      AuthUser.id user <> AuthUser.id me) ->
  getHistory me (serve req db) = getHistory me db.
Proof.
  intros Hother. destruct req; cbn [serve]; try reflexivity.
  - apply getHistory_same_tables;
      destruct (startAttempt_effect user questionSetId attemptId now db)
        as [[_ ->] | (_ & _ & _ & _ & ->)]; reflexivity.
  - apply getHistory_same_tables;
      destruct (submitAnswer_effect user attemptId questionId userAnswer answerId now db)
        as [[_ ->] | (a & q & _ & _ & _ & _ & _ & ->)]; try reflexivity;
      cbn [snd]; unfold after_submission; destruct (verdict q userAnswer); reflexivity.
  - apply getHistory_same_tables;
      destruct (completeAttempt_cases user attemptId profileId now dbNow db)
        as [(r & Hr & _) | [(a & p & _ & _ & _ & Hr) | (a & _ & _ & _ & _ & _ & Hr)]];
      rewrite Hr; reflexivity.
  - specialize (Hother user message serverReceivedTimestamp res userMessageId
                  llmMessageId eq_refl).
    destruct (postCompletion_effect user message serverReceivedTimestamp res
                userMessageId llmMessageId db)
      as [[_ ->] | (answer & _ & Hnew & _ & _ & _ & _ & ->)]; [reflexivity|].
    cbn [snd]. unfold getHistory, select_messages_of. tables.
    rewrite filter_app. cbn [filter ChatSession.userId].
    apply String.eqb_neq in Hother. rewrite Hother, app_nil_r.
    set (mine := filter (fun s => String.eqb (ChatSession.userId s) (AuthUser.id me))
                        (chatSessionTable db)).
    assert (Hnot : mem (OpenAiChatCompletions.id answer) (map ChatSession.id mine) = false).
    { apply mem_not_In. intros Hin. apply Hnew.
      apply in_map_iff in Hin as (s & Hid & Hs). apply filter_In in Hs as [Hs _].
      apply in_map_iff. now exists s. }
    destruct (length mine =? 0)%nat; [reflexivity|].
    cbv zeta. rewrite filter_app. cbn [filter ChatMessage.chatSessionId].
    now rewrite Hnot, app_nil_r.
Qed.

Lemma history_changes_only_through_own_completions_witness :
  getHistory Fixture.quizuser
    (serve (PostCompletion Fixture.otheruser (ChatMessageForm.mk "user" "Hello")
              1700000060123 (Some Fixture.llmResponse) "m1" "m2") Fixture.seeded) =
  getHistory Fixture.quizuser Fixture.seeded.
Proof.
  apply (history_changes_only_through_own_completions Fixture.quizuser
           (PostCompletion Fixture.otheruser (ChatMessageForm.mk "user" "Hello")
              1700000060123 (Some Fixture.llmResponse) "m1" "m2") Fixture.seeded).
  intros user message ts res userMessageId llmMessageId Heq.
  injection Heq as <- _ _ _ _ _. cbn. discriminate.
Defined.

Lemma history_contains (user : AuthUser.t) (db : Store) (m : ChatMessage.row)
    (s : ChatSession.row) :
  In m (chatMessageTable db) -> In s (chatSessionTable db) ->
  ChatSession.userId s = AuthUser.id user ->
  ChatMessage.chatSessionId m = ChatSession.id s ->
  In (history_item m) (items_of (getHistory user db)).
Proof.
  intros Hm Hs Hu Hid. unfold getHistory.
  set (mine := filter (fun s => String.eqb (ChatSession.userId s) (AuthUser.id user))
                      (chatSessionTable db)).
  assert (Hmine : In s mine).
  { apply filter_In. split; [exact Hs | now apply String.eqb_eq]. }
  destruct (length mine =? 0)%nat eqn:Hlen.
  - apply Nat.eqb_eq, length_zero_iff_nil in Hlen. rewrite Hlen in Hmine. contradiction.
  - cbv zeta. cbn [items_of]. apply in_map. apply select_messages_of_In.
    split; [exact Hm|]. exists s. auto.
Qed.

(** X12.  After a successful chat completion, the caller's history
    holds both messages of the exchange, each under the identifier of the
    new session: the user's message at the time of receipt and the
    assistant's message at the provider's creation time. *)
Theorem completion_appears_in_history
    (user : AuthUser.t) (message : ChatMessageForm.t) (ts : Z)
    (answer : OpenAiChatCompletions.t) (userMessageId llmMessageId : string)
    (db db' : Store) (status : Z) (msg : string) (data : ChatMessageForm.t) :
  postCompletion user message ts (Some answer) userMessageId llmMessageId db =
    (Json status msg data, db') ->
  In (ChatHistory.mk (OpenAiChatCompletions.id answer) (ChatMessageForm.role message)
        (ChatMessageForm.content message) ts)
     (items_of (getHistory user db')) /\
  In (ChatHistory.mk (OpenAiChatCompletions.id answer) "assistant"
        (join_messages (OpenAiChatCompletions.choices answer))
        (OpenAiChatCompletions.created answer * 1000))
     (items_of (getHistory user db')).
Proof.
  intros Hdone.
  destruct (postCompletion_effect user message ts (Some answer) userMessageId
              llmMessageId db)
    as [[Hfail _] | (answer' & [= <-] & _ & _ & _ & _ & _ & Hr)].
  - rewrite Hdone in Hfail. discriminate.
  - rewrite Hr in Hdone. injection Hdone as _ _ _ <-.
    set (s := ChatSession.mk (OpenAiChatCompletions.id answer) (AuthUser.id user)
                (OpenAiChatCompletions.created answer * 1000)).
    split.
    + apply (history_contains user _
               (ChatMessage.mk userMessageId (OpenAiChatCompletions.id answer)
                  (ChatMessageForm.role message) (ChatMessageForm.content message) ts)
               s); try reflexivity; tables; rewrite in_app_iff; cbn; auto.
    + apply (history_contains user _
               (ChatMessage.mk llmMessageId (OpenAiChatCompletions.id answer)
                  "assistant" (join_messages (OpenAiChatCompletions.choices answer))
                  (OpenAiChatCompletions.created answer * 1000))
               s); try reflexivity; tables; rewrite in_app_iff; cbn; auto.
Qed.

Lemma completion_appears_in_history_witness :
  let db' :=
    snd (postCompletion Fixture.quizuser (ChatMessageForm.mk "user" "Tell me a joke")
           1700000060123 (Some Fixture.llmResponse) "m1" "m2" Fixture.seeded) in
  In (ChatHistory.mk "llm-session-1" "user" "Tell me a joke" 1700000060123)
     (items_of (getHistory Fixture.quizuser db')) /\
  In (ChatHistory.mk "llm-session-1" "assistant" "[object Object]" 1700000000000)
     (items_of (getHistory Fixture.quizuser db')).
Proof.
  apply (completion_appears_in_history Fixture.quizuser
           (ChatMessageForm.mk "user" "Tell me a joke") 1700000060123
           Fixture.llmResponse "m1" "m2" Fixture.seeded _ 200
           "Successfully generate chat completions"
           (ChatMessageForm.mk "assistant" "[object Object]")).
  reflexivity.
Defined.

Lemma filter_or_permutation {A : Type} (p q : A -> bool) (l : list A) :
  (forall x, p x = true -> q x = true -> False) ->
  Permutation (filter (fun x => p x || q x) l) (filter p l ++ filter q l).
Proof.
  intros Hdisj. induction l as [|x l IH]; cbn [filter]; [reflexivity|].
  destruct (p x) eqn:Hp, (q x) eqn:Hq; cbn [orb app].
  - destruct (Hdisj x Hp Hq).
  - now constructor.
  - now apply Permutation_cons_app.
  - exact IH.
Qed.

Lemma NoDup_map_filter {A B : Type} (g : A -> B) (p : A -> bool) (l : list A) :
  NoDup (map g l) -> NoDup (map g (filter p l)).
Proof.
  induction l as [|x l IH]; cbn; intros Hnd; [constructor|].
  inversion Hnd as [|? ? Hnot Hnd']; subst.
  destruct (p x); cbn; [|now apply IH].
  constructor; [|now apply IH].
  intros Hin. apply Hnot. apply in_map_iff in Hin as (y & Hy & Hin).
  apply filter_In in Hin as [Hin _]. apply in_map_iff. now exists y.
Qed.

Lemma messages_by_session_permutation (messages : list ChatMessage.row)
    (sessions : list ChatSession.row) :
  NoDup (map ChatSession.id sessions) ->
  Permutation
    (concat (map (fun s =>
                    filter (fun m => String.eqb (ChatMessage.chatSessionId m)
                                                (ChatSession.id s)) messages)
                 sessions))
    (filter (fun m => mem (ChatMessage.chatSessionId m) (map ChatSession.id sessions))
            messages).
Proof.
  induction sessions as [|s sessions IH]; cbn [map concat]; intros Hnd.
  - rewrite filter_none; [reflexivity|]. apply Forall_forall. intros m _. reflexivity.
  - inversion Hnd as [|? ? Hnot Hnd']; subst.
    rewrite (IH Hnd'). symmetry.
    apply (filter_or_permutation
             (fun m => String.eqb (ChatMessage.chatSessionId m) (ChatSession.id s))
             (fun m => mem (ChatMessage.chatSessionId m) (map ChatSession.id sessions))).
    intros m Heq Hmem. apply String.eqb_eq in Heq. apply mem_In in Hmem.
    apply Hnot. now rewrite <- Heq.
Qed.

(** X13.  When session identifiers are unique, the current [getHistory]
    returns exactly the items the earlier revision returned, session by
    session, each as many times; only their order differs. *)
Theorem history_rewrite_keeps_the_items (user : AuthUser.t) (db : Store) :
  NoDup (map ChatSession.id (chatSessionTable db)) ->
  Permutation (items_of (earlier_getHistory user db)) (items_of (getHistory user db)).
Proof.
  intros Hnd. unfold earlier_getHistory, getHistory. cbv zeta.
  set (mine := filter (fun s => String.eqb (ChatSession.userId s) (AuthUser.id user))
                      (chatSessionTable db)).
  assert (Hmine : NoDup (map ChatSession.id mine)) by now apply NoDup_map_filter.
  destruct (length mine =? 0)%nat eqn:Hlen.
  - apply Nat.eqb_eq, length_zero_iff_nil in Hlen. rewrite Hlen. reflexivity.
  - cbn [items_of]. apply Permutation_map. unfold select_messages_of.
    rewrite orderBy_permutation. now apply messages_by_session_permutation.
Qed.

Lemma history_rewrite_keeps_the_items_witness :
  Permutation (items_of (earlier_getHistory Fixture.quizuser Scenario.chatted))
              (items_of (getHistory Fixture.quizuser Scenario.chatted)).
Proof.
  apply (history_rewrite_keeps_the_items Fixture.quizuser Scenario.chatted).
  cbn. repeat constructor; cbn; intuition discriminate.
Defined.

(** On that store the two revisions do differ in order. *)
Example history_rewrite_changes_the_order :
  map ChatHistory.content (items_of (earlier_getHistory Fixture.quizuser Scenario.chatted))
    = ["Tell me a joke"; "[object Object]"; "Another one"; "[object Object]"] /\
  map ChatHistory.content (items_of (getHistory Fixture.quizuser Scenario.chatted))
    = ["[object Object]"; "[object Object]"; "Tell me a joke"; "Another one"].
Proof.
  split; reflexivity.
Qed.

(** ** Accounts *)

Lemma serve_userTable (req : Request) (db : Store) :
  userTable (serve req db) = userTable db.
Proof.
  destruct req; cbn [serve]; try reflexivity.
  - destruct (startAttempt_effect user questionSetId attemptId now db)
      as [[_ ->] | (_ & _ & _ & _ & ->)]; reflexivity.
  - destruct (submitAnswer_effect user attemptId questionId userAnswer answerId now db)
      as [[_ ->] | (a & q & _ & _ & _ & _ & _ & ->)]; [reflexivity|].
    cbn [snd]. unfold after_submission. destruct (verdict q userAnswer); reflexivity.
  - destruct (completeAttempt_cases user attemptId profileId now dbNow db)
      as [(r & Hr & _) | [(a & p & _ & _ & _ & Hr) | (a & _ & _ & _ & _ & _ & Hr)]];
      rewrite Hr; reflexivity.
  - destruct (postCompletion_effect user message serverReceivedTimestamp res
                userMessageId llmMessageId db)
      as [[_ ->] | (answer & _ & _ & _ & _ & _ & _ & ->)]; reflexivity.
Qed.

(** X14.  A signup never creates an account.  The values it inserts into
    the user table carry the hash under a name that is no column, so the
    insert is refused for want of [password_hash], the transaction is
    rolled back, and the request is answered 500 'Failed to create user'
    with the store as it was, whatever the form, the drawn identifiers
    and the session.  As no other handler writes the user table, no run
    of requests changes it. *)
Theorem signup_never_creates_an_account :
  (forall (username passwordHash userId profileId : string) (dbNow : Z)
          (session : option string) (db : Store),
      signup username passwordHash userId profileId dbNow session db =
        (HTTPException 500 "Failed to create user", db))
  /\
  (forall (reqs : list Request) (db : Store),
      userTable (run reqs db) = userTable db).
Proof.
  split.
  - intros. apply signup_writes_nothing.
  - intros reqs. induction reqs as [|req rest IH]; intros db; cbn [run].
    + reflexivity.
    + now rewrite IH, serve_userTable.
Qed.

Example signup_on_the_empty_store :
  signup "alice" "hash" "u3" "p3" 5 (Some "session") emptyStore =
    (HTTPException 500 "Failed to create user", emptyStore).
Proof.
  reflexivity.
Qed.

Lemma select_user_by_name_stored (username : string) (db : Store) :
  In username (map User.username (userTable db)) ->
  exists u, select_user_by_name username db = Some u.
Proof.
  intros Hin. unfold select_user_by_name.
  destruct (find _ (userTable db)) as [u|] eqn:Hf; [now exists u|].
  exfalso. apply in_map_iff in Hin as (u & Hu & Hin).
  apply (find_none _ _ Hf) in Hin. rewrite Hu, String.eqb_refl in Hin. discriminate.
Qed.

Lemma select_user_by_name_unknown (username : string) (db : Store) :
  ~ In username (map User.username (userTable db)) ->
  select_user_by_name username db = None.
Proof.
  intros Hnot. unfold select_user_by_name.
  destruct (find _ (userTable db)) as [u|] eqn:Hf; [|reflexivity].
  exfalso. apply find_some in Hf as [Hin Hu]. apply String.eqb_eq in Hu.
  apply Hnot. rewrite <- Hu. now apply in_map.
Qed.

(** X17.  [login] never issues a session.  For a user name that is not
    stored it answers 401 'Invalid username or password'.  For a stored
    user name it reads the hash of the row under a name the row does not
    carry, the password check throws on the missing hash, and the request
    ends in an uncaught error, whatever the password and whatever the
    check and the session service would have answered. *)
Theorem login_never_issues_a_session
    (username password : string) (check : string -> string -> bool)
    (createSession : string -> option string) (db : Store) :
  snd (login username password check createSession db) = None /\
  (~ In username (map User.username (userTable db)) ->
   login username password check createSession db =
     (HTTPException 401 "Invalid username or password", None)) /\
  (In username (map User.username (userTable db)) ->
   login username password check createSession db = (Uncaught, None)).
Proof.
  repeat split.
  - unfold login. destruct (select_user_by_name username db); reflexivity.
  - intros Hnot. unfold login. now rewrite select_user_by_name_unknown.
  - intros Hin. unfold login.
    destruct (select_user_by_name_stored username db Hin) as (u & ->). reflexivity.
Qed.

Lemma login_never_issues_a_session_witness :
  login "quizuser" "passwordquiz" String.eqb (fun uid => Some uid) Fixture.seeded =
    (Uncaught, None) /\
  login "nobody" "passwordquiz" String.eqb (fun uid => Some uid) Fixture.seeded =
    (HTTPException 401 "Invalid username or password", None).
Proof.
  split.
  - apply (login_never_issues_a_session "quizuser" "passwordquiz" String.eqb
             (fun uid => Some uid) Fixture.seeded).
    cbn. auto.
  - apply (login_never_issues_a_session "nobody" "passwordquiz" String.eqb
             (fun uid => Some uid) Fixture.seeded).
    cbn. intros [H | [H | []]]; discriminate H.
Defined.

(** ** More on profiles and attempts *)

Lemma fold_max_ge (l : list Z) (h : Z) : h <= fold_left Z.max l h.
Proof.
  revert h. induction l as [|x l IH]; intros h; cbn; [lia|].
  specialize (IH (Z.max h x)). lia.
Qed.

(** X18.  Along any run of requests, the aggregates of an existing
    profile never decrease: neither [totalQuizzesTaken] nor
    [highestScore]. *)
Theorem profile_aggregates_never_decrease
    (uid : string) (reqs : list Request) (db : Store) (taken highest : Z) :
  profile_totals uid db = Some (taken, highest) ->
  exists taken' highest',
    profile_totals uid (run reqs db) = Some (taken', highest') /\
    taken <= taken' /\ highest <= highest'.
Proof.
  intros Hp. rewrite (run_from_profile uid reqs db taken highest Hp).
  eexists _, _. split; [reflexivity|]. split; [lia | apply fold_max_ge].
Qed.

Lemma profile_aggregates_never_decrease_witness :
  exists taken' highest',
    profile_totals "u1" (run Fixture.two_quizzes Fixture.completed) =
      Some (taken', highest') /\
    1 <= taken' /\ 1 <= highest'.
Proof.
  apply (profile_aggregates_never_decrease "u1" Fixture.two_quizzes Fixture.completed
           1 1).
  reflexivity.
Defined.

(** X19.  After a successful [startAttempt] the new attempt is found
    under the returned identifier by its starter, in progress, with
    score 0, the start date of the request and the [totalQuestions] of
    the response; no other user finds it. *)
Theorem started_attempt_is_found_by_its_starter_only
    (user : AuthUser.t) (questionSetId attemptId : string) (now : Z) (db db' : Store)
    (status : Z) (message : string) (data : StartData.t) :
  startAttempt user questionSetId attemptId now db = (Json status message data, db') ->
  StartData.attemptId data = attemptId /\
  select_attempt attemptId (AuthUser.id user) db' =
    Some (QuizAttempt.mk attemptId (AuthUser.id user) questionSetId 0
            (StartData.totalQuestions data) now None) /\
  (forall other : AuthUser.t,
      AuthUser.id other <> AuthUser.id user ->
      select_attempt attemptId (AuthUser.id other) db' = None).
Proof.
  intros Hdone.
  destruct (startAttempt_effect user questionSetId attemptId now db)
    as [[Hfail _] | (Hid & _ & _ & _ & Hr)].
  - rewrite Hdone in Hfail. discriminate.
  - rewrite Hr in Hdone. injection Hdone as _ _ <- <-.
    assert (Hnone : forall uid,
              find (fun a => String.eqb (QuizAttempt.id a) attemptId
                             && String.eqb (QuizAttempt.userId a) uid)
                   (quizAttemptTable db) = None).
    { intros uid. apply find_none_iff. intros a Ha. apply andb_false_iff. left.
      apply String.eqb_neq. intros Heq. apply Hid. rewrite <- Heq. now apply in_map. }
    split; [reflexivity|]. split.
    + unfold select_attempt. tables. rewrite (find_app_none _ _ _ (Hnone _)).
      cbn. now rewrite !String.eqb_refl.
    + intros other Hother. unfold select_attempt. tables.
      rewrite (find_app_none _ _ _ (Hnone _)). cbn.
      rewrite String.eqb_refl. cbn.
      apply not_eq_sym, String.eqb_neq in Hother. now rewrite Hother.
Qed.

Lemma started_attempt_is_found_by_its_starter_only_witness :
  select_attempt "a1" "u1" Fixture.started =
    Some (QuizAttempt.mk "a1" "u1" "set1" 0 10 100 None) /\
  (forall other : AuthUser.t,
      AuthUser.id other <> "u1" ->
      select_attempt "a1" (AuthUser.id other) Fixture.started = None).
Proof.
  apply (started_attempt_is_found_by_its_starter_only Fixture.quizuser "set1" "a1" 100
           Fixture.seeded Fixture.started 200 "Quiz started successfully"
           (StartData.mk "a1" 10)).
  reflexivity.
Defined.







(** ** Tables that only grow *)

Lemma serve_only_appends (req : Request) (db : Store) :
  grows_by_at_most 1 (userTable db) (userTable (serve req db)) /\
  grows_by_at_most 1 (quizAnswerTable db) (quizAnswerTable (serve req db)) /\
  grows_by_at_most 1 (chatSessionTable db) (chatSessionTable (serve req db)) /\
  grows_by_at_most 2 (chatMessageTable db) (chatMessageTable (serve req db)) /\
  questionSetTable (serve req db) = questionSetTable db /\
  questionTable (serve req db) = questionTable db.
Proof.
  assert (Hsame : forall (A : Type) (n : nat) (l : list A), grows_by_at_most n l l).
  { intros A n l. exists []. rewrite app_nil_r. split; [reflexivity | cbn; lia]. }
  assert (Hone : forall (A : Type) (l : list A) (x : A),
            grows_by_at_most 1 l (l ++ [x])).
  { intros A l x. exists [x]. split; [reflexivity | cbn; lia]. }
  destruct req; cbn [serve]; try (repeat split; apply Hsame).
  - destruct (startAttempt_effect user questionSetId attemptId now db)
      as [[_ ->] | (_ & _ & _ & _ & ->)]; cbn [snd]; tables;
      repeat split; apply Hsame.
  - destruct (submitAnswer_effect user attemptId questionId userAnswer answerId now db)
      as [[_ ->] | (a & q & _ & _ & _ & _ & _ & ->)]; cbn [snd];
      [repeat split; apply Hsame|].
    unfold after_submission. destruct (verdict q userAnswer); tables;
      repeat split; try apply Hsame; apply Hone.
  - destruct (completeAttempt_cases user attemptId profileId now dbNow db)
      as [(r & Hr & _) | [(a & p & _ & _ & _ & Hr) | (a & _ & _ & _ & _ & _ & Hr)]];
      rewrite Hr; cbn [snd]; unfold completed_attempts; tables;
      repeat split; apply Hsame.
  - destruct (postCompletion_effect user message serverReceivedTimestamp res
                userMessageId llmMessageId db)
      as [[_ ->] | (answer & _ & _ & _ & _ & _ & _ & ->)]; cbn [snd]; tables;
      repeat split; try apply Hsame; try apply Hone.
    eexists [_; _]. split; [reflexivity | cbn; lia].
Qed.

(** X21.  Along any run of requests the rows of the user, answer, chat
    session and chat message tables are never changed or removed, rows
    are only added after them; the question sets and the questions are
    never written at all. *)
Theorem requests_only_append_rows (reqs : list Request) (db : Store) :
  (exists added, userTable (run reqs db) = (userTable db ++ added)%list) /\
  (exists added, quizAnswerTable (run reqs db) = (quizAnswerTable db ++ added)%list) /\
  (exists added, chatSessionTable (run reqs db) = (chatSessionTable db ++ added)%list) /\
  (exists added, chatMessageTable (run reqs db) = (chatMessageTable db ++ added)%list) /\
  questionSetTable (run reqs db) = questionSetTable db /\
  questionTable (run reqs db) = questionTable db.
Proof.
  revert db. induction reqs as [|req rest IH]; intros db; cbn [run].
  - repeat split; try (exists []; now rewrite app_nil_r).
  - destruct (IH (serve req db))
      as ((u2 & Hu2) & (a2 & Ha2) & (s2 & Hs2) & (m2 & Hm2) & Hqs2 & Hq2).
    destruct (serve_only_appends req db)
      as ((u1 & Hu1 & _) & (a1 & Ha1 & _) & (s1 & Hs1 & _) & (m1 & Hm1 & _) & Hqs1 & Hq1).
    repeat split.
    + exists (u1 ++ u2)%list. now rewrite Hu2, Hu1, app_assoc.
    + exists (a1 ++ a2)%list. now rewrite Ha2, Ha1, app_assoc.
    + exists (s1 ++ s2)%list. now rewrite Hs2, Hs1, app_assoc.
    + exists (m1 ++ m2)%list. now rewrite Hm2, Hm1, app_assoc.
    + now rewrite Hqs2.
    + now rewrite Hq2.
Qed.

(** ** All or nothing, and isolation between users *)

(** X22.  A request to start an attempt, submit an answer, complete an
    attempt or get a chat completion that is not answered with success
    leaves the store exactly as it was. *)
Theorem unsuccessful_requests_write_nothing (db : Store) :
  (forall user questionSetId attemptId now,
      succeeded (fst (startAttempt user questionSetId attemptId now db)) = false ->
      snd (startAttempt user questionSetId attemptId now db) = db) /\
  (forall user attemptId questionId userAnswer answerId now,
      succeeded (fst (submitAnswer user attemptId questionId userAnswer answerId now db))
        = false ->
      snd (submitAnswer user attemptId questionId userAnswer answerId now db) = db) /\
  (forall user attemptId profileId now dbNow,
      succeeded (fst (completeAttempt user attemptId profileId now dbNow db)) = false ->
      snd (completeAttempt user attemptId profileId now dbNow db) = db) /\
  (forall user message ts res userMessageId llmMessageId,
      succeeded (fst (postCompletion user message ts res userMessageId llmMessageId db))
        = false ->
      snd (postCompletion user message ts res userMessageId llmMessageId db) = db).
Proof.
  repeat split.
  - intros user questionSetId attemptId now Hfail.
    destruct (startAttempt_effect user questionSetId attemptId now db)
      as [[_ H] | (_ & _ & _ & _ & Hr)]; [exact H|].
    rewrite Hr in Hfail. discriminate.
  - intros user attemptId questionId userAnswer answerId now Hfail.
    destruct (submitAnswer_effect user attemptId questionId userAnswer answerId now db)
      as [[_ H] | (a & q & _ & _ & _ & _ & _ & Hr)]; [exact H|].
    rewrite Hr in Hfail. discriminate.
  - intros user attemptId profileId now dbNow Hfail.
    destruct (completeAttempt_cases user attemptId profileId now dbNow db)
      as [(r & Hr & _) | [(a & p & _ & _ & _ & Hr) | (a & _ & _ & _ & _ & _ & Hr)]];
      rewrite Hr in *; [reflexivity | discriminate | discriminate].
  - intros user message ts res userMessageId llmMessageId Hfail.
    destruct (postCompletion_effect user message ts res userMessageId llmMessageId db)
      as [[_ H] | (answer & _ & _ & _ & _ & _ & _ & Hr)]; [exact H|].
    rewrite Hr in Hfail. discriminate.
Qed.

(** X23.  After an accepted submission, the detail of the attempt lists
    the new answer: the question, the text submitted, the verdict the
    response gave and the correct answer the response gave. *)
Theorem submitted_answer_appears_in_attempt_detail
    (user : AuthUser.t) (attemptId questionId userAnswer answerId : string) (now : Z)
    (db db' : Store) (status : Z) (message : string) (data : AnswerData.t) :
  submitAnswer user attemptId questionId userAnswer answerId now db =
    (Json status message data, db') ->
  exists j,
    In j (elements
            (match property "answers" (body_of (getAttemptDetail user attemptId db')) with
             | Some answers => answers
             | None => JNull
             end)) /\
    property "questionId" j = Some (JStr questionId) /\
    property "userAnswer" j = Some (JStr userAnswer) /\
    property "isCorrect" j = Some (JBool (AnswerData.wasCorrect data)) /\
    property "correctAnswer" j = Some (JStr (AnswerData.correctAnswer data)) /\
    property "answeredAt" j = Some (JDate now).
Proof.
  intros Hdone.
  destruct (submitAnswer_effect user attemptId questionId userAnswer answerId now db)
    as [[Hfail _] | (a & q & Ha & Hprog & Hq & Hs & Hid & Hr)].
  - rewrite Hdone in Hfail. discriminate.
  - rewrite Hr in Hdone. injection Hdone as _ _ <- <-.
    set (db' := after_submission q (QuizAttempt.score a) attemptId questionId
                  userAnswer answerId now db).
    set (row := answer_row q attemptId questionId userAnswer answerId now).
    assert (Hrow : In row (quizAnswerTable db')).
    { unfold db'.
      rewrite (after_submission_answers attemptId questionId userAnswer answerId now
                 db a q).
      apply in_or_app. right. now left. }
    assert (Hq' : select_question (QuizAnswer.questionId row) db' = Some q).
    { unfold select_question. unfold db', after_submission.
      destruct (verdict q userAnswer); exact Hq. }
    pose proof (select_answers_of_attempt_complete attemptId db' row q Hrow eq_refl Hq')
      as Hjoined.
    destruct (getAttemptDetail_answers user attemptId db') as (body & Hres & Hans).
    rewrite Hres. cbn [body_of]. rewrite Hans. cbn [elements].
    exists (answer_columns (row, Some q)). split; [now apply in_map|].
    repeat split.
Qed.

Lemma submitted_answer_appears_in_attempt_detail_witness :
  exists j,
    In j (elements
            (match property "answers"
                     (body_of (getAttemptDetail Fixture.quizuser "a1" Fixture.answered))
             with
             | Some answers => answers
             | None => JNull
             end)) /\
    property "questionId" j = Some (JStr "q1") /\
    property "userAnswer" j = Some (JStr "true") /\
    property "isCorrect" j = Some (JBool true) /\
    property "correctAnswer" j = Some (JStr "true") /\
    property "answeredAt" j = Some (JDate 110).
Proof.
  apply (submitted_answer_appears_in_attempt_detail Fixture.quizuser "a1" "q1" "true"
           "ans1" 110 Fixture.started Fixture.answered 200
           "Answer submitted successfully" (AnswerData.mk true "true")).
  reflexivity.
Defined.

(** X24.  When attempt identifiers are unique, no request changes an
    attempt of a user other than the one it runs for: the row is in the
    store afterwards exactly as it was. *)
Theorem attempts_of_other_users_are_untouched
    (req : Request) (db : Store) (a : QuizAttempt.row) :
  NoDup (map QuizAttempt.id (quizAttemptTable db)) ->
  In a (quizAttemptTable db) ->
  requester req <> Some (QuizAttempt.userId a) ->
  In a (quizAttemptTable (serve req db)).
Proof.
  intros Hnd Hin Hother.
  assert (Hupd : forall (mine : QuizAttempt.row)
                        (f : QuizAttempt.row -> QuizAttempt.row),
            In mine (quizAttemptTable db) ->
            QuizAttempt.userId mine <> QuizAttempt.userId a ->
            In a (map (fun r => if String.eqb (QuizAttempt.id r) (QuizAttempt.id mine)
                                then f r else r)
                      (quizAttemptTable db))).
  { intros mine f Hmine Hneq. apply in_map_iff. exists a. split; [|exact Hin].
    destruct (String.eqb_spec (QuizAttempt.id a) (QuizAttempt.id mine)) as [Heq|_];
      [|reflexivity].
    exfalso. apply Hneq. f_equal.
    now apply (NoDup_map_injective QuizAttempt.id (quizAttemptTable db)). }
  destruct req; cbn [serve]; trivial; cbn [requester] in Hother.
  - destruct (startAttempt_effect user questionSetId attemptId now db)
      as [[_ ->] | (_ & _ & _ & _ & ->)]; [exact Hin|].
    cbn [snd]. tables. apply in_or_app. now left.
  - destruct (submitAnswer_effect user attemptId questionId userAnswer answerId now db)
      as [[_ ->] | (mine & q & Ha & _ & _ & _ & _ & ->)]; [exact Hin|].
    cbn [snd]. unfold after_submission. destruct (verdict q userAnswer); [|exact Hin].
    destruct (select_attempt_mem _ _ _ _ Ha) as (Hid & Hu & _).
    assert (Hmine : In mine (quizAttemptTable db)).
    { unfold select_attempt in Ha. now apply find_some in Ha. }
    tables. rewrite <- Hid. apply Hupd; [exact Hmine|]. congruence.
  - destruct (completeAttempt_cases user attemptId profileId now dbNow db)
      as [(r & Hr & _) | [(mine & p & Ha & _ & _ & Hr) | (mine & Ha & _ & _ & _ & _ & Hr)]];
      rewrite Hr; cbn [snd]; [exact Hin| |];
      destruct (select_attempt_mem _ _ _ _ Ha) as (Hid & Hu & _);
      assert (Hmine : In mine (quizAttemptTable db))
        by (unfold select_attempt in Ha; now apply find_some in Ha);
      unfold completed_attempts; tables; rewrite <- Hid;
      (apply Hupd; [exact Hmine|]); congruence.
  - destruct (postCompletion_effect user message serverReceivedTimestamp res
                userMessageId llmMessageId db)
      as [[_ ->] | (answer & _ & _ & _ & _ & _ & _ & ->)]; exact Hin.
Qed.

Lemma attempts_of_other_users_are_untouched_witness :
  In (QuizAttempt.mk "b1" "u2" "set1" 0 10 90 None)
     (quizAttemptTable
        (serve (CompleteAttempt Fixture.quizuser "b1" "p1" 120 120)
               Scenario.two_attempts)).
Proof.
  apply (attempts_of_other_users_are_untouched
           (CompleteAttempt Fixture.quizuser "b1" "p1" 120 120) Scenario.two_attempts
           (QuizAttempt.mk "b1" "u2" "set1" 0 10 90 None)).
  - cbn. repeat constructor; cbn; intuition discriminate.
  - cbn. left. reflexivity.
  - cbn. discriminate.
Defined.

(** X25.  The aggregates of a user's profile row change only through
    that user's own successful completions: every other request, and
    every failed completion, leaves them as they are. *)
Theorem profile_changes_only_through_own_completions
    (uid : string) (req : Request) (db : Store) (taken highest : Z) :
  profile_totals uid db = Some (taken, highest) ->
  completion_score uid req db = None ->
  profile_totals uid (serve req db) = Some (taken, highest).
Proof.
  intros Hp Hnone. pose proof (serve_profile_totals uid req db) as Hstep.
  rewrite Hnone in Hstep. now rewrite Hstep.
Qed.

Lemma profile_changes_only_through_own_completions_witness :
  profile_totals "u1"
    (serve (CompleteAttempt Fixture.otheruser "a1" "p9" 130 130) Fixture.completed) =
  Some (1, 1).
Proof.
  apply (profile_changes_only_through_own_completions "u1"
           (CompleteAttempt Fixture.otheruser "a1" "p9" 130 130) Fixture.completed 1 1).
  - reflexivity.
  - reflexivity.
Defined.
